(** * Site index equations: a shallow embedding of [site_index_equations.py]

    The six functions of the module are embedded over a small model of the
    Python and numpy numbers they are called with.  Floating-point numbers are
    the binary64 numbers of the kernel ([PrimFloat]), so every arithmetic
    operation below rounds exactly as the interpreter does.  Exceptions are
    the [Raise] results of an error monad.  The C mathematical library
    ([pow], [exp], [log], [log10]) and the power loop of numpy are
    parameters of the development. *)

From Stdlib Require Import ZArith List Bool Lia Floats.
From Stdlib Require Import FunctionalExtensionality.
Import ListNotations.
Set Warnings "-inexact-float".

(** ** Values, exceptions and results *)

(** The numbers a caller can pass: a Python [int], a Python [float], a
    [numpy.float64] scalar and a one-dimensional [float64] array.  The
    zero-dimensional array [np.where] makes of scalars is only added and
    multiplied by the module, which gives [numpy.float64] scalars, so it is
    a [VNp] too. *)
Inductive value : Type :=
| VInt (z : Z)
| VFloat (x : float)
| VNp (x : float)
| VArr (xs : list float).

Inductive exn : Type :=
| ZeroDivisionError
| OverflowError
| TypeError
| ValueError
| KeyError (key : value).

Inductive result (A : Type) : Type :=
| Ok (a : A)
| Raise (e : exn).

Arguments Ok {A} a.
Arguments Raise {A} e.

Definition bind {A B : Type} (c : result A) (k : A -> result B) : result B :=
  match c with
  | Ok a => k a
  | Raise e => Raise e
  end.

Notation "x <- c1 ;; c2" := (bind c1 (fun x => c2))
  (at level 61, c1 at next level, right associativity).
Notation "' pat <- c1 ;; c2" := (bind c1 (fun x => match x with pat => c2 end))
  (at level 61, pat pattern, c1 at next level, right associativity).

(** The result of comparing a number with a number: a truth value, or an
    array of truth values. *)
Inductive cond : Type :=
| CBool (b : bool)
| CArr (bs : list bool).

(** The functions of [libm] the interpreter and numpy call, and [v_pow],
    the power numpy's loop computes on the elements of an array: the [pow]
    of the C library, or the vectorised one numpy is built with. *)
Record libm : Type := {
  c_pow : float -> float -> float;
  c_exp : float -> float;
  c_log : float -> float;
  c_log10 : float -> float;
  v_pow : float -> float -> float
}.

(** ** Conversions *)

(** The binary64 number nearest to an integer (ties to even); infinite when
    the integer is out of range. *)
Definition float_of_Z (z : Z) : float :=
  SF2Prim (binary_normalize prec emax z 0 false).

(** [float(v)] as the interpreter converts an operand of float arithmetic. *)
Definition to_double (v : value) : result float :=
  match v with
  | VInt z =>
      let x := float_of_Z z in
      if is_infinity x then Raise OverflowError else Ok x
  | VFloat x => Ok x
  | VNp x => Ok x
  | VArr _ => Raise TypeError
  end.

(** The argument of a numpy function: a Python [int] becomes an [int64] or
    [uint64] array first, and a larger one has no floating-point loop. *)
Definition np_double (v : value) : result float :=
  match v with
  | VInt z =>
      if ((- 2 ^ 63 <=? z) && (z <? 2 ^ 64))%Z then Ok (float_of_Z z)
      else Raise TypeError
  | VFloat x => Ok x
  | VNp x => Ok x
  | VArr _ => Raise TypeError
  end.

(** The integer a float denotes, when it denotes one ([float.is_integer]). *)
Definition Z_of_float (x : float) : option Z :=
  match Prim2SF x with
  | S754_zero _ => Some 0%Z
  | S754_finite s m e =>
      let n := if s then Z.neg m else Z.pos m in
      match e with
      | Z0 => Some n
      | Zpos p => Some (n * 2 ^ Zpos p)%Z
      | Zneg p =>
          if (Z.pos m mod 2 ^ Zpos p =? 0)%Z then Some (n / 2 ^ Zpos p)%Z
          else None
      end
  | S754_infinity _ => None
  | S754_nan => None
  end.

(** ** Broadcasting *)

Fixpoint zip_with {A B C : Type} (f : A -> B -> C) (xs : list A) (ys : list B)
  : list C :=
  match xs, ys with
  | x :: xs', y :: ys' => f x y :: zip_with f xs' ys'
  | _, _ => []
  end.

Definition bshape (n m : nat) : option nat :=
  if Nat.eqb n m then Some n
  else if Nat.eqb n 1 then Some m
  else if Nat.eqb m 1 then Some n
  else None.

Definition stretch {A : Type} (n : nat) (xs : list A) : list A :=
  if Nat.eqb (length xs) n then xs
  else match xs with
       | [x] => repeat x n
       | _ => xs
       end.

Definition broadcast (f : float -> float -> float) (xs ys : list float)
  : result value :=
  match bshape (length xs) (length ys) with
  | Some n => Ok (VArr (zip_with f (stretch n xs) (stretch n ys)))
  | None => Raise ValueError
  end.

Definition is_np (v : value) : bool :=
  match v with
  | VNp _ => true
  | _ => false
  end.

(** A float operation on two numbers: element by element as soon as one of
    them is an array, a [numpy.float64] as soon as one of them is, a Python
    [float] otherwise. *)
Definition elementwise (f : float -> float -> float) (v w : value)
  : result value :=
  match v, w with
  | VArr xs, VArr ys => broadcast f xs ys
  | VArr xs, _ => y <- to_double w ;; Ok (VArr (map (fun x => f x y) xs))
  | _, VArr ys => x <- to_double v ;; Ok (VArr (map (f x) ys))
  | _, _ =>
      x <- to_double v ;;
      y <- to_double w ;;
      Ok (if is_np v || is_np w then VNp (f x y) else VFloat (f x y))
  end.

(** ** Arithmetic *)

Definition py_add (v w : value) : result value :=
  match v, w with
  | VInt a, VInt b => Ok (VInt (a + b))
  | _, _ => elementwise PrimFloat.add v w
  end.

Definition py_sub (v w : value) : result value :=
  match v, w with
  | VInt a, VInt b => Ok (VInt (a - b))
  | _, _ => elementwise PrimFloat.sub v w
  end.

Definition py_mul (v w : value) : result value :=
  match v, w with
  | VInt a, VInt b => Ok (VInt (a * b))
  | _, _ => elementwise PrimFloat.mul v w
  end.

(** [int / int]: the quotient rounded once to the nearest float. *)
Definition long_true_divide (a b : Z) : result float :=
  if (b =? 0)%Z then Raise ZeroDivisionError
  else
    let '(mz, ez, lz) :=
      SFdiv_core_binary prec emax (Z.abs a) 0 (Z.abs b) 0 in
    let sign := xorb (a <? 0)%Z (b <? 0)%Z in
    let q := SF2Prim (binary_round_aux prec emax sign mz ez lz) in
    if is_infinity q then Raise OverflowError else Ok q.

(** [/]: a Python float division raises on a zero divisor, numpy divides. *)
Definition py_truediv (v w : value) : result value :=
  match v, w with
  | VInt a, VInt b => q <- long_true_divide a b ;; Ok (VFloat q)
  | VArr _, _ => elementwise PrimFloat.div v w
  | _, VArr _ => elementwise PrimFloat.div v w
  | VNp _, _ => elementwise PrimFloat.div v w
  | _, VNp _ => elementwise PrimFloat.div v w
  | _, _ =>
      x <- to_double v ;;
      y <- to_double w ;;
      if (y =? 0)%float then Raise ZeroDivisionError
      else Ok (VFloat (x / y))
  end.

(** [float <= int]: decided on the exact values, through a double when the
    integer has at most 48 bits. *)
Definition float_le_Z (x : float) (k : Z) : bool :=
  if (Z.log2 (Z.abs k) <? 48)%Z then (x <=? float_of_Z k)%float
  else
    match Prim2SF x with
    | S754_nan => false
    | S754_infinity s => s
    | S754_zero _ => (0 <=? k)%Z
    | S754_finite s m e =>
        let n := if s then Z.neg m else Z.pos m in
        match e with
        | Z0 => (n <=? k)%Z
        | Zpos p => (n * 2 ^ Zpos p <=? k)%Z
        | Zneg p => (n <=? k * 2 ^ Zpos p)%Z
        end
    end.

(** [v <= k] for an integer literal [k]. *)
Definition py_le_int (v : value) (k : Z) : result cond :=
  match v with
  | VInt z => Ok (CBool (z <=? k)%Z)
  | VFloat x => Ok (CBool (float_le_Z x k))
  | VNp x => y <- to_double (VInt k) ;; Ok (CBool (x <=? y)%float)
  | VArr xs =>
      y <- to_double (VInt k) ;; Ok (CArr (map (fun x => (x <=? y)%float) xs))
  end.

(** ** numpy functions *)

Definition ufunc (f : float -> float) (v : value) : result value :=
  match v with
  | VArr xs => Ok (VArr (map f xs))
  | _ => x <- np_double v ;; Ok (VNp (f x))
  end.

Definition select (b : bool) (x y : float) : float := if b then x else y.

Fixpoint zip_with3 {A B C D : Type} (f : A -> B -> C -> D)
  (xs : list A) (ys : list B) (zs : list C) : list D :=
  match xs, ys, zs with
  | x :: xs', y :: ys', z :: zs' => f x y z :: zip_with3 f xs' ys' zs'
  | _, _, _ => []
  end.

Definition where3 (bs : list bool) (xs ys : list float) : result value :=
  match bshape (length bs) (length xs) with
  | Some n1 =>
      match bshape n1 (length ys) with
      | Some n =>
          Ok (VArr (zip_with3 select (stretch n bs) (stretch n xs)
                      (stretch n ys)))
      | None => Raise ValueError
      end
  | None => Raise ValueError
  end.

(** [np.where(c, x, y)]: chosen element by element; both [x] and [y] have
    been evaluated by the caller before the choice is made. *)
Definition where_values (c : cond) (x y : value) : result value :=
  match c, x, y with
  | CArr bs, VArr xs, VArr ys => where3 bs xs ys
  | CArr bs, VArr xs, _ => b <- np_double y ;; where3 bs xs [b]
  | CArr bs, _, VArr ys => a <- np_double x ;; where3 bs [a] ys
  | CArr bs, _, _ => a <- np_double x ;; b <- np_double y ;; where3 bs [a] [b]
  | CBool c, VArr xs, VArr ys => where3 [c] xs ys
  | CBool c, VArr xs, _ => b <- np_double y ;; where3 [c] xs [b]
  | CBool c, _, VArr ys => a <- np_double x ;; where3 [c] [a] ys
  | CBool c, _, _ =>
      a <- np_double x ;; b <- np_double y ;; Ok (VNp (select c a b))
  end.

(** ** The pandas table of Farr 1984 *)

(** A frame with an integer index and two float columns: its rows, each
    under its label. *)
Definition frame : Type := list (Z * (float * float)).

(** [pd.DataFrame(data = {...}).set_index('age')]: the columns must have one
    length.  A column of float and int literals is a [float64] column. *)
Definition DataFrame (age : list Z) (a2 b2 : list float) : result frame :=
  if Nat.eqb (length age) (length a2) && Nat.eqb (length a2) (length b2)
  then Ok (combine age (combine a2 b2))
  else Raise ValueError.

(** What [.values] gives: the two numbers of one row, or a matrix of rows. *)
Inductive ndarray : Type :=
| Arr1 (xs : list float)
| Arr2 (rows : list (list float)).

Definition row_values (r : Z * (float * float)) : list float :=
  [fst (snd r); snd (snd r)].

(** The rows of a frame under a label. *)
Definition entries (df : frame) (z : Z) : frame :=
  filter (fun r => (fst r =? z)%Z) df.

Definition rows_of (df : frame) (z : Z) : list (list float) :=
  map row_values (entries df z).

(** The label a scalar key selects in an integer index: an [int], or a float
    that is an integer. *)
Definition index_label (v : value) : option Z :=
  match v with
  | VInt z => Some z
  | VFloat x => Z_of_float x
  | VNp x => Z_of_float x
  | VArr _ => None
  end.

(** The rows one key of an array of keys selects. *)
Definition rows_of_key (df : frame) (k : float) : list (list float) :=
  match Z_of_float k with
  | Some z => rows_of df z
  | None => []
  end.

Definition absent (df : frame) (k : float) : bool :=
  match rows_of_key df k with
  | [] => true
  | _ => false
  end.

(** [df.loc[key].values]: a scalar key that is not in the index is a
    [KeyError] on the key, and one with a single row gives that row; an array
    of keys gives the matrix of their rows, or a [KeyError] on the keys that
    are not in the index. *)
Definition loc_values (df : frame) (key : value) : result ndarray :=
  match key with
  | VArr keys =>
      match filter (absent df) keys with
      | [] => Ok (Arr2 (flat_map (rows_of_key df) keys))
      | missing => Raise (KeyError (VArr missing))
      end
  | _ =>
      match index_label key with
      | None => Raise (KeyError key)
      | Some z =>
          match rows_of df z with
          | [] => Raise (KeyError key)
          | [r] => Ok (Arr1 r)
          | rs => Ok (Arr2 rs)
          end
      end
  end.

(** [a2, b2 = ...]: unpacking iterates over the first axis, which must have
    two items. *)
Definition unpack2 (a : ndarray) : result (value * value) :=
  match a with
  | Arr1 [x; y] => Ok (VNp x, VNp y)
  | Arr2 [r1; r2] => Ok (VArr r1, VArr r2)
  | _ => Raise ValueError
  end.

Definition AGE_LOOKUP : list Z :=
  [10; 11; 12; 13; 14; 15; 16; 17; 18; 19; 20; 21; 22; 23; 24; 25; 26; 27;
   28; 29; 30; 31; 32; 33; 34; 35; 36; 37; 38; 39; 40; 41; 42; 43; 44; 45;
   46; 47; 48; 49; 50; 51; 52; 53; 54; 55; 56; 57; 58; 59; 60; 61; 62; 63;
   64; 65; 66; 67; 68; 69; 70; 71; 72; 73; 74; 75; 76; 77; 78; 79; 80; 81;
   82; 83; 84; 85; 86; 87; 88; 89; 90; 91; 92; 93; 94; 95; 96; 97; 98; 99;
   100; 101; 102; 103; 104; 105; 106; 107; 108; 109; 110; 111; 112; 113;
   114; 115; 116; 117; 118; 119; 120; 121; 122; 123; 124; 125; 126; 127;
   128; 129; 130; 131; 132; 133; 134; 135; 136; 137; 138; 139; 140; 141;
   142; 143; 144; 145; 146; 147; 148; 149; 150]%Z.

Definition A2_LOOKUP : list float :=
  [43.22; 42.069; 40.753; 39.327; 37.827; 36.279; 34.705; 33.12; 31.536;
   29.963; 28.408; 26.879; 25.38; 23.914; 22.486; 21.098; 19.751; 18.448;
   17.189; 15.975; 14.806; 13.682; 12.603; 11.569; 10.58; 9.634; 8.731;
   7.87; 7.05; 6.271; 5.53; 4.826; 4.16; 3.529; 2.932; 2.368; 1.836; 1.334;
   0.862; 0.418; 0; (-0.391); (-0.758); (-1.102); (-1.423); (-1.723);
   (-2.003); (-2.264); (-2.507); (-2.732); (-2.942); (-3.136); (-3.316);
   (-3.482); (-3.635); (-3.777); (-3.908); (-4.028); (-4.138); (-4.239);
   (-4.332); (-4.418); (-4.496); (-4.567); (-4.633); (-4.692); (-4.747);
   (-4.798); (-4.844); (-4.886); (-4.925); (-4.961); (-4.995); (-5.026);
   (-5.056); (-5.083); (-5.11); (-5.135); (-5.159); (-5.182); (-5.205);
   (-5.228); (-5.25); (-5.273); (-5.295); (-5.318); (-5.341); (-5.364);
   (-5.388); (-5.412); (-5.437); (-5.463); (-5.489); (-5.515); (-5.543);
   (-5.57); (-5.598); (-5.627); (-5.656); (-5.685); (-5.714); (-5.743);
   (-5.772); (-5.801); (-5.83); (-5.858); (-5.885); (-5.912); (-5.937);
   (-5.961); (-5.984); (-6.005); (-6.024); (-6.041); (-6.055); (-6.067);
   (-6.075); (-6.081); (-6.082); (-6.08); (-6.073); (-6.062); (-6.046);
   (-6.024); (-5.997); (-5.964); (-5.925); (-5.878); (-5.825); (-5.764);
   (-5.694); (-5.617); (-5.53); (-5.435); (-5.329); (-5.213); (-5.087);
   (-4.95); (-4.801); (-4.64); (-4.467)]%float.

Definition B2_LOOKUP : list float :=
  [2.33; 2.143; 1.998; 1.884; 1.792; 1.716; 1.652; 1.598; 1.551; 1.51;
   1.474; 1.441; 1.412; 1.385; 1.36; 1.338; 1.316; 1.296; 1.278; 1.26;
   1.243; 1.227; 1.211; 1.197; 1.182; 1.169; 1.155; 1.142; 1.13; 1.117;
   1.105; 1.094; 1.082; 1.071; 1.06; 1.05; 1.039; 1.029; 1.019; 1.01; 1;
   0.991; 0.982; 0.973; 0.964; 0.955; 0.947; 0.939; 0.93; 0.923; 0.916;
   0.907; 0.9; 0.893; 0.885; 0.878; 0.872; 0.865; 0.858; 0.852; 0.846;
   0.84; 0.834; 0.828; 0.822; 0.817; 0.811; 0.806; 0.801; 0.796; 0.791;
   0.786; 0.781; 0.777; 0.772; 0.768; 0.764; 0.76; 0.756; 0.752; 0.748;
   0.744; 0.741; 0.737; 0.734; 0.73; 0.727; 0.724; 0.721; 0.718; 0.715;
   0.712; 0.709; 0.707; 0.704; 0.702; 0.699; 0.697; 0.694; 0.692; 0.69;
   0.688; 0.686; 0.684; 0.682; 0.68; 0.678; 0.676; 0.674; 0.672; 0.671;
   0.669; 0.667; 0.665; 0.664; 0.662; 0.661; 0.659; 0.657; 0.656; 0.654;
   0.653; 0.651; 0.65; 0.648; 0.647; 0.645; 0.643; 0.642; 0.64; 0.639;
   0.637; 0.635; 0.634; 0.632; 0.63; 0.628; 0.626; 0.624; 0.622; 0.62]%float.

(** ** Expressions

    Operands are evaluated from left to right, and the first exception ends
    the evaluation. *)

Definition lift2 (op : value -> value -> result value)
  (a b : result value) : result value :=
  x <- a ;; y <- b ;; op x y.

Definition ret_value (v : value) : result value := Ok v.

Coercion ret_value : value >-> result.
Coercion VFloat : float >-> value.
Coercion VInt : Z >-> value.

Declare Scope py_scope.
Delimit Scope py_scope with py.
Notation "a + b" := (lift2 py_add a b) : py_scope.
Notation "a - b" := (lift2 py_sub a b) : py_scope.
Notation "a * b" := (lift2 py_mul a b) : py_scope.
Notation "a / b" := (lift2 py_truediv a b) : py_scope.
Notation "a <= k" := (v <- a ;; py_le_int v k%Z) : py_scope.

Section Platform.

Variable M : libm.

(** [x ** n] on a Python float, for an integer literal [n > 0]: the
    interpreter settles the special cases itself, calls [pow] on a finite
    positive base other than one, and reports an infinite result. *)
Definition float_pow (x : float) (n : positive) : result float :=
  let odd := Z.odd (Zpos n) in
  if is_nan x then Ok x
  else if is_infinity x then Ok (if odd then x else abs x)
  else if (x =? 0)%float then Ok (if odd then x else 0%float)
  else
    let negate := (x <? 0)%float && odd in
    let ax := abs x in
    if (ax =? 1)%float then Ok (if negate then (-1)%float else 1%float)
    else
      let r := c_pow M ax (float_of_Z (Zpos n)) in
      if is_infinity r then Raise OverflowError
      else Ok (if negate then (- r)%float else r).

(** [x ** n] on an element of an array, for an integer literal [n > 0]:
    numpy takes the exponents 1 and 2 out of [power], the first as the
    number itself and the second as the product [x * x] ([numpy.square]),
    and runs its power loop for the others. *)
Definition array_pow (x : float) (n : positive) : float :=
  match n with
  | xH => x
  | xO xH => (x * x)%float
  | _ => v_pow M x (float_of_Z (Zpos n))
  end.

(** [v ** n] for an integer literal [n > 0]: exact on a Python [int], the
    interpreter's power on a Python [float], [pow] on a [numpy.float64]
    scalar, and numpy's power of an array element by element. *)
Definition py_pow (v : value) (n : positive) : result value :=
  match v with
  | VInt a => Ok (VInt (a ^ Zpos n))
  | VFloat x => y <- float_pow x n ;; Ok (VFloat y)
  | VNp x => Ok (VNp (c_pow M x (float_of_Z (Zpos n))))
  | VArr xs => Ok (VArr (map (fun x => array_pow x n) xs))
  end.

Notation "a ** n" := (v <- a ;; py_pow v n%positive)
  (at level 30, right associativity) : py_scope.

(** [a ** y] where [a] comes out of a numpy function and [y] is a float
    literal other than 0.5, 1 and 2: [pow] on a [numpy.float64] scalar, the
    power loop on an array. *)
Definition np_power (a : result value) (y : float) : result value :=
  v <- a ;;
  match v with
  | VArr _ => ufunc (fun x => v_pow M x y) v
  | _ => ufunc (fun x => c_pow M x y) v
  end.

Definition np_exp (a : result value) : result value :=
  v <- a ;; ufunc (c_exp M) v.

Definition np_log (a : result value) : result value :=
  v <- a ;; ufunc (c_log M) v.

Definition np_log10 (a : result value) : result value :=
  v <- a ;; ufunc (c_log10 M) v.

Definition np_where (c : result cond) (x y : result value) : result value :=
  cv <- c ;; xv <- x ;; yv <- y ;; where_values cv xv yv.

(** ** The equations *)

Local Open Scope float_scope.
Local Open Scope py_scope.

Definition king1966_df (height bh_age : value) : result value :=
  4.5 + 2500%Z / ((bh_age ** 2) / ((height - 4.5) + 0.954038 -
    0.0558178 * bh_age + 0.000733819 * bh_age ** 2) / (0.109757 +
    0.00792236 * bh_age + 0.000197693 * bh_age ** 2)).

Definition cochran1979_gf (height bh_age : value) : result value :=
  x1 <- 3.8886 - 1.8017 * np_log bh_age + 0.2105 * (np_log bh_age ** 2) -
        0.0000002885 * (np_log bh_age ** 9) + 0.000000000000000001187 *
        (np_log bh_age ** 24) ;;
  x2 <- (-0.30935) + 1.2383 * np_log bh_age +
        0.001762 * (np_log bh_age ** 4) -
        0.0000054 * (np_log bh_age ** 9) +
        0.0000002046 * (np_log bh_age ** 11) -
        0.000000000000404 * (np_log bh_age ** 18) ;;
  (height - 4.5) * np_exp x1 - np_exp x1 * np_exp x2 + 89.43.

Definition wiley1978_wh (height bh_age : value) : result value :=
  2500%Z * ((height - 4.5) * (0.1394 + 0.0137 * bh_age + 0.00007
    * bh_age ** 2) / (bh_age ** 2 - (height - 4.5) * ((-1.7307) -
    0.0616 * bh_age + 0.00192 * bh_age ** 2))).

Definition harrington1986_ra (height bh_age : value) : result value :=
  age <- bh_age + 1%Z ;;
  a <- 54.1850 - 4.61694 * age + 0.11065 * age ** 2 -
       0.0007633 * age ** 3 ;;
  b <- 1.25934 - 0.012989 * age + 3.5220 * (1%Z / age) ** 3 ;;
  a + b * height.

Definition farr1984_ss (height bh_age : value) : result value :=
  coefs <- DataFrame AGE_LOOKUP A2_LOOKUP B2_LOOKUP ;;
  ' (a2, b2) <- (arr <- loc_values coefs bh_age ;; unpack2 arr) ;;
  4.5 + a2 + b2 * (height - 4.5).

Definition curtis1974_df (height bh_age : value) : result value :=
  a <- np_where (bh_age <= 100)
         (0.010006 * (100%Z - bh_age) ** 2)
         (7.66772 * np_exp (0.95 * (100%Z / bh_age - 100%Z) ** 2)) ;;
  b <- np_where (bh_age <= 100)
         (1.0 + 0.00549779 * (100%Z - bh_age) + 1.46842E-14 *
          (100%Z - bh_age) ** 7)
         (1.0 - 0.730948 * np_power (np_log10 bh_age - 2.0) 0.80) ;;
  a + b * (height - 4.5) + 4.5.

End Platform.

(** * Definitions for the statements *)

(** ** A stand-in mathematical library

    Used to run the embedding on concrete inputs: [pow] is exact
    multiplication for a small positive integer exponent (and the identity
    elsewhere); the other three functions are first-order stand-ins. *)
Definition sample_pow (x y : float) : float :=
  match Z_of_float y with
  | Some (Zpos n) => Pos.iter (fun acc => (acc * x)%float) 1%float n
  | _ => x
  end.

Definition sample_libm : libm := {|
  c_pow := sample_pow;
  c_exp := fun x => (1 + x)%float;
  c_log := fun x => (x - 1)%float;
  c_log10 := fun x => ((x - 1) / 2.302585092994046)%float;
  v_pow := sample_pow
|}.

(** The frame [farr1984_ss] builds on every call. *)
Definition coefs : frame :=
  combine AGE_LOOKUP (combine A2_LOOKUP B2_LOOKUP).

Definition single_in (df : frame) (z : Z) : bool :=
  match entries df z with
  | [(z', _)] => (z' =? z)%Z
  | _ => false
  end.

(** [farr1984_ss] once its table is built. *)
Definition farr_body (df : frame) (height bh_age : value) : result value :=
  (' (a2, b2) <- (arr <- loc_values df bh_age ;; unpack2 arr) ;;
   4.5%float + a2 + b2 * (height - 4.5%float))%py.

Definition no_key_error {A : Type} (r : result A) : Prop :=
  forall k, r <> Raise (KeyError k).

Definition label_in_table (l : option Z) : Prop :=
  exists z, l = Some z /\ (10 <= z <= 150)%Z.

(** A scalar age that is an integer of 10..150. *)
Definition age_in_table (key : value) : Prop :=
  label_in_table (index_label key).

(** The heights on which [4.5 + (h - 4.5)] gives [h] back exactly. *)
Definition round_trip_exact (z : Z) : bool :=
  match to_double (VInt z) with
  | Ok x => PrimFloat.Leibniz.eqb (4.5 + (x - 4.5))%float x
  | Raise _ => false
  end.

(** A test on the [n] integers from [lo] on. *)
Definition all_from (f : Z -> bool) (lo : Z) (n : N) : bool :=
  N.peano_rect (fun _ => bool) true
    (fun k acc => f (lo + Z.of_N k)%Z && acc) n.

(** An integer age written as a float selects its own label; half a year
    more selects none. *)
Definition float_age_is_label (z : Z) : bool :=
  match index_label (VFloat (float_of_Z z)) with
  | Some z' => (z' =? z)%Z
  | None => false
  end.

Definition half_year_is_no_label (z : Z) : bool :=
  match index_label (VFloat (float_of_Z z + 0.5)) with
  | Some _ => false
  | None => true
  end.

(** The float a decimal literal with two decimals denotes, from the number
    of hundredths. *)
Definition hundredths (k : Z) : float := (float_of_Z k / 100)%float.

Definition round_trip_exact_hundredths (k : Z) : bool :=
  let h := hundredths k in PrimFloat.Leibniz.eqb (4.5 + (h - 4.5))%float h.

Definition sf_zero_or_nan (x : spec_float) : Prop :=
  match x with
  | S754_zero _ => True
  | S754_nan => True
  | _ => False
  end.

Definition sf_inf_or_nan (x : spec_float) : Prop :=
  match x with
  | S754_infinity _ => True
  | S754_nan => True
  | _ => False
  end.

(** A function that returns a value on [numpy.float64] scalars and on
    [float64] arrays of one length. *)
Definition returns_on_numpy (f : value -> value -> result value) : Prop :=
  (forall h a, exists v, f (VNp h) (VNp a) = Ok (VNp v)) /\
  (forall hs ages, length hs = length ages ->
     exists vs, f (VArr hs) (VArr ages) = Ok (VArr vs) /\
                length vs = length hs).

Definition scalar (v : value) : Prop :=
  match v with
  | VArr _ => False
  | _ => True
  end.

(** King 1966 with the other reading of [x / y / z]: the quotient of the
    second and third terms taken first. *)
Definition king1966_right_nested (sq h a : float) : float :=
  (4.5 + 2500 /
     (sq / (((h - 4.5) + 0.954038 - 0.0558178 * a + 0.000733819 * sq)
            / (0.109757 + 0.00792236 * a + 0.000197693 * sq))))%float.

(** ** The formulas of the specification

    Each formula is written from the text of the specification, over
    binary64 numbers.  A power that the caller's number type computes in its
    own way (exactly on a Python [int], through [pow] on a float) is an
    argument of the formula. *)

Section Formulas.

Variable M : libm.

Local Open Scope float_scope.

(** King 1966, with [sq] for the square of the age. *)
Definition king1966_expr (sq h a : float) : float :=
  4.5 + 2500 / ((sq / ((h - 4.5) + 0.954038 - 0.0558178 * a +
                        0.000733819 * sq))
                / (0.109757 + 0.00792236 * a + 0.000197693 * sq)).

Definition king1966_formula (h a : float) : float :=
  king1966_expr (c_pow M a 2) h a.

(** On an array of ages the square is the product numpy computes. *)
Definition king1966_array_formula (h a : float) : float :=
  king1966_expr (a * a) h a.

(** Cochran 1979: the two polynomials in [ln(bh_age)]. *)
Definition cochran_x1 (l : float) : float :=
  3.8886 - 1.8017 * l + 0.2105 * c_pow M l 2 -
  0.0000002885 * c_pow M l 9 + 1.187e-18 * c_pow M l 24.

Definition cochran_x2 (l : float) : float :=
  (-0.30935) + 1.2383 * l + 0.001762 * c_pow M l 4 -
  0.0000054 * c_pow M l 9 + 0.0000002046 * c_pow M l 11 -
  4.04e-13 * c_pow M l 18.

Definition cochran1979_formula (h a : float) : float :=
  let x1 := cochran_x1 (c_log M a) in
  let x2 := cochran_x2 (c_log M a) in
  (h - 4.5) * c_exp M x1 - c_exp M x1 * c_exp M x2 + 89.43.

(** On an array of ages the square of the logarithm is a product; the
    other powers come out of numpy's power loop. *)
Definition cochran_x1_array (l : float) : float :=
  3.8886 - 1.8017 * l + 0.2105 * (l * l) -
  0.0000002885 * v_pow M l 9 + 1.187e-18 * v_pow M l 24.

Definition cochran_x2_array (l : float) : float :=
  (-0.30935) + 1.2383 * l + 0.001762 * v_pow M l 4 -
  0.0000054 * v_pow M l 9 + 0.0000002046 * v_pow M l 11 -
  4.04e-13 * v_pow M l 18.

Definition cochran1979_array_formula (h a : float) : float :=
  let x1 := cochran_x1_array (c_log M a) in
  let x2 := cochran_x2_array (c_log M a) in
  (h - 4.5) * c_exp M x1 - c_exp M x1 * c_exp M x2 + 89.43.

(** Wiley 1978, with [sq] for the square of the age. *)
Definition wiley1978_expr (sq h a : float) : float :=
  2500 * (((h - 4.5) * (0.1394 + 0.0137 * a + 0.00007 * sq)) /
          (sq - (h - 4.5) * ((-1.7307) - 0.0616 * a + 0.00192 * sq))).

Definition wiley1978_formula (h a : float) : float :=
  wiley1978_expr (c_pow M a 2) h a.

Definition wiley1978_array_formula (h a : float) : float :=
  wiley1978_expr (a * a) h a.

(** Harrington and Curtis 1986: the cubic [a], with [sq] and [cu] for the
    square and the cube of the age, and [b], with [icu] for the cube of
    the inverse of the age. *)
Definition harrington_a (age sq cu : float) : float :=
  54.1850 - 4.61694 * age + 0.11065 * sq - 0.0007633 * cu.

Definition harrington_b (age icu : float) : float :=
  1.25934 - 0.012989 * age + 3.5220 * icu.

Definition harrington1986_formula (h bh_age : float) : float :=
  let age := bh_age + 1 in
  harrington_a age (c_pow M age 2) (c_pow M age 3) +
  harrington_b age (c_pow M (1 / age) 3) * h.

(** On an array of ages the square is a product, the two cubes come out
    of numpy's power loop. *)
Definition harrington1986_array_formula (h bh_age : float) : float :=
  let age := bh_age + 1 in
  harrington_a age (age * age) (v_pow M age 3) +
  harrington_b age (v_pow M (1 / age) 3) * h.

(** Curtis, Herman and DeMars 1974: the two branches. *)
Definition curtis_a_young (a : float) : float :=
  0.010006 * c_pow M (100 - a) 2.

Definition curtis_b_young (a : float) : float :=
  1 + 0.00549779 * (100 - a) + 1.46842e-14 * c_pow M (100 - a) 7.

Definition curtis_a_old (a : float) : float :=
  7.66772 * c_exp M (0.95 * c_pow M (100 / a - 100) 2).

Definition curtis_b_old (a : float) : float :=
  1 - 0.730948 * c_pow M (c_log10 M a - 2) 0.80.

Definition curtis1974_formula (h a : float) : float :=
  if a <=? 100
  then curtis_a_young a + curtis_b_young a * (h - 4.5) + 4.5
  else curtis_a_old a + curtis_b_old a * (h - 4.5) + 4.5.

(** On an array of ages the two squares are products; the seventh power
    and the power 0.80 come out of numpy's power loop. *)
Definition curtis_a_young_array (a : float) : float :=
  0.010006 * ((100 - a) * (100 - a)).

Definition curtis_b_young_array (a : float) : float :=
  1 + 0.00549779 * (100 - a) + 1.46842e-14 * v_pow M (100 - a) 7.

Definition curtis_a_old_array (a : float) : float :=
  7.66772 * c_exp M (0.95 * ((100 / a - 100) * (100 / a - 100))).

Definition curtis_b_old_array (a : float) : float :=
  1 - 0.730948 * v_pow M (c_log10 M a - 2) 0.80.

Definition curtis1974_array_formula (h a : float) : float :=
  if a <=? 100
  then curtis_a_young_array a + curtis_b_young_array a * (h - 4.5) + 4.5
  else curtis_a_old_array a + curtis_b_old_array a * (h - 4.5) + 4.5.

End Formulas.

(** ** Curtis 1974 on a Python age

    With a Python number as age the comparison [bh_age <= 100] is one truth
    value and [np.where] picks one of its two arguments, both of which have
    been evaluated: each call of [pow], each division and each conversion,
    in the order of the source, can raise before the choice is made. *)

Section PythonAges.

Variable M : libm.

Local Open Scope float_scope.

(** The branch up to age 100, with [sq] and [p7] for the square and the
    seventh power of [100 - bh_age] and [d] for that difference. *)
Definition curtis_python_young (sq p7 d h : float) : float :=
  0.010006 * sq + (1 + 0.00549779 * d + 1.46842e-14 * p7) * (h - 4.5) + 4.5.

(** The branch above age 100, with [sq] for the square of
    [100 / bh_age - 100] and [l] for the age [log10] is called with. *)
Definition curtis_python_old (sq l h : float) : float :=
  7.66772 * c_exp M (0.95 * sq) +
  (1 - 0.730948 * c_pow M (c_log10 M l - 2) 0.80) * (h - 4.5) + 4.5.

(** A Python [float] age. *)
Definition curtis1974_python (h a : float) : result value :=
  sq <- float_pow M (100 - a) 2 ;;
  if a =? 0 then Raise ZeroDivisionError
  else
    sq' <- float_pow M (100 / a - 100) 2 ;;
    p7 <- float_pow M (100 - a) 7 ;;
    Ok (VNp (if a <=? 100 then curtis_python_young sq p7 (100 - a) h
             else curtis_python_old sq' a h)).

(** A Python [int] age: the powers of [100 - bh_age] are exact integers,
    converted to floats by the multiplications. *)
Definition curtis1974_python_int (h : float) (z : Z) : result value :=
  sq <- to_double (VInt ((100 - z) ^ 2)) ;;
  q <- long_true_divide 100 z ;;
  sq' <- float_pow M (q - 100) 2 ;;
  d <- to_double (VInt (100 - z)) ;;
  p7 <- to_double (VInt ((100 - z) ^ 7)) ;;
  l <- np_double (VInt z) ;;
  Ok (VNp (if (z <=? 100)%Z then curtis_python_young sq p7 d h
           else curtis_python_old sq' l h)).

End PythonAges.

(** ** What an expression denotes on arrays *)

Section Denotation.

(** The pairs of the two input arrays, and what an expression denotes on
    them: an array with one element per pair. *)
Variable ps : list (float * float).

Definition denotes (r : result value) (g : float * float -> float) : Prop :=
  r = Ok (VArr (map g ps)).

Definition cdenotes (r : result cond) (b : float * float -> bool) : Prop :=
  r = Ok (CArr (map b ps)).

(** An operation that is a float operation as soon as an operand is an
    array. *)
Definition float_op (op : value -> value -> result value)
  (f : float -> float -> float) : Prop :=
  (forall xs w, op (VArr xs) w = elementwise f (VArr xs) w) /\
  (forall v ys, op v (VArr ys) = elementwise f v (VArr ys)).

End Denotation.

(** ** Shapes of operands

    What numpy's broadcasting distinguishes: an array with one element per
    input pair, an array of one element, a [numpy.float64] scalar and a
    Python [float]. *)
Inductive shape : Type :=
| Full
| One
| Np
| Py.

(** The shape of the result of an operation on two operands. *)
Definition join (s t : shape) : shape :=
  match s, t with
  | Full, _ => Full
  | _, Full => Full
  | One, _ => One
  | _, One => One
  | Np, _ => Np
  | _, Np => Np
  | Py, Py => Py
  end.

Definition is_py (v : value) : bool :=
  match v with
  | VInt _ => true
  | VFloat _ => true
  | _ => false
  end.

(** An operation that is the float operation [f], broadcast, as soon as an
    operand is a numpy value. *)
Definition numpy_op (op : value -> value -> result value)
  (f : float -> float -> float) : Prop :=
  forall v w, is_py v && is_py w = false -> op v w = elementwise f v w.

(** An operation that is the float operation [f] on two Python floats. *)
Definition python_op (op : value -> value -> result value)
  (f : float -> float -> float) : Prop :=
  forall a b, op (VFloat a) (VFloat b) = Ok (VFloat (f a b)).

Section Shapes.

(** The pairs (height, age) the call stands for. *)
Variable ps : list (float * float).

Definition const_on {A : Type} (g : float * float -> A) (c : A) : Prop :=
  forall p, In p ps -> g p = c.

(** A value of shape [s] that holds [g p] for every pair [p]. *)
Definition shaped (s : shape) (v : value) (g : float * float -> float)
  : Prop :=
  match s with
  | Full => v = VArr (map g ps)
  | One => exists c, v = VArr [c] /\ const_on g c
  | Np => exists c, v = VNp c /\ const_on g c
  | Py => exists c, v = VFloat c /\ const_on g c
  end.

Definition cshaped (s : shape) (c : cond) (b : float * float -> bool)
  : Prop :=
  match s with
  | Full => c = CArr (map b ps)
  | One => exists b0, c = CArr [b0] /\ const_on b b0
  | _ => exists b0, c = CBool b0 /\ const_on b b0
  end.

Definition yields (s : shape) (r : result value)
  (g : float * float -> float) : Prop :=
  exists v, r = Ok v /\ shaped s v g.

Definition cyields (s : shape) (r : result cond)
  (b : float * float -> bool) : Prop :=
  exists c, r = Ok c /\ cshaped s c b.

End Shapes.

(** The shapes of an array: numpy takes the square of an array as a
    product, and the square of a scalar with [pow]. *)
Definition is_array (s : shape) : bool :=
  match s with
  | Full => true
  | One => true
  | _ => false
  end.

(** [x ** n] on an element of an operand of shape [s]. *)
Definition shape_pow (M : libm) (s : shape) (x : float) (n : positive)
  : float :=
  if is_array s then array_pow M x n else c_pow M x (float_of_Z (Zpos n)).

(** A function of a height and an age that broadcasts its two arguments and
    computes on every pair [F] when the age is a numpy scalar and [G] when
    it is an array. *)
Definition broadcasts (f : value -> value -> result value)
  (F G : float -> float -> float) : Prop :=
  forall ps sh sa height age,
    shaped ps sh height fst -> shaped ps sa age snd -> sa <> Py ->
    yields ps (join sh sa) (f height age)
           (fun p => if is_array sa then G (fst p) (snd p)
                     else F (fst p) (snd p)).

(** What a caller sees of a function that broadcasts: [F] on one numpy
    age, [G] on an array of ages. *)
Definition broadcast_cases (f : value -> value -> result value)
  (F G : float -> float -> float) : Prop :=
  (forall hs a,
     f (VArr hs) (VNp a) = Ok (VArr (map (fun h => F h a) hs))) /\
  (forall h ages,
     f (VNp h) (VArr ages) = Ok (VArr (map (G h) ages))) /\
  (forall h ages,
     f (VFloat h) (VArr ages) = Ok (VArr (map (G h) ages))) /\
  (forall h ages,
     f (VArr [h]) (VArr ages) = Ok (VArr (map (G h) ages))) /\
  (forall hs a,
     f (VArr hs) (VArr [a]) = Ok (VArr (map (fun h => G h a) hs))) /\
  (forall h a, f (VFloat h) (VNp a) = Ok (VNp (F h a))).

(** ** Lengths of arrays *)

(** A result that is an array of [n] elements. *)
Definition arr_len (n : nat) (r : result value) : Prop :=
  exists xs, r = Ok (VArr xs) /\ length xs = n.

(** A function that refuses two arrays numpy cannot broadcast. *)
Definition refuses_shapes (f : value -> value -> result value) : Prop :=
  forall hs ages, bshape (length hs) (length ages) = None ->
    f (VArr hs) (VArr ages) = Raise ValueError.

(** ** NaN among the inputs *)

(** A function that gives a NaN wherever the height is a NaN: on numpy
    scalars, and element by element on arrays. *)
Definition nan_height_to_nan (f : value -> value -> result value) : Prop :=
  (forall a, f (VNp nan) (VNp a) = Ok (VNp nan)) /\
  (forall hs ages i,
     length hs = length ages -> nth_error hs i = Some nan ->
     exists vs, f (VArr hs) (VArr ages) = Ok (VArr vs) /\
                length vs = length hs /\ nth_error vs i = Some nan).

(** The same for a NaN age. *)
Definition nan_age_to_nan (f : value -> value -> result value) : Prop :=
  (forall h, f (VNp h) (VNp nan) = Ok (VNp nan)) /\
  (forall hs ages i,
     length hs = length ages -> nth_error ages i = Some nan ->
     exists vs, f (VArr hs) (VArr ages) = Ok (VArr vs) /\
                length vs = length hs /\ nth_error vs i = Some nan).

(** A mathematical library that gives a NaN on a NaN, as C99 asks ([pow]
    with an exponent other than zero). *)
Definition quiet_nan (M : libm) : Prop :=
  (forall y, (y =? 0)%float = false -> c_pow M nan y = nan) /\
  c_exp M nan = nan /\ c_log M nan = nan /\ c_log10 M nan = nan.

(** ** The functions on two Python floats

    Each one as a sequence of the calls of [pow] and of the tests of the
    divisions, in the order of the source. *)

Section PythonFloats.

Variable M : libm.

Local Open Scope float_scope.

(** What [king1966_df] does on two Python floats: the square first, then
    the three divisions from left to right, each of which raises on a zero
    divisor. *)
Definition king1966_python (h a : float) : result value :=
  sq <- float_pow M a 2 ;;
  let d1 := h - 4.5 + 0.954038 - 0.0558178 * a + 0.000733819 * sq in
  let d2 := 0.109757 + 0.00792236 * a + 0.000197693 * sq in
  if d1 =? 0 then Raise ZeroDivisionError
  else if d2 =? 0 then Raise ZeroDivisionError
  else if sq / d1 / d2 =? 0 then Raise ZeroDivisionError
  else Ok (VFloat (king1966_expr sq h a)).

(** [wiley1978_wh]: the square, then one division. *)
Definition wiley1978_python (h a : float) : result value :=
  sq <- float_pow M a 2 ;;
  let den := sq - (h - 4.5) * ((-1.7307) - 0.0616 * a + 0.00192 * sq) in
  if den =? 0 then Raise ZeroDivisionError
  else Ok (VFloat (wiley1978_expr sq h a)).

(** [harrington1986_ra]: the square and the cube of the total age, the
    division by it, then the cube of its inverse. *)
Definition harrington1986_python (h a : float) : result value :=
  let age := a + 1 in
  sq <- float_pow M age 2 ;;
  cu <- float_pow M age 3 ;;
  if age =? 0 then Raise ZeroDivisionError
  else
    icu <- float_pow M (1 / age) 3 ;;
    Ok (VFloat (harrington_a age sq cu + harrington_b age icu * h)).

End PythonFloats.

(** ** Tests on the specification of floats *)

Definition sf_is_zero (x : spec_float) : bool :=
  match x with
  | S754_zero _ => true
  | _ => false
  end.

Definition sf_is_nan (x : spec_float) : bool :=
  match x with
  | S754_nan => true
  | _ => false
  end.

Definition sf_is_finite (x : spec_float) : bool :=
  match x with
  | S754_zero _ => true
  | S754_finite _ _ _ => true
  | _ => false
  end.

(** ** Curtis 1974 above age 100 *)

(** An [exp] that overflows where the exponential of binary64 does. *)
Definition exp_overflows (M : libm) : Prop :=
  forall y, (710 <=? y)%float = true -> c_exp M y = infinity.

(** The exponent of the branch of Curtis 1974 for ages above 100, with the
    square taken by a multiplication. *)
Definition curtis_old_exponent (a : float) : float :=
  (0.95 * ((100 / a - 100) * (100 / a - 100)))%float.

(** An integer age above 100 whose exponent is at least 710. *)
Definition old_age_overflows (z : Z) : bool :=
  let a := float_of_Z z in
  negb (a <=? 100)%float && (710 <=? curtis_old_exponent a)%float.

(** ** The lists of Farr 1984 *)

(** The position of an age in the three lists of Farr 1984. *)
Definition farr_position (z : Z) : nat := Z.to_nat (z - 10).

(** The single row of an age holds the numbers at its position. *)
Definition aligned (df : frame) (a2s b2s : list float) (z : Z) : bool :=
  match entries df z with
  | [(z', (a2, b2))] =>
      (z' =? z)%Z &&
      PrimFloat.Leibniz.eqb a2 (nth (farr_position z) a2s nan) &&
      PrimFloat.Leibniz.eqb b2 (nth (farr_position z) b2s nan)
  | _ => false
  end.

(** ** Calls on arrays, and on Python floats *)

(** A function on two arrays: an array of the broadcast length, or
    [ValueError] when numpy cannot broadcast the two lengths. *)
Definition array_shapes (f : value -> value -> result value) : Prop :=
  forall hs ages,
    match bshape (length hs) (length ages) with
    | Some n => exists vs, f (VArr hs) (VArr ages) = Ok (VArr vs) /\
                           length vs = n
    | None => f (VArr hs) (VArr ages) = Raise ValueError
    end.

(** The results on two chunks, put end to end, are the result on the
    whole. *)
Definition chunkwise (f : value -> value -> result value) : Prop :=
  forall hs1 hs2 ages1 ages2 vs1 vs2,
    length hs1 = length ages1 -> length hs2 = length ages2 ->
    f (VArr hs1) (VArr ages1) = Ok (VArr vs1) ->
    f (VArr hs2) (VArr ages2) = Ok (VArr vs2) ->
    f (VArr (hs1 ++ hs2)) (VArr (ages1 ++ ages2)) = Ok (VArr (vs1 ++ vs2)).

(** A Python-float call that agrees with the numpy call when it returns,
    for a positive finite age other than one. *)
Definition agrees_with_numpy (f : value -> value -> result value) : Prop :=
  forall h a x,
    (0 <? a)%float = true -> is_infinity a = false ->
    (a =? 1)%float = false ->
    f (VFloat h) (VFloat a) = Ok (VFloat x) ->
    f (VNp h) (VNp a) = Ok (VNp x).

(** A [pow] that squares by one multiplication. *)
Definition pow_squares (M : libm) : Prop :=
  forall x, c_pow M x 2 = (x * x)%float.

(** A stand-in library whose [exp] overflows above 710. *)
Definition saturating_libm : libm := {|
  c_pow := sample_pow;
  c_exp := fun x => if (710 <=? x)%float then infinity else (1 + x)%float;
  c_log := fun x => (x - 1)%float;
  c_log10 := fun x => ((x - 1) / 2.302585092994046)%float;
  v_pow := sample_pow
|}.

(** A [pow] whose seventh power of a number up to 1900 is finite. *)
Definition seventh_power_finite (M : libm) : Prop :=
  forall x, (x <=? 1900)%float = true -> is_infinity (c_pow M x 7) = false.

(** A number the interpreter squares with one call of [pow], whose result
    does not overflow when [pow] multiplies. *)
Definition squares_finitely (x : float) : bool :=
  negb (is_nan x) && negb (is_infinity x) && negb (x =? 0)%float &&
  negb (abs x =? 1)%float && negb (is_infinity (abs x * abs x)).

(** A number whose square and seventh power the interpreter returns: one
    it does not call [pow] for, or one of at most 1900 whose product with
    itself is finite. *)
Definition power_returns (x : float) : bool :=
  is_nan x || is_infinity x || (x =? 0)%float || (abs x =? 1)%float ||
  ((abs x <=? 1900)%float && negb (is_infinity (abs x * abs x))).

(** A Python [int] age above 100: the conversions and the division of
    [curtis1974_df] succeed, and the exponent of its exponential is at
    least 710. *)
Definition int_age_overflows (z : Z) : bool :=
  match to_double (VInt ((100 - z) ^ 2)), long_true_divide 100 z,
        to_double (VInt (100 - z)), to_double (VInt ((100 - z) ^ 7)),
        np_double (VInt z) with
  | Ok _, Ok q, Ok _, Ok _, Ok _ =>
      negb (z <=? 100)%Z && squares_finitely (q - 100) &&
      (710 <=? 0.95 * (abs (q - 100) * abs (q - 100)))%float
  | _, _, _, _, _ => false
  end.

(** The same for the age as a Python [float]. *)
Definition float_age_overflows (z : Z) : bool :=
  let a := float_of_Z z in
  negb (a <=? 100)%float && negb (a =? 0)%float &&
  power_returns (100 - a) && squares_finitely (100 / a - 100) &&
  (710 <=? 0.95 * (abs (100 / a - 100) * abs (100 / a - 100)))%float.

(** The age at the position of an age is that age. *)
Definition age_at_position (z : Z) : bool :=
  (nth (farr_position z) AGE_LOOKUP 0 =? z)%Z.

(** ** Python integers as heights *)

(** A function that takes a Python [int] height as the float it converts
    to. *)
Definition int_height_as_float (f : value -> value -> result value) : Prop :=
  forall z age, is_infinity (float_of_Z z) = false ->
    f (VInt z) age = f (VFloat (float_of_Z z)) age.

Definition not_int (v : value) : Prop :=
  match v with
  | VInt _ => False
  | _ => True
  end.

(** ** The reference age *)

(** A result that is a Python float between two bounds. *)
Definition float_between (lo hi : float) (r : result value) : bool :=
  match r with
  | Ok (VFloat x) => (lo <=? x)%float && (x <=? hi)%float
  | _ => false
  end.

(** At age 50 King 1966 is within 0.05 of the height. *)
Definition king1966_near_height (z : Z) : bool :=
  float_between (float_of_Z z - 0.05) (float_of_Z z + 0.05)
    (king1966_df sample_libm (VInt z) (VInt 50)).

(** At age 50 Wiley 1978 is between 5.1 and 4.5 below the height. *)
Definition wiley1978_below_height (z : Z) : bool :=
  float_between (float_of_Z z - 5.1) (float_of_Z z - 4.5)
    (wiley1978_wh sample_libm (VInt z) (VInt 50)).

(** The heights Curtis 1974 gives back exactly at age 100. *)
Definition curtis1974_exact (z : Z) : bool :=
  let h := float_of_Z z in
  PrimFloat.Leibniz.eqb (0 + 1 * (h - 4.5) + 4.5)%float h.

(** An integer height that converts to a finite float. *)
Definition finite_height (z : Z) : bool :=
  negb (is_infinity (float_of_Z z)).

(** * Bounded checks *)

Lemma all_from_spec (f : Z -> bool) (lo : Z) (n : N) :
  all_from f lo n = true ->
  forall z, (lo <= z < lo + Z.of_N n)%Z -> f z = true.
Proof.
  unfold all_from. induction n as [| n IH] using N.peano_ind.
  - intros _ z Hz. lia.
  - rewrite N.peano_rect_succ. intros H z Hz.
    apply andb_true_iff in H. destruct H as [Hn Hrest].
    destruct (Z.eq_dec z (lo + Z.of_N n)) as [-> | Hne]; [exact Hn |].
    apply IH; [exact Hrest | lia].
Qed.

(** * Properties of the Farr 1984 table *)

Lemma DataFrame_coefs : DataFrame AGE_LOOKUP A2_LOOKUP B2_LOOKUP = Ok coefs.
Proof. vm_compute. reflexivity. Qed.

Lemma coefs_index : map fst coefs = map Z.of_nat (seq 10 141).
Proof. vm_compute. reflexivity. Qed.

Lemma coefs_index_range (z : Z) :
  In z (map fst coefs) <-> (10 <= z <= 150)%Z.
Proof.
  rewrite coefs_index, in_map_iff. split.
  - intros [n [<- Hn]]. apply in_seq in Hn. lia.
  - intros Hz. exists (Z.to_nat z). split; [lia | apply in_seq; lia].
Qed.

Lemma entries_absent (df : frame) (z : Z) :
  ~ In z (map fst df) -> entries df z = [].
Proof.
  unfold entries.
  induction df as [| r df IH]; simpl; intros Hz; [reflexivity |].
  destruct (Z.eqb_spec (fst r) z) as [E | _].
  - exfalso. apply Hz. left. exact E.
  - apply IH. intros Hin. apply Hz. right. exact Hin.
Qed.

Lemma single_in_spec (df : frame) (z : Z) :
  forallb (single_in df) (map fst df) = true -> In z (map fst df) ->
  exists a2 b2, entries df z = [(z, (a2, b2))].
Proof.
  intros Hall Hz.
  pose proof (proj1 (forallb_forall _ _) Hall z Hz) as H.
  unfold single_in in H.
  destruct (entries df z) as [| [z' [a2 b2]] [| r rest]]; try discriminate.
  apply Z.eqb_eq in H. subst z'. exists a2, b2. reflexivity.
Qed.

Lemma coefs_single : forallb (single_in coefs) (map fst coefs) = true.
Proof. vm_compute. reflexivity. Qed.

Lemma entries_in_range (z : Z) :
  (10 <= z <= 150)%Z -> exists a2 b2, entries coefs z = [(z, (a2, b2))].
Proof.
  intros Hz. apply (single_in_spec coefs z coefs_single).
  apply coefs_index_range. exact Hz.
Qed.

Lemma entries_out_of_range (z : Z) :
  ~ (10 <= z <= 150)%Z -> entries coefs z = [].
Proof.
  intros Hz. apply entries_absent. rewrite coefs_index_range. exact Hz.
Qed.

Lemma entries_cases (z : Z) :
  (exists a2 b2, (10 <= z <= 150)%Z /\ entries coefs z = [(z, (a2, b2))]) \/
  (~ (10 <= z <= 150)%Z /\ entries coefs z = []).
Proof.
  destruct (Z_le_dec 10 z) as [H1 | H1];
    [destruct (Z_le_dec z 150) as [H2 | H2] |].
  - left. destruct (entries_in_range z (conj H1 H2)) as [a2 [b2 E]].
    exists a2, b2. auto.
  - right. split; [lia | apply entries_out_of_range; lia].
  - right. split; [lia | apply entries_out_of_range; lia].
Qed.

(** The lookup of a scalar age, as [farr1984_ss] performs it. *)
Lemma loc_hit (df : frame) (key : value) (z : Z) (a2 b2 : float) :
  index_label key = Some z ->
  entries df z = [(z, (a2, b2))] ->
  (arr <- loc_values df key ;; unpack2 arr) = Ok (VNp a2, VNp b2).
Proof.
  intros Hk He.
  assert (Hr : rows_of df z = [[a2; b2]])
    by (unfold rows_of; rewrite He; reflexivity).
  destruct key as [z0 | x | x | xs]; try discriminate;
    unfold loc_values; rewrite Hk, Hr; reflexivity.
Qed.

Lemma loc_miss (df : frame) (key : value) :
  (forall z, index_label key = Some z -> entries df z = []) ->
  (forall xs, key <> VArr xs) ->
  loc_values df key = Raise (KeyError key).
Proof.
  intros Hk Hs.
  destruct key as [z0 | x | x | xs];
    [| | | exfalso; apply (Hs xs); reflexivity];
    unfold loc_values;
    destruct (index_label _) as [z |] eqn:El; try reflexivity;
    unfold rows_of; rewrite (Hk z eq_refl); reflexivity.
Qed.

(** ** Scalar arithmetic *)

Lemma elementwise_scalar (f : float -> float -> float) (v w : value)
  (x y : float) :
  to_double v = Ok x -> to_double w = Ok y ->
  elementwise f v w =
  Ok (if is_np v || is_np w then VNp (f x y) else VFloat (f x y)).
Proof.
  intros Hv Hw.
  destruct v as [a | a | a | a]; try discriminate;
    destruct w as [b | b | b | b]; try discriminate;
    unfold elementwise; rewrite Hv; cbn [bind]; rewrite Hw; reflexivity.
Qed.

Lemma py_sub_float (v : value) (x c : float) :
  to_double v = Ok x ->
  py_sub v (VFloat c) =
  Ok (if is_np v then VNp (x - c)%float else VFloat (x - c)%float).
Proof.
  intros Hv. rewrite <- (orb_false_r (is_np v)).
  destruct v; try discriminate;
    apply (elementwise_scalar PrimFloat.sub _ (VFloat c) x c Hv eq_refl).
Qed.

Lemma lift2_sub_float (v : value) (x c : float) :
  to_double v = Ok x ->
  lift2 py_sub (ret_value v) (ret_value (VFloat c)) =
  Ok (if is_np v then VNp (x - c)%float else VFloat (x - c)%float).
Proof.
  intros Hv. unfold lift2, ret_value. cbn [bind]. apply py_sub_float, Hv.
Qed.

Lemma py_mul_np_l (b : float) (w : value) (y : float) :
  to_double w = Ok y -> py_mul (VNp b) w = Ok (VNp (b * y)%float).
Proof.
  intros Hw.
  destruct w; try discriminate;
    apply (elementwise_scalar PrimFloat.mul (VNp b) _ b y eq_refl Hw).
Qed.

Lemma to_double_float_or_np (b : bool) (x : float) :
  to_double (if b then VNp x else VFloat x) = Ok x.
Proof. destruct b; reflexivity. Qed.

Lemma farr_unfold (h key : value) :
  farr1984_ss h key = farr_body coefs h key.
Proof. unfold farr1984_ss. rewrite DataFrame_coefs. reflexivity. Qed.

Lemma farr_body_scalar (df : frame) (h key : value) (z : Z)
  (a2 b2 x : float) :
  index_label key = Some z ->
  entries df z = [(z, (a2, b2))] ->
  to_double h = Ok x ->
  farr_body df h key = Ok (VNp (4.5 + a2 + b2 * (x - 4.5))%float).
Proof.
  intros Hk He Hh. unfold farr_body.
  rewrite (loc_hit df key z a2 b2 Hk He). cbn [bind].
  unfold lift2, ret_value. cbn [bind].
  rewrite (py_sub_float h x 4.5 Hh). cbn [bind].
  rewrite (py_mul_np_l b2 _ (x - 4.5)%float (to_double_float_or_np _ _)).
  reflexivity.
Qed.

Lemma farr_body_heights (df : frame) (hs : list float) (key : value) (z : Z)
  (a2 b2 : float) :
  index_label key = Some z ->
  entries df z = [(z, (a2, b2))] ->
  farr_body df (VArr hs) key =
  Ok (VArr (map (fun x => 4.5 + a2 + b2 * (x - 4.5))%float hs)).
Proof.
  intros Hk He. unfold farr_body.
  rewrite (loc_hit df key z a2 b2 Hk He). cbn [bind].
  unfold lift2, ret_value.
  cbn [bind py_sub py_mul py_add elementwise to_double is_np orb].
  rewrite !map_map. reflexivity.
Qed.

(** The value of [farr1984_ss] on a scalar age of the table. *)
Lemma farr_scalar (h key : value) (z : Z) (a2 b2 x : float) :
  index_label key = Some z ->
  entries coefs z = [(z, (a2, b2))] ->
  to_double h = Ok x ->
  farr1984_ss h key = Ok (VNp (4.5 + a2 + b2 * (x - 4.5))%float).
Proof.
  intros Hk He Hh. rewrite farr_unfold.
  exact (farr_body_scalar coefs h key z a2 b2 x Hk He Hh).
Qed.

Lemma farr_body_key_error (df : frame) (h key : value) :
  (forall z, index_label key = Some z -> entries df z = []) ->
  (forall xs, key <> VArr xs) ->
  farr_body df h key = Raise (KeyError key).
Proof.
  intros Hk Hs. unfold farr_body.
  rewrite (loc_miss df key Hk Hs). reflexivity.
Qed.

(** A scalar age that is not in the table: the lookup raises. *)
Lemma farr_key_error (h key : value) :
  (forall z, index_label key = Some z -> entries coefs z = []) ->
  (forall xs, key <> VArr xs) ->
  farr1984_ss h key = Raise (KeyError key).
Proof.
  intros Hk Hs. rewrite farr_unfold.
  exact (farr_body_key_error coefs h key Hk Hs).
Qed.

(** ** Which exceptions arithmetic can raise *)

Lemma no_key_error_ok {A : Type} (a : A) : no_key_error (Ok a).
Proof. intros k; discriminate. Qed.

Lemma no_key_error_bind {A B : Type} (c : result A) (f : A -> result B) :
  no_key_error c -> (forall a, no_key_error (f a)) ->
  no_key_error (bind c f).
Proof.
  intros Hc Hf. destruct c as [a | e]; cbn [bind]; [apply Hf |].
  intros k E. apply (Hc k). injection E as ->. reflexivity.
Qed.

Lemma to_double_no_key_error (v : value) : no_key_error (to_double v).
Proof.
  destruct v; unfold to_double; try destruct (is_infinity _);
    intros k; discriminate.
Qed.

Lemma broadcast_no_key_error (f : float -> float -> float)
  (xs ys : list float) : no_key_error (broadcast f xs ys).
Proof.
  unfold broadcast. destruct (bshape _ _); intros k; discriminate.
Qed.

Lemma elementwise_no_key_error (f : float -> float -> float) (v w : value) :
  no_key_error (elementwise f v w).
Proof.
  destruct v, w; unfold elementwise;
    repeat first
      [ apply broadcast_no_key_error
      | apply no_key_error_ok
      | apply no_key_error_bind; [apply to_double_no_key_error | intros ?] ].
Qed.

Lemma py_add_no_key_error (v w : value) : no_key_error (py_add v w).
Proof.
  destruct v, w; unfold py_add;
    first [apply no_key_error_ok | apply elementwise_no_key_error].
Qed.

Lemma py_sub_no_key_error (v w : value) : no_key_error (py_sub v w).
Proof.
  destruct v, w; unfold py_sub;
    first [apply no_key_error_ok | apply elementwise_no_key_error].
Qed.

Lemma py_mul_no_key_error (v w : value) : no_key_error (py_mul v w).
Proof.
  destruct v, w; unfold py_mul;
    first [apply no_key_error_ok | apply elementwise_no_key_error].
Qed.

Lemma lift2_no_key_error (op : value -> value -> result value)
  (a b : result value) :
  (forall v w, no_key_error (op v w)) ->
  no_key_error a -> no_key_error b -> no_key_error (lift2 op a b).
Proof.
  intros Hop Ha Hb. unfold lift2.
  apply no_key_error_bind; [exact Ha | intros v].
  apply no_key_error_bind; [exact Hb | intros w]. apply Hop.
Qed.

(** The last line of [farr1984_ss] raises no [KeyError]. *)
Lemma farr_formula_no_key_error (a2 b2 h : value) :
  no_key_error (4.5%float + a2 + b2 * (h - 4.5%float))%py.
Proof.
  repeat first
    [ apply no_key_error_ok
    | apply lift2_no_key_error;
      [ first [ exact py_add_no_key_error | exact py_sub_no_key_error
              | exact py_mul_no_key_error ] | | ] ].
Qed.

(** ** The ages the table knows *)

Lemma label_in_table_dec (l : option Z) :
  {label_in_table l} + {~ label_in_table l}.
Proof.
  destruct l as [z |].
  - destruct (Z_le_dec 10 z) as [H1 | H1];
      [destruct (Z_le_dec z 150) as [H2 | H2] |].
    + left. exists z. auto.
    + right. intros [z' [E Hz]]. injection E as <-. lia.
    + right. intros [z' [E Hz]]. injection E as <-. lia.
  - right. intros [z' [E _]]. discriminate.
Qed.

Lemma rows_of_key_in_table (k : float) :
  label_in_table (Z_of_float k) ->
  exists a2 b2, rows_of_key coefs k = [[a2; b2]].
Proof.
  intros [z [Ek Hz]]. destruct (entries_in_range z Hz) as [a2 [b2 He]].
  exists a2, b2. unfold rows_of_key, rows_of. rewrite Ek, He. reflexivity.
Qed.

Lemma absent_spec (k : float) :
  absent coefs k = true <-> ~ label_in_table (Z_of_float k).
Proof.
  split.
  - intros Ha Hin. destruct (rows_of_key_in_table k Hin) as [a2 [b2 Er]].
    unfold absent in Ha. rewrite Er in Ha. discriminate.
  - intros Hout. unfold absent, rows_of_key, rows_of.
    destruct (Z_of_float k) as [z |] eqn:Ek; [| reflexivity].
    destruct (entries_cases z) as [[a2 [b2 [Hz He]]] | [Hz He]].
    + exfalso. apply Hout. exists z. auto.
    + rewrite He. reflexivity.
Qed.

(** Ages of the table select one row each. *)
Lemma loc_array_rows (keys : list float) :
  Forall (fun k => label_in_table (Z_of_float k)) keys ->
  filter (absent coefs) keys = [] /\
  length (flat_map (rows_of_key coefs) keys) = length keys.
Proof.
  induction 1 as [| k ks Hk _ [IHf IHl]]; [split; reflexivity |].
  cbn [filter flat_map].
  destruct (absent coefs k) eqn:Ea.
  - exfalso. apply (proj1 (absent_spec k) Ea). exact Hk.
  - destruct (rows_of_key_in_table k Hk) as [a2 [b2 Er]].
    rewrite Er. cbn [app length]. rewrite IHl. split; [exact IHf | reflexivity].
Qed.

Lemma age_in_table_dec (key : value) :
  {age_in_table key} + {~ age_in_table key}.
Proof. apply label_in_table_dec. Qed.

Lemma farr_known_age (h key : value) :
  age_in_table key -> no_key_error (farr1984_ss h key).
Proof.
  intros Hin. rewrite farr_unfold. unfold farr_body.
  destruct Hin as [z [Ek Hz]].
  destruct (entries_in_range z Hz) as [a2 [b2 He]].
  rewrite (loc_hit coefs _ z a2 b2 Ek He). cbn [bind].
  apply farr_formula_no_key_error.
Qed.

Lemma farr_unknown_age (h key : value) :
  scalar key -> ~ age_in_table key ->
  farr1984_ss h key = Raise (KeyError key).
Proof.
  intros Hs Hout. apply farr_key_error.
  - intros z Ek. apply entries_out_of_range. intros Hz.
    apply Hout. exists z. auto.
  - intros xs ->. exact Hs.
Qed.

(** On an array of ages the lookup raises on the ages that are not in the
    table, and only then. *)
Lemma farr_array_key_error (h : value) (keys : list float) (k : value) :
  farr1984_ss h (VArr keys) = Raise (KeyError k) <->
  filter (absent coefs) keys <> [] /\
  k = VArr (filter (absent coefs) keys).
Proof.
  rewrite farr_unfold. unfold farr_body, loc_values.
  destruct (filter (absent coefs) keys) as [| m ms] eqn:Ef; cbn [bind].
  - split; [| intros [Hn _]; exfalso; apply Hn; reflexivity].
    intros E. exfalso. revert E.
    destruct (flat_map (rows_of_key coefs) keys) as [| r1 [| r2 [| r3 rest]]];
      cbn [unpack2 bind]; try discriminate.
    apply farr_formula_no_key_error.
  - split.
    + intros E. injection E as <-. split; [discriminate | reflexivity].
    + intros [_ ->]. reflexivity.
Qed.

Lemma float_ages_are_labels : all_from float_age_is_label (-1000) 2001 = true.
Proof. vm_compute. reflexivity. Qed.

Lemma half_years_are_no_labels :
  all_from half_year_is_no_label 0 201 = true.
Proof. vm_compute. reflexivity. Qed.





(** ** Multiplication by one *)

Lemma digits2_pos_shift52 (m : positive) :
  Zpos (digits2_pos (4503599627370496 * m)) = (Zpos (digits2_pos m) + 52)%Z.
Proof. cbn [Pos.mul]. cbn [digits2_pos]. lia. Qed.

Lemma round_exact_shift52 (s : bool) (m : positive) (e : Z) :
  bounded prec emax m e = true ->
  binary_round_aux prec emax s (Zpos (4503599627370496 * m)) (e - 52) loc_Exact
  = S754_finite s m e.
Proof.
  intros Hb. unfold bounded, canonical_mantissa in Hb.
  apply andb_true_iff in Hb. destruct Hb as [Hc He].
  apply Z.eqb_eq in Hc.
  unfold binary_round_aux, shr_fexp. unfold Zdigits2 at 1.
  rewrite digits2_pos_shift52.
  replace (Z.pos (digits2_pos m) + 52 + (e - 52))%Z
    with (Z.pos (digits2_pos m) + e)%Z by lia.
  rewrite Hc. replace (e - (e - 52))%Z with 52%Z by lia.
  unfold shr. cbn [Pos.mul shr_record_of_loc].
  cbn [iter_pos shr_1 orb].
  replace (e - 52 + 52)%Z with e by lia.
  cbn [loc_of_shr_record shr_m shr_r shr_s round_nearest_even Zdigits2].
  rewrite Hc. rewrite Z.sub_diag. cbn [shr_record_of_loc shr_m].
  rewrite He. reflexivity.
Qed.

(** [1.0 * y] is [y], bit for bit. *)
Lemma float_mul_1_l (y : float) : (1 * y)%float = y.
Proof.
  apply Prim2SF_inj. rewrite mul_spec.
  pose proof (Prim2SF_valid y) as Hv.
  change (Prim2SF 1) with (S754_finite false 4503599627370496 (-52)).
  destruct (Prim2SF y) as [s | s | | s m e]; try reflexivity.
  unfold SF64mul, SFmul. cbn [xorb].
  replace (-52 + e)%Z with (e - 52)%Z by lia.
  apply round_exact_shift52. exact Hv.
Qed.

(** ** Sums and differences that are exact

    A sum or a difference of two binary64 numbers is rounded once.  When
    the exact result is itself a binary64 number, the rounding returns
    it. *)

Section ExactRounding.

Local Open Scope Z_scope.

Lemma digits2_size (p : positive) : digits2_pos p = Pos.size p.
Proof. induction p as [p IH | p IH |]; simpl; rewrite ?IH; reflexivity. Qed.

Lemma Zdigits2_log2 (p : positive) :
  Zpos (digits2_pos p) = Z.log2 (Zpos p) + 1.
Proof.
  rewrite digits2_size. destruct p as [p | p |]; simpl; try reflexivity;
    rewrite Pos2Z.inj_succ || idtac; lia.
Qed.

Lemma digits_shift (p q : positive) (k : Z) :
  0 <= k -> Zpos q = Zpos p * 2 ^ k ->
  Zpos (digits2_pos q) = Zpos (digits2_pos p) + k.
Proof.
  intros Hk E. rewrite !Zdigits2_log2, E.
  rewrite Z.log2_mul_pow2 by lia. lia.
Qed.

Lemma iter_pos_nat {A : Type} (f : A -> A) (p : positive) (x : A) :
  iter_pos f p x = Nat.iter (Pos.to_nat p) f x.
Proof.
  revert x. induction p as [p IH | p IH |]; intros x; cbn [iter_pos].
  - rewrite !IH, Pos2Nat.inj_xI.
    replace (S (2 * Pos.to_nat p)) with
      (Pos.to_nat p + (Pos.to_nat p + 1))%nat by lia.
    rewrite !Nat.iter_add. reflexivity.
  - rewrite !IH, Pos2Nat.inj_xO.
    replace (2 * Pos.to_nat p)%nat with (Pos.to_nat p + Pos.to_nat p)%nat
      by lia.
    rewrite Nat.iter_add. reflexivity.
  - reflexivity.
Qed.

Lemma shr_1_even (x : Z) :
  0 < x ->
  shr_1 {| shr_m := 2 * x; shr_r := false; shr_s := false |} =
  {| shr_m := x; shr_r := false; shr_s := false |}.
Proof. destruct x as [| p | p]; intros H; try lia. reflexivity. Qed.

Lemma shr_iter_exact (n : nat) (x : Z) :
  0 < x ->
  Nat.iter n shr_1
    {| shr_m := x * 2 ^ Z.of_nat n; shr_r := false; shr_s := false |} =
  {| shr_m := x; shr_r := false; shr_s := false |}.
Proof.
  intros Hx. induction n as [| n IH].
  - cbn [Nat.iter]. rewrite Z.mul_1_r. reflexivity.
  - rewrite Nat.iter_succ_r.
    replace (x * 2 ^ Z.of_nat (S n)) with (2 * (x * 2 ^ Z.of_nat n))
      by (rewrite Nat2Z.inj_succ, Z.pow_succ_r by lia; ring).
    rewrite shr_1_even; [exact IH |].
    apply Z.mul_pos_pos; [exact Hx | apply Z.pow_pos_nonneg; lia].
Qed.

Lemma shr_exact (x : Z) (e k : Z) :
  0 < x -> 0 <= k ->
  shr {| shr_m := x * 2 ^ k; shr_r := false; shr_s := false |} e k =
  ({| shr_m := x; shr_r := false; shr_s := false |}, e + k).
Proof.
  intros Hx Hk. unfold shr. destruct k as [| p | p]; [| | lia].
  - rewrite Z.mul_1_r, Z.add_0_r. reflexivity.
  - rewrite iter_pos_nat.
    rewrite <- (positive_nat_Z p) at 1.
    rewrite shr_iter_exact by exact Hx. reflexivity.
Qed.

(** A number with a canonical mantissa, written with [k] more bits, rounds
    to itself. *)
Lemma binary_round_aux_exact (s : bool) (m : positive) (e k : Z) :
  0 <= k -> bounded prec emax m e = true ->
  binary_round_aux prec emax s (Zpos m * 2 ^ k) (e - k) loc_Exact =
  S754_finite s m e.
Proof.
  intros Hk Hb. unfold bounded, canonical_mantissa in Hb.
  apply andb_true_iff in Hb. destruct Hb as [Hc He].
  apply Z.eqb_eq in Hc.
  assert (Hpos : 0 < Zpos m * 2 ^ k)
    by (apply Z.mul_pos_pos; [lia | apply Z.pow_pos_nonneg; lia]).
  destruct (Zpos m * 2 ^ k) as [| q | q] eqn:Eq; try lia.
  unfold binary_round_aux, shr_fexp. unfold Zdigits2 at 1.
  rewrite (digits_shift m q k Hk (eq_sym Eq)).
  replace (Z.pos (digits2_pos m) + k + (e - k)) with
    (Z.pos (digits2_pos m) + e) by lia.
  rewrite Hc. replace (e - (e - k)) with k by lia.
  cbn [shr_record_of_loc]. rewrite <- Eq.
  rewrite shr_exact by lia.
  replace (e - k + k) with e by lia.
  cbn [loc_of_shr_record shr_m shr_r shr_s round_nearest_even Zdigits2].
  rewrite Hc, Z.sub_diag. cbn [shr shr_record_of_loc shr_m].
  rewrite He. reflexivity.
Qed.

Lemma pow2_pos (k : Z) : 0 <= k -> 0 < 2 ^ k.
Proof. intros H. apply Z.pow_pos_nonneg; lia. Qed.

Lemma shl_align_ge (mx : positive) (ex e' : Z) :
  ex <= e' -> shl_align mx ex e' = (mx, ex).
Proof.
  intros H. unfold shl_align. destruct (e' - ex) eqn:E; try reflexivity. lia.
Qed.

Lemma shl_align_lt (mx : positive) (ex e' : Z) :
  e' < ex ->
  exists q, shl_align mx ex e' = (q, e') /\
            Zpos q = Zpos mx * 2 ^ (ex - e').
Proof.
  intros H. unfold shl_align. destruct (e' - ex) as [| d | d] eqn:E; try lia.
  eexists. split; [reflexivity |].
  change (Pos.iter xO mx d) with (shift_pos d mx).
  rewrite shift_pos_correct, Z.pow_pos_fold.
  replace (ex - e') with (Z.pos d) by lia. ring.
Qed.

(** The aligned mantissa denotes the same number. *)
Lemma shl_align_value (mx : positive) (ex e' : Z) :
  -1074 <= e' -> e' <= ex ->
  Zpos (fst (shl_align mx ex e')) * 2 ^ (e' + 1074) =
  Zpos mx * 2 ^ (ex + 1074).
Proof.
  intros Hc Hle. destruct (Z.eq_dec e' ex) as [-> | Hne].
  - rewrite shl_align_ge by lia. reflexivity.
  - destruct (shl_align_lt mx ex e') as [q [-> Hq]]; [lia |].
    cbn [fst]. rewrite Hq, <- Z.mul_assoc, <- Z.pow_add_r by lia.
    f_equal. f_equal. lia.
Qed.

(** Rounding a number that a canonical mantissa and exponent represent
    gives that mantissa and exponent. *)
Lemma binary_round_exact (s : bool) (mx : positive) (ex : Z) (m : positive)
  (e : Z) :
  -1074 <= ex -> -1074 <= e -> bounded prec emax m e = true ->
  Zpos mx * 2 ^ (ex + 1074) = Zpos m * 2 ^ (e + 1074) ->
  binary_round prec emax s mx ex = S754_finite s m e.
Proof.
  intros Hex He Hb Hv.
  assert (Hc : fexp prec emax (Zpos (digits2_pos m) + e) = e).
  { unfold bounded, canonical_mantissa in Hb.
    apply andb_true_iff in Hb. apply Z.eqb_eq. exact (proj1 Hb). }
  unfold binary_round.
  destruct (Z_le_gt_dec ex e) as [Hle | Hgt].
  - assert (Hm : Zpos mx = Zpos m * 2 ^ (e - ex)).
    { apply (Z.mul_reg_r _ _ (2 ^ (ex + 1074)));
        [pose proof (pow2_pos (ex + 1074)); lia |].
      rewrite Hv, <- Z.mul_assoc, <- Z.pow_add_r by lia.
      f_equal. f_equal. lia. }
    rewrite (digits_shift m mx (e - ex)) by (lia || exact Hm).
    replace (Z.pos (digits2_pos m) + (e - ex) + ex)
      with (Z.pos (digits2_pos m) + e) by lia.
    rewrite Hc, shl_align_ge by exact Hle.
    rewrite Hm. replace ex with (e - (e - ex)) at 2 by lia.
    apply binary_round_aux_exact; [lia | exact Hb].
  - assert (Hm : Zpos m = Zpos mx * 2 ^ (ex - e)).
    { apply (Z.mul_reg_r _ _ (2 ^ (e + 1074)));
        [pose proof (pow2_pos (e + 1074)); lia |].
      rewrite <- Hv, <- Z.mul_assoc, <- Z.pow_add_r by lia.
      f_equal. f_equal. lia. }
    replace (Z.pos (digits2_pos mx) + ex)
      with (Z.pos (digits2_pos m) + e)
      by (rewrite (digits_shift mx m (ex - e)) by (lia || exact Hm); lia).
    rewrite Hc.
    destruct (shl_align_lt mx ex e) as [q [-> Hq]]; [lia |].
    assert (q = m) by (apply Pos2Z.inj; rewrite Hq, Hm; reflexivity).
    subst q.
    replace (Zpos m) with (Zpos m * 2 ^ 0) by (rewrite Z.mul_1_r; reflexivity).
    replace e with (e - 0) at 1 by lia.
    apply binary_round_aux_exact; [lia | exact Hb].
Qed.

Lemma cond_Zopp_mul (s : bool) (x y : Z) :
  cond_Zopp s x * y = cond_Zopp s (x * y).
Proof. destruct s; cbn [cond_Zopp]; ring. Qed.

Lemma binary_normalize_exact (D ez : Z) (s : bool) (m : positive) (e : Z) :
  -1074 <= ez -> -1074 <= e -> bounded prec emax m e = true ->
  D * 2 ^ (ez + 1074) = cond_Zopp s (Zpos m) * 2 ^ (e + 1074) ->
  binary_normalize prec emax D ez false = S754_finite s m e.
Proof.
  intros Hez He Hb Hv.
  pose proof (pow2_pos (ez + 1074)) as P1.
  pose proof (pow2_pos (e + 1074)) as P2.
  assert (Hm : 0 < Zpos m * 2 ^ (e + 1074)) by (apply Z.mul_pos_pos; lia).
  unfold binary_normalize.
  destruct D as [| p | p], s; cbn [cond_Zopp] in Hv; try nia.
  - apply binary_round_exact; assumption.
  - apply binary_round_exact; try assumption. nia.
Qed.

(** A number of at most 53 bits, at any exponent in range, rounds to
    itself. *)
Lemma binary_normalize_short (X k ez : Z) :
  X <> 0 -> Z.abs X < 2 ^ 53 -> 0 <= k -> -1074 <= ez -> ez + k <= 971 ->
  exists s m e,
    binary_normalize prec emax (X * 2 ^ k) ez false = S754_finite s m e /\
    -1074 <= e /\
    cond_Zopp s (Zpos m) * 2 ^ (e + 1074) = X * 2 ^ (k + ez + 1074).
Proof.
  intros HX Hlt Hk Hez Hup.
  set (p := Z.to_pos (Z.abs X)).
  assert (Hp : Zpos p = Z.abs X) by (unfold p; rewrite Z2Pos.id; lia).
  set (E := ez + k).
  set (e' := fexp prec emax (Zpos (digits2_pos p) + E)).
  assert (Hd : Zpos (digits2_pos p) <= 53).
  { rewrite Zdigits2_log2.
    assert (Z.log2 (Zpos p) < 53); [| lia].
    apply Z.log2_lt_pow2; lia. }
  assert (He' : -1074 <= e' <= E).
  { unfold e', fexp. change (SpecFloat.emin prec emax) with (-1074).
    change prec with 53. lia. }
  set (m := Z.to_pos (Zpos p * 2 ^ (E - e'))).
  assert (Hm : Zpos m = Zpos p * 2 ^ (E - e')).
  { unfold m. rewrite Z2Pos.id; [reflexivity |].
    apply Z.mul_pos_pos; [lia | apply pow2_pos; lia]. }
  assert (Hb : bounded prec emax m e' = true).
  { unfold bounded, canonical_mantissa. apply andb_true_iff. split.
    - apply Z.eqb_eq.
      rewrite (digits_shift p m (E - e')) by (lia || exact Hm).
      replace (Z.pos (digits2_pos p) + (E - e') + e')
        with (Z.pos (digits2_pos p) + E) by lia.
      reflexivity.
    - apply Z.leb_le. change (emax - prec) with 971. lia. }
  assert (Hv : Zpos m * 2 ^ (e' + 1074) = Zpos p * 2 ^ (E + 1074)).
  { rewrite Hm, <- Z.mul_assoc, <- Z.pow_add_r by lia.
    f_equal. f_equal. lia. }
  exists (X <? 0), m, e'.
  assert (Hs : cond_Zopp (X <? 0) (Z.pos m) * 2 ^ (e' + 1074) =
               X * 2 ^ (k + ez + 1074)).
  { rewrite cond_Zopp_mul, Hv, Hp. replace (k + ez + 1074) with (E + 1074)
      by (unfold E; lia).
    destruct (Z.ltb_spec X 0); cbn [cond_Zopp]; [rewrite Z.abs_neq by lia
                                                 | rewrite Z.abs_eq by lia];
      ring. }
  split; [| split; [lia | exact Hs]].
  apply binary_normalize_exact; try lia; [exact Hb |].
  rewrite Hs, <- Z.mul_assoc, <- Z.pow_add_r by lia.
  f_equal. f_equal. lia.
Qed.

(** What [2 <= h < 2 ^ 52] says of the mantissa and the exponent. *)
Lemma between_2_and_2p52 (h : float) :
  (2 <=? h)%float = true -> (h <? 4503599627370496)%float = true ->
  exists m e, Prim2SF h = S754_finite false m e /\
              bounded prec emax m e = true /\ -51 <= e <= -1 /\
              2 ^ 52 <= Zpos m < 2 ^ 53.
Proof.
  rewrite leb_spec, ltb_spec. intros Hlo Hhi.
  pose proof (Prim2SF_valid h) as Hv.
  change (Prim2SF 2) with (S754_finite false 4503599627370496 (-51)) in Hlo.
  change (Prim2SF 4503599627370496)
    with (S754_finite false 4503599627370496 0) in Hhi.
  destruct (Prim2SF h) as [s | s | | s m e];
    [ discriminate Hlo | destruct s; discriminate | discriminate Hlo |].
  unfold SFleb, SFcompare in Hlo. unfold SFltb, SFcompare in Hhi.
  destruct s; [discriminate Hlo |].
  cbn [SpecFloat.valid_binary] in Hv.
  exists m, e. split; [reflexivity | split; [exact Hv |]].
  assert (He1 : -51 <= e).
  { destruct (Z.compare_spec (-51) e); first [lia | discriminate Hlo]. }
  unfold bounded, canonical_mantissa in Hv.
  apply andb_true_iff in Hv. destruct Hv as [Hc _].
  apply Z.eqb_eq in Hc. unfold fexp in Hc.
  change (SpecFloat.emin prec emax) with (-1074) in Hc.
  change prec with 53 in Hc.
  assert (Hd : Zpos (digits2_pos m) = 53) by lia.
  rewrite Zdigits2_log2 in Hd.
  assert (Hl : Z.log2 (Zpos m) = 52) by lia.
  pose proof (Z.log2_spec (Zpos m) ltac:(lia)) as Hs.
  rewrite Hl in Hs. change (Z.succ 52) with 53 in Hs.
  split; [| exact Hs]. split; [exact He1 |].
  destruct (Z.compare_spec e 0) as [E | E | E];
    [| lia | discriminate Hhi].
  exfalso. rewrite Pos.compare_cont_spec in Hhi.
  cbn [Pos.switch_Eq] in Hhi.
  destruct (Pos.compare_spec m 4503599627370496) as [E' | E' | E'];
    try discriminate Hhi.
  apply Pos2Z.pos_lt_pos in E'. clear - Hs E'. lia.
Qed.

(** [4.5 + (h - 4.5)] is [h] for every binary64 number from 2 up to
    [2 ^ 52]: the difference is computed exactly, and so is the sum. *)
Lemma round_trip_4_5 (h : float) :
  (2 <=? h)%float = true -> (h <? 4503599627370496)%float = true ->
  (4.5 + (h - 4.5))%float = h.
Proof.
  intros Hlo Hhi.
  destruct (between_2_and_2p52 h Hlo Hhi) as [m [e [Eh [Hb [He Hm]]]]].
  apply Prim2SF_inj. rewrite add_spec.
  pose proof (Prim2SF_valid (h - 4.5)) as Hvd.
  rewrite sub_spec in Hvd |- *. rewrite Eh in Hvd |- *.
  change (Prim2SF 4.5) with (S754_finite false 5066549580791808 (-50))
    in Hvd |- *.
  unfold SF64sub, SFsub in Hvd |- *. cbn [cond_Zopp] in Hvd |- *.
  set (ez := Z.min e (-50)) in *.
  set (mh := Zpos (fst (shl_align m e ez))) in *.
  set (my := Zpos (fst (shl_align 5066549580791808 (-50) ez))) in *.
  assert (Hez : -51 <= ez <= -50) by (unfold ez; lia).
  assert (Hmh : mh * 2 ^ (ez + 1074) = Zpos m * 2 ^ (e + 1074))
    by (apply shl_align_value; unfold ez; lia).
  assert (Hmy : my * 2 ^ (ez + 1074) = 5066549580791808 * 2 ^ 1024)
    by (apply (shl_align_value 5066549580791808 (-50) ez); unfold ez; lia).
  (* the difference is [X * 2 ^ k] with [X] of at most 53 bits *)
  assert (HX : exists X k, mh - my = X * 2 ^ k /\ Z.abs X < 2 ^ 53 /\
                           0 <= k <= 49).
  { destruct (Z_le_gt_dec (-50) e) as [Hge | Hlt].
    - assert (ez = -50) by (unfold ez; lia).
      exists (Zpos m - 9 * 2 ^ (49 - (e + 50))), (e + 50).
      pose proof (pow2_pos (e + 50) ltac:(lia)) as P1.
      pose proof (pow2_pos (49 - (e + 50)) ltac:(lia)) as P2.
      assert (PQ : 2 ^ (49 - (e + 50)) * 2 ^ (e + 50) = 2 ^ 49)
        by (rewrite <- Z.pow_add_r by lia; f_equal; lia).
      assert (E1 : mh = Zpos m * 2 ^ (e + 50)).
      { apply (Z.mul_reg_r _ _ (2 ^ (ez + 1074)));
          [pose proof (pow2_pos (ez + 1074)); lia |].
        rewrite Hmh, <- Z.mul_assoc, <- Z.pow_add_r by lia.
        f_equal. f_equal. lia. }
      assert (E2 : my = 5066549580791808).
      { apply (Z.mul_reg_r _ _ (2 ^ (ez + 1074)));
          [pose proof (pow2_pos (ez + 1074)); lia |].
        rewrite Hmy. f_equal. f_equal. lia. }
      change (2 ^ 49) with 562949953421312 in PQ.
      change (2 ^ 53) with 9007199254740992 in *.
      change (2 ^ 52) with 4503599627370496 in *.
      split; [rewrite E1, E2; nia | split; [nia | lia]].
    - assert (e = -51) by lia. assert (ez = -51) by (unfold ez; lia).
      exists (Zpos m - 10133099161583616), 0.
      assert (E1 : mh = Zpos m).
      { apply (Z.mul_reg_r _ _ (2 ^ (ez + 1074)));
          [pose proof (pow2_pos (ez + 1074)); lia |].
        rewrite Hmh. f_equal. f_equal. lia. }
      assert (E2 : my = 10133099161583616).
      { apply (Z.mul_reg_r _ _ (2 ^ (ez + 1074)));
          [pose proof (pow2_pos (ez + 1074)); lia |].
        rewrite Hmy, H0. reflexivity. }
      change (2 ^ 53) with 9007199254740992 in *.
      change (2 ^ 52) with 4503599627370496 in *.
      split; [rewrite E1, E2; ring | split; lia]. }
  destruct HX as [X [k [HD [HXb Hk]]]].
  destruct (Z.eq_dec X 0) as [HX0 | HX0].
  - (* the height is 4.5 *)
    assert (E0 : mh - my = 0) by (rewrite HD, HX0; reflexivity).
    rewrite E0. cbn [binary_normalize SF64add SFadd].
    assert (Hv : Zpos m * 2 ^ (e + 51) = 10133099161583616).
    { apply (Z.mul_reg_r _ _ (2 ^ 1023)); [discriminate |].
      rewrite <- Z.mul_assoc, <- Z.pow_add_r by lia.
      replace (e + 51 + 1023) with (e + 1074) by lia.
      rewrite <- Hmh. replace mh with my by lia. rewrite Hmy.
      reflexivity. }
    change (2 ^ 52) with 4503599627370496 in Hm.
    change (2 ^ 53) with 9007199254740992 in Hm.
    assert (Hem : e = -50 /\ Zpos m = 5066549580791808).
    { destruct (Z.eq_dec e (-51)) as [-> | N1];
        [change (2 ^ (-51 + 51)) with 1 in Hv; lia |].
      destruct (Z.eq_dec e (-50)) as [-> | N2];
        [change (2 ^ (-50 + 51)) with 2 in Hv; lia |].
      exfalso. replace (e + 51) with (2 + (e + 49)) in Hv by lia.
      rewrite Z.pow_add_r in Hv by lia.
      pose proof (pow2_pos (e + 49) ltac:(lia)). change (2 ^ 2) with 4 in Hv.
      nia. }
    destruct Hem as [-> Em]. apply Pos2Z.inj in Em. subst m. reflexivity.
  - destruct (binary_normalize_short X k ez HX0 HXb)
      as [s1 [m1 [e1 [Ed [He1 Hv1]]]]]; try lia.
    rewrite HD, Ed. unfold SF64add, SFadd. cbn [cond_Zopp].
    apply binary_normalize_exact; try lia.
    + exact Hb.
    + set (ez2 := Z.min (-50) e1).
      rewrite Z.mul_add_distr_r.
      rewrite (shl_align_value 5066549580791808 (-50) ez2)
        by (unfold ez2; lia).
      rewrite cond_Zopp_mul.
      rewrite (shl_align_value m1 e1 ez2) by (unfold ez2; lia).
      rewrite <- cond_Zopp_mul, Hv1.
      replace (k + ez + 1074) with (k + (ez + 1074)) by lia.
      rewrite (Z.pow_add_r 2 k (ez + 1074)), Z.mul_assoc, <- HD by lia.
      rewrite Z.mul_sub_distr_r, Hmh, Hmy. cbn [cond_Zopp].
      change (-50 + 1074) with 1024. ring.
Qed.

End ExactRounding.

(** ** Farr 1984 at the reference age *)

Lemma entries_50 : entries coefs 50 = [(50%Z, (0%float, 1%float))].
Proof. vm_compute. reflexivity. Qed.

Lemma round_trip_exact_1000 : all_from round_trip_exact 0 1001 = true.
Proof. vm_compute. reflexivity. Qed.

Lemma round_trip_exact_500_00 :
  all_from round_trip_exact_hundredths 450 49551 = true.
Proof. vm_compute. reflexivity. Qed.

Lemma farr_at_50 (h : value) (x : float) :
  to_double h = Ok x ->
  farr1984_ss h (VInt 50) = Ok (VNp (4.5 + (x - 4.5))%float).
Proof.
  intros Hh.
  rewrite (farr_scalar h (VInt 50) 50 0 1 x eq_refl entries_50 Hh).
  rewrite float_mul_1_l. reflexivity.
Qed.

Lemma farr_heights_at_50 (hs : list float) :
  farr1984_ss (VArr hs) (VInt 50) =
  Ok (VArr (map (fun x => 4.5 + (x - 4.5))%float hs)).
Proof.
  rewrite farr_unfold.
  rewrite (farr_body_heights coefs hs (VInt 50) 50 0 1 eq_refl entries_50).
  do 2 f_equal. apply map_ext. intros x. rewrite float_mul_1_l.
  reflexivity.
Qed.

(** C10, as the code has it.  The entry of the table for age 50 is
    [(0, 1)], so [farr1984_ss(height, 50)] is [4.5 + (height - 4.5)]
    computed in binary64.  The difference and the sum are exact, and the
    result is the height itself, for every binary64 height from 2 up to
    [2 ^ 52], a scalar or the elements of an array; so it is for the integer
    heights 0 and 1.  Just below 2 and just above [2 ^ 52] a rounding
    shows: 1.9999999999999998 gives 2, and [2 ^ 52 + 5] gives
    [2 ^ 52 + 4]. *)
Theorem farr_reference_age :
  entries coefs 50 = [(50%Z, (0%float, 1%float))] /\
  (forall h x, to_double h = Ok x ->
     farr1984_ss h (VInt 50) = Ok (VNp (4.5 + (x - 4.5))%float)) /\
  (forall h x, to_double h = Ok x ->
     (2 <=? x)%float = true -> (x <? 4503599627370496)%float = true ->
     farr1984_ss h (VInt 50) = Ok (VNp x)) /\
  (forall hs,
     Forall (fun x => (2 <=? x)%float = true /\
                      (x <? 4503599627370496)%float = true) hs ->
     farr1984_ss (VArr hs) (VInt 50) = Ok (VArr hs)) /\
  (forall z, (0 <= z <= 1000)%Z ->
     farr1984_ss (VInt z) (VInt 50) = Ok (VNp (float_of_Z z))) /\
  (forall k, (450 <= k <= 50000)%Z ->
     farr1984_ss (VFloat (hundredths k)) (VInt 50) =
     Ok (VNp (hundredths k))) /\
  farr1984_ss (VFloat 1.9999999999999998) (VInt 50) = Ok (VNp 2) /\
  farr1984_ss (VFloat 4503599627370501) (VInt 50) =
    Ok (VNp 4503599627370500).
Proof.
  split; [exact entries_50 | split; [exact farr_at_50 |]].
  split; [| split; [| split; [| split; [| split]]]].
  - intros h x Hh Hlo Hhi.
    rewrite (farr_at_50 h x Hh), (round_trip_4_5 x Hlo Hhi). reflexivity.
  - intros hs Hall. rewrite farr_heights_at_50. do 2 f_equal.
    rewrite <- (map_id hs) at 2. apply map_ext_in. intros x Hx.
    destruct (proj1 (Forall_forall _ hs) Hall x Hx) as [Hlo Hhi].
    exact (round_trip_4_5 x Hlo Hhi).
  - intros z Hz.
    assert (Hc : round_trip_exact z = true)
      by (apply (all_from_spec _ _ _ round_trip_exact_1000); lia).
    unfold round_trip_exact in Hc.
    destruct (to_double (VInt z)) as [x |] eqn:Ex; [| discriminate].
    apply FloatAxioms.Leibniz.eqb_spec in Hc.
    rewrite (farr_at_50 (VInt z) x Ex), Hc.
    unfold to_double in Ex.
    destruct (is_infinity (float_of_Z z)); [discriminate |].
    injection Ex as <-. reflexivity.
  - intros k Hk.
    assert (Hc : round_trip_exact_hundredths k = true)
      by (apply (all_from_spec _ _ _ round_trip_exact_500_00); lia).
    unfold round_trip_exact_hundredths in Hc. cbv zeta in Hc.
    apply FloatAxioms.Leibniz.eqb_spec in Hc.
    rewrite (farr_at_50 (VFloat (hundredths k)) (hundredths k) eq_refl), Hc.
    reflexivity.
  - rewrite (farr_at_50 (VFloat 1.9999999999999998) _ eq_refl).
    reflexivity.
  - rewrite (farr_at_50 (VFloat 4503599627370501) _ eq_refl).
    reflexivity.
Qed.

Lemma farr_reference_age_witness :
  farr1984_ss (VFloat 100) (VInt 50) = Ok (VNp 100).
Proof.
  apply (proj1 (proj2 (proj2 farr_reference_age)) (VFloat 100) 100%float);
    reflexivity.
Defined.

(** C10, as stated, fails: at height 0.1 the two roundings lose the last
    digits of the height. *)
Lemma farr_reference_age_not_identity :
  farr1984_ss (VFloat 0.1) (VInt 50) = Ok (VNp 0.099999999999999645) /\
  (0.099999999999999645 <? 0.1)%float = true.
Proof. vm_compute. split; reflexivity. Qed.

(** * On [numpy.float64] scalars *)

Section NumpyScalars.

Variable M : libm.

Local Open Scope float_scope.

Lemma king1966_np (h a : float) :
  king1966_df M (VNp h) (VNp a) = Ok (VNp (king1966_formula M h a)).
Proof. reflexivity. Qed.

Lemma cochran1979_np (h a : float) :
  cochran1979_gf M (VNp h) (VNp a) = Ok (VNp (cochran1979_formula M h a)).
Proof. reflexivity. Qed.

Lemma wiley1978_np (h a : float) :
  wiley1978_wh M (VNp h) (VNp a) = Ok (VNp (wiley1978_formula M h a)).
Proof. reflexivity. Qed.

Lemma harrington1986_np (h a : float) :
  harrington1986_ra M (VNp h) (VNp a) =
  Ok (VNp (harrington1986_formula M h a)).
Proof. reflexivity. Qed.

Lemma curtis1974_np (h a : float) :
  curtis1974_df M (VNp h) (VNp a) = Ok (VNp (curtis1974_formula M h a)).
Proof.
  unfold curtis1974_formula.
  destruct (a <=? 100) eqn:E; vm_compute; vm_compute in E; rewrite E;
    reflexivity.
Qed.

End NumpyScalars.

(** * Arrays: every operation works element by element *)

Lemma zip_with_map {P A B C : Type} (f : A -> B -> C) (g1 : P -> A)
  (g2 : P -> B) (ps : list P) :
  zip_with f (map g1 ps) (map g2 ps) = map (fun p => f (g1 p) (g2 p)) ps.
Proof. induction ps as [| p ps IH]; simpl; [| rewrite IH]; reflexivity. Qed.

Lemma zip_with_combine {A B C : Type} (f : A -> B -> C) (xs : list A)
  (ys : list B) :
  zip_with f xs ys = map (fun p => f (fst p) (snd p)) (combine xs ys).
Proof.
  revert ys. induction xs as [| x xs IH]; intros [| y ys]; simpl;
    try rewrite IH; reflexivity.
Qed.

Lemma map_fst_combine {A B : Type} (xs : list A) (ys : list B) :
  length xs = length ys -> map fst (combine xs ys) = xs.
Proof.
  revert ys. induction xs as [| x xs IH]; intros [| y ys] H; simpl in *;
    try discriminate; [reflexivity |]. rewrite IH; [reflexivity | lia].
Qed.

Lemma map_snd_combine {A B : Type} (xs : list A) (ys : list B) :
  length xs = length ys -> map snd (combine xs ys) = ys.
Proof.
  revert ys. induction xs as [| x xs IH]; intros [| y ys] H; simpl in *;
    try discriminate; [reflexivity |]. rewrite IH; [reflexivity | lia].
Qed.

Lemma stretch_same {A : Type} (xs : list A) : stretch (length xs) xs = xs.
Proof. unfold stretch. rewrite Nat.eqb_refl. reflexivity. Qed.

Lemma broadcast_same (f : float -> float -> float) (xs ys : list float) :
  length xs = length ys ->
  broadcast f xs ys = Ok (VArr (zip_with f xs ys)).
Proof.
  intros H. unfold broadcast, bshape. rewrite H, Nat.eqb_refl.
  rewrite stretch_same. rewrite <- H. rewrite stretch_same. reflexivity.
Qed.

Section Pointwise.

Variable ps : list (float * float).

Lemma float_op_add : float_op py_add PrimFloat.add.
Proof. split; [intros xs [] | intros [] ys]; reflexivity. Qed.

Lemma float_op_sub : float_op py_sub PrimFloat.sub.
Proof. split; [intros xs [] | intros [] ys]; reflexivity. Qed.

Lemma float_op_mul : float_op py_mul PrimFloat.mul.
Proof. split; [intros xs [] | intros [] ys]; reflexivity. Qed.

Lemma float_op_div : float_op py_truediv PrimFloat.div.
Proof. split; [intros xs [] | intros [] ys]; reflexivity. Qed.

Lemma den_ret (g : float * float -> float) :
  denotes ps (ret_value (VArr (map g ps))) g.
Proof. reflexivity. Qed.

Lemma den_bind (e : result value) (k : value -> result value)
  (g G : float * float -> float) :
  denotes ps e g -> denotes ps (k (VArr (map g ps))) G ->
  denotes ps (bind e k) G.
Proof. unfold denotes. intros -> H. exact H. Qed.

Lemma den_aa (op : value -> value -> result value)
  (f : float -> float -> float) (a b : result value)
  (g1 g2 : float * float -> float) :
  float_op op f -> denotes ps a g1 -> denotes ps b g2 ->
  denotes ps (lift2 op a b) (fun p => f (g1 p) (g2 p)).
Proof.
  unfold denotes. intros [Hop _] -> ->. unfold lift2. cbn [bind].
  rewrite Hop. cbn [elementwise].
  rewrite broadcast_same by (rewrite !length_map; reflexivity).
  rewrite zip_with_map. reflexivity.
Qed.

Lemma den_as (op : value -> value -> result value)
  (f : float -> float -> float) (a : result value) (w : value)
  (g : float * float -> float) (c : float) :
  float_op op f -> denotes ps a g -> to_double w = Ok c ->
  denotes ps (lift2 op a (ret_value w)) (fun p => f (g p) c).
Proof.
  unfold denotes. intros [Hop _] -> Hw. unfold lift2, ret_value.
  cbn [bind]. rewrite Hop.
  destruct w; try discriminate; cbn [elementwise]; rewrite Hw; cbn [bind];
    rewrite map_map; reflexivity.
Qed.

Lemma den_sa (op : value -> value -> result value)
  (f : float -> float -> float) (v : value) (b : result value)
  (g : float * float -> float) (c : float) :
  float_op op f -> to_double v = Ok c -> denotes ps b g ->
  denotes ps (lift2 op (ret_value v) b) (fun p => f c (g p)).
Proof.
  unfold denotes. intros [_ Hop] Hv ->. unfold lift2, ret_value.
  cbn [bind]. rewrite Hop.
  destruct v; try discriminate; cbn [elementwise]; rewrite Hv; cbn [bind];
    rewrite map_map; reflexivity.
Qed.

Lemma den_pow (M : libm) (g : float * float -> float) (n : positive) :
  denotes ps (py_pow M (VArr (map g ps)) n) (fun p => array_pow M (g p) n).
Proof. unfold denotes. cbn [py_pow]. rewrite map_map. reflexivity. Qed.

Lemma den_ufunc (f : float -> float) (g : float * float -> float) :
  denotes ps (ufunc f (VArr (map g ps))) (fun p => f (g p)).
Proof. unfold denotes. cbn [ufunc]. rewrite map_map. reflexivity. Qed.

Lemma cden_le (a : result value) (g : float * float -> float) (k : Z)
  (y : float) :
  denotes ps a g -> to_double (VInt k) = Ok y ->
  cdenotes ps (v <- a ;; py_le_int v k) (fun p => (g p <=? y)%float).
Proof.
  unfold denotes, cdenotes. intros -> Hk. cbn [bind py_le_int].
  rewrite Hk. cbn [bind]. rewrite map_map. reflexivity.
Qed.

Lemma zip_with3_map (c : float * float -> bool)
  (gx gy : float * float -> float) (qs : list (float * float)) :
  zip_with3 select (map c qs) (map gx qs) (map gy qs) =
  map (fun p => select (c p) (gx p) (gy p)) qs.
Proof. induction qs as [| q qs IH]; simpl; [| rewrite IH]; reflexivity. Qed.

Lemma den_where (c : result cond) (x y : result value)
  (b : float * float -> bool) (gx gy : float * float -> float) :
  cdenotes ps c b -> denotes ps x gx -> denotes ps y gy ->
  denotes ps (np_where c x y) (fun p => select (b p) (gx p) (gy p)).
Proof.
  unfold denotes, cdenotes. intros -> -> ->. unfold np_where.
  cbn [bind where_values]. unfold where3, bshape.
  rewrite !length_map, !Nat.eqb_refl.
  replace (stretch (length ps) (map b ps)) with (map b ps)
    by (rewrite <- (length_map b ps) at 1; rewrite stretch_same; reflexivity).
  replace (stretch (length ps) (map gx ps)) with (map gx ps)
    by (rewrite <- (length_map gx ps) at 1; rewrite stretch_same; reflexivity).
  replace (stretch (length ps) (map gy ps)) with (map gy ps)
    by (rewrite <- (length_map gy ps) at 1; rewrite stretch_same; reflexivity).
  rewrite zip_with3_map. reflexivity.
Qed.

End Pointwise.

Create HintDb float_ops.
#[export] Hint Resolve float_op_add float_op_sub float_op_mul float_op_div
  : float_ops.

(** Walks an expression whose array operands all have one element per
    input pair. *)
Ltac literal := vm_compute; reflexivity.

Ltac pointwise :=
  lazymatch goal with
  | |- denotes _ (ret_value (VArr (map _ _))) _ => apply den_ret
  | |- denotes _ (lift2 _ (ret_value (VFloat _)) _) _ =>
      eapply den_sa; [auto with float_ops | literal | pointwise]
  | |- denotes _ (lift2 _ (ret_value (VInt _)) _) _ =>
      eapply den_sa; [auto with float_ops | literal | pointwise]
  | |- denotes _ (lift2 _ _ (ret_value (VFloat _))) _ =>
      eapply den_as; [auto with float_ops | pointwise | literal]
  | |- denotes _ (lift2 _ _ (ret_value (VInt _))) _ =>
      eapply den_as; [auto with float_ops | pointwise | literal]
  | |- denotes _ (lift2 _ _ _) _ =>
      eapply den_aa; [auto with float_ops | pointwise | pointwise]
  | |- denotes _ (py_pow _ (VArr (map _ _)) _) _ => apply den_pow
  | |- denotes _ (ufunc _ (VArr (map _ _))) _ => apply den_ufunc
  | |- denotes _ (np_log _ _) _ => unfold np_log; pointwise
  | |- denotes _ (np_exp _ _) _ => unfold np_exp; pointwise
  | |- denotes _ (np_log10 _ _) _ => unfold np_log10; pointwise
  | |- denotes _ (np_power _ _ _) _ => unfold np_power; pointwise
  | |- denotes _ (np_where _ _ _) _ =>
      eapply den_where;
      [eapply cden_le; [pointwise | literal] | pointwise | pointwise]
  | |- denotes _ (bind _ _) _ =>
      eapply den_bind; [pointwise | cbv beta iota; pointwise]
  end.

Section Vectorised.

Variable M : libm.

Lemma denotes_zip (r : result value) (hs ages : list float)
  (g : float * float -> float) (f : float -> float -> float) :
  denotes (combine hs ages) r g ->
  (forall p, g p = f (fst p) (snd p)) ->
  r = Ok (VArr (zip_with f hs ages)).
Proof.
  unfold denotes. intros -> Hg. rewrite zip_with_combine.
  rewrite (map_ext _ _ Hg). reflexivity.
Qed.

Lemma king1966_array (hs ages : list float) :
  length hs = length ages ->
  king1966_df M (VArr hs) (VArr ages) =
  Ok (VArr (zip_with king1966_array_formula hs ages)).
Proof.
  intros Hl.
  rewrite <- (map_fst_combine hs ages Hl) at 1.
  rewrite <- (map_snd_combine hs ages Hl) at 2.
  eapply denotes_zip; [unfold king1966_df; pointwise |].
  intros p. reflexivity.
Qed.

Lemma cochran1979_array (hs ages : list float) :
  length hs = length ages ->
  cochran1979_gf M (VArr hs) (VArr ages) =
  Ok (VArr (zip_with (cochran1979_array_formula M) hs ages)).
Proof.
  intros Hl.
  rewrite <- (map_fst_combine hs ages Hl) at 1.
  rewrite <- (map_snd_combine hs ages Hl) at 2.
  eapply denotes_zip; [unfold cochran1979_gf; pointwise |].
  intros p. reflexivity.
Qed.

Lemma wiley1978_array (hs ages : list float) :
  length hs = length ages ->
  wiley1978_wh M (VArr hs) (VArr ages) =
  Ok (VArr (zip_with wiley1978_array_formula hs ages)).
Proof.
  intros Hl.
  rewrite <- (map_fst_combine hs ages Hl) at 1.
  rewrite <- (map_snd_combine hs ages Hl) at 2.
  eapply denotes_zip; [unfold wiley1978_wh; pointwise |].
  intros p. reflexivity.
Qed.

Lemma harrington1986_array (hs ages : list float) :
  length hs = length ages ->
  harrington1986_ra M (VArr hs) (VArr ages) =
  Ok (VArr (zip_with (harrington1986_array_formula M) hs ages)).
Proof.
  intros Hl.
  rewrite <- (map_fst_combine hs ages Hl) at 1.
  rewrite <- (map_snd_combine hs ages Hl) at 2.
  eapply denotes_zip; [unfold harrington1986_ra; pointwise |].
  intros p. reflexivity.
Qed.

(** The branch of Curtis 1974 is chosen for each element on its own. *)
Lemma curtis1974_array (hs ages : list float) :
  length hs = length ages ->
  curtis1974_df M (VArr hs) (VArr ages) =
  Ok (VArr (zip_with (curtis1974_array_formula M) hs ages)).
Proof.
  intros Hl.
  rewrite <- (map_fst_combine hs ages Hl) at 1.
  rewrite <- (map_snd_combine hs ages Hl) at 2.
  eapply denotes_zip; [unfold curtis1974_df; pointwise |].
  intros p. unfold curtis1974_array_formula, select.
  destruct (snd p <=? 100)%float; reflexivity.
Qed.

End Vectorised.

(** * Farr 1984 on arrays *)

Lemma unpack2_rows (rows : list (list float)) :
  length rows <> 2%nat -> unpack2 (Arr2 rows) = Raise ValueError.
Proof.
  destruct rows as [| r1 [| r2 [| r3 rest]]]; cbn [length unpack2];
    intros H; try reflexivity.
  exfalso. apply H. reflexivity.
Qed.

(** Two ages of the table: each result mixes the coefficients of both. *)
Lemma farr_two_ages (df : frame) (h0 h1 k0 k1 a0 b0 a1 b1 : float) :
  rows_of_key df k0 = [[a0; b0]] -> rows_of_key df k1 = [[a1; b1]] ->
  farr_body df (VArr [h0; h1]) (VArr [k0; k1]) =
  Ok (VArr [4.5 + a0 + a1 * (h0 - 4.5); 4.5 + b0 + b1 * (h1 - 4.5)]%float).
Proof.
  intros H0 H1. unfold farr_body, loc_values.
  cbn [filter flat_map]. unfold absent. rewrite H0, H1.
  cbn [app unpack2 bind]. reflexivity.
Qed.

(** C2, where the code departs from it.  [farr1984_ss] unpacks the rows of
    the looked-up matrix as if they were its two columns: on arrays of ages
    of the table it raises [ValueError] unless there are exactly two ages,
    and on two ages it combines the coefficients of both ages in each result,
    which is not what the two calls on the pairs return. *)
Theorem farr_array_unpacking :
  (forall hs ages,
     Forall (fun k => label_in_table (Z_of_float k)) ages ->
     length ages <> 2%nat ->
     farr1984_ss (VArr hs) (VArr ages) = Raise ValueError) /\
  (forall h0 h1 k0 k1 a0 b0 a1 b1,
     rows_of_key coefs k0 = [[a0; b0]] -> rows_of_key coefs k1 = [[a1; b1]] ->
     farr1984_ss (VArr [h0; h1]) (VArr [k0; k1]) =
     Ok (VArr [4.5 + a0 + a1 * (h0 - 4.5);
               4.5 + b0 + b1 * (h1 - 4.5)]%float)) /\
  farr1984_ss (VArr [100; 100]%float) (VArr [50; 60]%float) =
    Ok (VArr [(-276.46100000000001)%float; 92.978000000000009%float]) /\
  farr1984_ss (VNp 100) (VNp 50) = Ok (VNp 100) /\
  farr1984_ss (VNp 100) (VNp 60) = Ok (VNp 89.036000000000001).
Proof.
  split; [| split; [| vm_compute; repeat split; reflexivity]].
  - intros hs ages Hin Hl. rewrite farr_unfold. unfold farr_body, loc_values.
    destruct (loc_array_rows ages Hin) as [Ef Hr].
    rewrite Ef. cbn [bind]. rewrite unpack2_rows by (rewrite Hr; exact Hl).
    reflexivity.
  - intros h0 h1 k0 k1 a0 b0 a1 b1 H0 H1. rewrite farr_unfold.
    exact (farr_two_ages coefs h0 h1 k0 k1 a0 b0 a1 b1 H0 H1).
Qed.

Lemma farr_array_unpacking_witness :
  farr1984_ss (VArr [100; 100; 100]%float) (VArr [50; 60; 70]%float) =
  Raise ValueError.
Proof.
  apply (proj1 farr_array_unpacking).
  - repeat constructor; eexists; (split; [vm_compute; reflexivity | lia]).
  - discriminate.
Defined.

(** The other five functions compute, on two arrays of one length, each
    result from its own pair: the formula of the function, with the square
    numpy takes of an array, a product where the call on two scalars calls
    [pow]. *)
Lemma five_functions_vectorised (M : libm) (hs ages : list float) :
  length hs = length ages ->
  king1966_df M (VArr hs) (VArr ages) =
    Ok (VArr (zip_with king1966_array_formula hs ages)) /\
  cochran1979_gf M (VArr hs) (VArr ages) =
    Ok (VArr (zip_with (cochran1979_array_formula M) hs ages)) /\
  wiley1978_wh M (VArr hs) (VArr ages) =
    Ok (VArr (zip_with wiley1978_array_formula hs ages)) /\
  harrington1986_ra M (VArr hs) (VArr ages) =
    Ok (VArr (zip_with (harrington1986_array_formula M) hs ages)) /\
  curtis1974_df M (VArr hs) (VArr ages) =
    Ok (VArr (zip_with (curtis1974_array_formula M) hs ages)).
Proof.
  intros Hl. repeat split.
  - apply king1966_array, Hl.
  - apply cochran1979_array, Hl.
  - apply wiley1978_array, Hl.
  - apply harrington1986_array, Hl.
  - apply curtis1974_array, Hl.
Qed.

(** * Division by a zero *)

Lemma is_zero_spec (x : float) :
  is_zero x = true -> exists s, Prim2SF x = S754_zero s.
Proof.
  unfold is_zero. rewrite eqb_spec.
  change (Prim2SF zero) with (S754_zero false).
  destruct (Prim2SF x) as [s | s | | s m e]; unfold SFeqb, SFcompare;
    try discriminate.
  - intros _. exists s. reflexivity.
  - destruct s; discriminate.
  - destruct s; discriminate.
Qed.

Lemma div_zero_l (x y : float) :
  sf_zero_or_nan (Prim2SF x) -> sf_zero_or_nan (Prim2SF (x / y)).
Proof.
  rewrite div_spec. unfold SF64div.
  destruct (Prim2SF x) as [s | s | | s m e]; cbn [sf_zero_or_nan];
    intros H; try contradiction;
    destruct (Prim2SF y) as [t | t | | t n f]; exact I.
Qed.

Lemma div_by_zero (x y : float) :
  sf_zero_or_nan (Prim2SF y) -> sf_inf_or_nan (Prim2SF (x / y)) \/
                                 sf_zero_or_nan (Prim2SF x).
Proof.
  rewrite div_spec. unfold SF64div.
  destruct (Prim2SF y) as [t | t | | t n f]; cbn [sf_zero_or_nan];
    intros H; try contradiction;
    destruct (Prim2SF x) as [s | s | | s m e]; cbn; auto.
Qed.

Lemma add_inf_or_nan_r (x y : float) :
  sf_inf_or_nan (Prim2SF y) -> sf_inf_or_nan (Prim2SF (x + y)).
Proof.
  rewrite add_spec. unfold SF64add.
  destruct (Prim2SF y) as [t | t | | t n f]; cbn [sf_inf_or_nan];
    intros H; try contradiction;
    destruct (Prim2SF x) as [s | s | | s m e]; try exact I;
    destruct s, t; exact I.
Qed.

Lemma inf_or_nan_not_finite (x : float) :
  sf_inf_or_nan (Prim2SF x) -> is_finite x = false.
Proof.
  unfold is_finite, is_nan, is_infinity. rewrite !eqb_spec, abs_spec.
  change (Prim2SF infinity) with (S754_infinity false).
  destruct (Prim2SF x) as [s | s | | s m e]; cbn [sf_inf_or_nan];
    intros H; try contradiction; [destruct s |]; reflexivity.
Qed.

Lemma mul_zero_r (c x : float) (s : bool) (m : positive) (e : Z) :
  Prim2SF c = S754_finite s m e -> (exists t, Prim2SF x = S754_zero t) ->
  exists t, Prim2SF (c * x) = S754_zero t.
Proof.
  intros Hc [t Hx]. rewrite mul_spec, Hc, Hx. eexists. reflexivity.
Qed.

Lemma add_zero_r (c x : float) (s : bool) (m : positive) (e : Z) :
  Prim2SF c = S754_finite s m e -> (exists t, Prim2SF x = S754_zero t) ->
  (c + x)%float = c.
Proof.
  intros Hc [t Hx]. apply Prim2SF_inj. rewrite add_spec, Hc, Hx.
  reflexivity.
Qed.

Section KingZero.

Variable M : libm.

(** With a zero age whose square is a zero, the quotient King 1966
    divides 2500 by is a zero or a NaN. *)
Lemma king1966_zero_age (h a : float) :
  is_zero a = true -> is_zero (c_pow M a 2) = true ->
  is_finite (king1966_formula M h a) = false.
Proof.
  intros Ha Hsq. apply is_zero_spec in Ha. apply is_zero_spec in Hsq.
  unfold king1966_formula, king1966_expr.
  set (sq := c_pow M a 2) in *.
  set (d1 := (h - 4.5 + 0.954038 - 0.0558178 * a + 0.000733819 * sq)%float).
  assert (Hd2 : (0.109757 + 0.00792236 * a + 0.000197693 * sq)%float
                = 0.109757%float).
  { rewrite (add_zero_r 0.109757 (0.00792236 * a)%float
               false 7908825348820856 (-56) eq_refl)
      by (eapply mul_zero_r; [vm_compute; reflexivity | exact Ha]).
    apply (add_zero_r 0.109757 _ false 7908825348820856 (-56) eq_refl).
    eapply mul_zero_r; [vm_compute; reflexivity | exact Hsq]. }
  rewrite Hd2.
  apply inf_or_nan_not_finite, add_inf_or_nan_r.
  assert (Hq : sf_zero_or_nan (Prim2SF (sq / d1 / 0.109757)%float)).
  { apply div_zero_l, div_zero_l. destruct Hsq as [t ->]. exact I. }
  destruct (div_by_zero 2500 _ Hq) as [H | H]; [exact H |].
  vm_compute in H. contradiction.
Qed.

End KingZero.

(** * Which inputs make the five closed-form functions raise *)

Lemma length_zip_with {A B C : Type} (f : A -> B -> C) (xs : list A)
  (ys : list B) :
  length xs = length ys -> length (zip_with f xs ys) = length xs.
Proof.
  revert ys. induction xs as [| x xs IH]; intros [| y ys] H; simpl in *;
    try discriminate; [reflexivity |]. rewrite IH; [reflexivity | lia].
Qed.

(** With built-in Python numbers a zero divisor raises, whatever [pow]
    is: the square of a Python zero is computed by the interpreter. *)
Lemma king1966_python_zero_age (M : libm) :
  king1966_df M (VInt 100) (VInt 0) = Raise ZeroDivisionError /\
  king1966_df M (VFloat 100) (VFloat 0) = Raise ZeroDivisionError.
Proof. split; reflexivity. Qed.

(** C1, as the code has it.  On numpy inputs ([numpy.float64] scalars, or
    [float64] arrays of one length) each of the five closed-form functions
    returns a value and never raises; [king1966_df] with a numpy age of zero,
    whose square [pow] gives as a zero, returns an infinity or a NaN. *)
Theorem numpy_inputs_never_raise (M : libm) :
  returns_on_numpy (king1966_df M) /\
  returns_on_numpy (cochran1979_gf M) /\
  returns_on_numpy (wiley1978_wh M) /\
  returns_on_numpy (harrington1986_ra M) /\
  returns_on_numpy (curtis1974_df M) /\
  (forall h a, is_zero a = true -> is_zero (c_pow M a 2) = true ->
     exists v, king1966_df M (VNp h) (VNp a) = Ok (VNp v) /\
               is_finite v = false).
Proof.
  repeat apply conj.
  - intros h a. eexists. apply king1966_np.
  - intros hs ages Hl. eexists. split; [apply king1966_array, Hl |].
    apply length_zip_with, Hl.
  - intros h a. eexists. apply cochran1979_np.
  - intros hs ages Hl. eexists. split; [apply cochran1979_array, Hl |].
    apply length_zip_with, Hl.
  - intros h a. eexists. apply wiley1978_np.
  - intros hs ages Hl. eexists. split; [apply wiley1978_array, Hl |].
    apply length_zip_with, Hl.
  - intros h a. eexists. apply harrington1986_np.
  - intros hs ages Hl. eexists. split; [apply harrington1986_array, Hl |].
    apply length_zip_with, Hl.
  - intros h a. eexists. apply curtis1974_np.
  - intros hs ages Hl. eexists. split; [apply curtis1974_array, Hl |].
    apply length_zip_with, Hl.
  - intros h a Ha Hsq. eexists. split; [apply king1966_np |].
    apply king1966_zero_age; assumption.
Qed.

Lemma numpy_inputs_never_raise_witness :
  exists v, king1966_df sample_libm (VNp 100) (VNp 0) = Ok (VNp v) /\
            is_finite v = false.
Proof.
  apply (proj2 (proj2 (proj2 (proj2 (proj2
           (numpy_inputs_never_raise sample_libm)))))); reflexivity.
Defined.

(** C1, as stated, fails: called with the Python number 0 as age,
    [king1966_df] raises [ZeroDivisionError] instead of returning an
    infinity or a NaN; so do [curtis1974_df], which computes [100 / bh_age]
    for the branch it does not take, [harrington1986_ra] at age -1 and
    [wiley1978_wh] at height 4.5. *)
Lemma python_zero_age_raises :
  king1966_df sample_libm (VInt 100) (VInt 0) = Raise ZeroDivisionError /\
  king1966_df sample_libm (VFloat 100) (VFloat 0) = Raise ZeroDivisionError /\
  curtis1974_df sample_libm (VInt 100) (VInt 0) = Raise ZeroDivisionError /\
  harrington1986_ra sample_libm (VInt 60) (VInt (-1)) =
    Raise ZeroDivisionError /\
  wiley1978_wh sample_libm (VFloat 4.5) (VInt 0) = Raise ZeroDivisionError.
Proof. vm_compute. repeat split; reflexivity. Qed.

(** * King 1966 on every scalar *)

Lemma to_double_2500 : to_double (VInt 2500) = Ok 2500%float.
Proof. vm_compute. reflexivity. Qed.

Lemma to_double_1 : to_double (VInt 1) = Ok 1%float.
Proof. vm_compute. reflexivity. Qed.

(** Case analysis on the tests an evaluation went through. *)
Ltac destruct_scrutinee H :=
  match type of H with
  | context [match ?x with _ => _ end] =>
      lazymatch x with
      | context [match _ with _ => _ end] => fail
      | _ => let E := fresh "E" in
             destruct x eqn:E; cbv beta iota zeta in H; try discriminate H
      end
  end.

(** The same on the goal, for two evaluations that go through the same
    tests. *)
Ltac goal_scrutinee :=
  match goal with
  | |- context [match ?x with _ => _ end] =>
      lazymatch x with
      | context [match _ with _ => _ end] => fail
      | _ => destruct x eqn:?; cbv beta iota zeta
      end
  end.

Ltac converted :=
  cbv beta iota zeta delta [to_double];
  first
    [ reflexivity
    | match goal with
      | E : is_infinity ?x = false |- context [is_infinity ?x] =>
          rewrite E; reflexivity
      end ].

Section KingScalars.

Variable M : libm.

(** Whatever the kinds of the two numbers, a result of [king1966_df] is
    the formula on their doubles and on the double of [bh_age ** 2]. *)
Lemma king1966_scalar (h a v : value) :
  scalar h -> scalar a ->
  king1966_df M h a = Ok v ->
  exists hf af p sq,
    to_double h = Ok hf /\ to_double a = Ok af /\
    py_pow M a 2 = Ok p /\ to_double p = Ok sq /\
    to_double v = Ok (king1966_expr sq hf af).
Proof.
  intros Hh Ha H.
  destruct h as [h | h | h | hs]; [| | | contradiction Hh];
    (destruct a as [a | a | a | ages]; [| | | contradiction Ha]);
    cbv beta iota zeta delta
      [king1966_df lift2 bind ret_value py_add py_sub py_mul py_truediv
       py_pow elementwise is_np orb] in H;
    rewrite ?to_double_2500 in H;
    cbv beta iota zeta delta [to_double] in H;
    repeat destruct_scrutinee H;
    injection H as <-;
    do 4 eexists;
    (split; [converted | split; [converted | split;
       [cbv beta iota delta [py_pow bind];
        first [reflexivity
              | match goal with
                | E : float_pow _ _ _ = Ok _ |- _ => rewrite E; reflexivity
                end]
       | split; [converted | reflexivity]]]]).
Qed.

End KingScalars.

(** C5. [king1966_df] returns the nested quotient of the specification,
    with the divisions taken from left to right: on [numpy.float64] scalars
    with [pow] for the square of the age; element by element on arrays,
    where numpy computes the square as the product [bh_age * bh_age]; on
    any pair of scalars, whenever it returns, with the square as the
    caller's number type computes it.  At height 100 and age 50 the value
    is 100.00796150226624; the other nesting of the divisions would give
    99.987430601210363. *)
Theorem king1966_formula_exact (M : libm) :
  (forall h a,
     king1966_df M (VNp h) (VNp a) =
     Ok (VNp (king1966_expr (c_pow M a 2) h a))) /\
  (forall hs ages, length hs = length ages ->
     king1966_df M (VArr hs) (VArr ages) =
     Ok (VArr (zip_with (fun h a => king1966_expr (a * a) h a) hs ages))) /\
  (forall sq h a,
     king1966_expr sq h a =
     4.5 + 2500 / (sq / ((h - 4.5) + 0.954038 - 0.0558178 * a +
                         0.000733819 * sq)
                   / (0.109757 + 0.00792236 * a + 0.000197693 * sq)))%float /\
  (forall h a v, scalar h -> scalar a -> king1966_df M h a = Ok v ->
     exists hf af p sq,
       to_double h = Ok hf /\ to_double a = Ok af /\
       py_pow M a 2 = Ok p /\ to_double p = Ok sq /\
       to_double v = Ok (king1966_expr sq hf af)) /\
  king1966_df M (VInt 100) (VInt 50) = Ok (VFloat 100.00796150226624) /\
  king1966_expr 2500 100 50 = 100.00796150226624%float /\
  king1966_right_nested 2500 100 50 = 99.987430601210363%float.
Proof.
  split; [exact (king1966_np M) |].
  split; [exact (king1966_array M) |].
  split; [intros sq h a; reflexivity |].
  split; [exact (king1966_scalar M) |].
  split; [| split]; vm_compute; reflexivity.
Qed.

Lemma king1966_formula_exact_witness :
  exists hf af p sq,
    to_double (VFloat 100) = Ok hf /\ to_double (VFloat 50) = Ok af /\
    py_pow sample_libm (VFloat 50) 2 = Ok p /\ to_double p = Ok sq /\
    to_double (VFloat 100.00796150226624) = Ok (king1966_expr sq hf af).
Proof.
  apply (proj1 (proj2 (proj2 (proj2 (king1966_formula_exact sample_libm))))
           (VFloat 100) (VFloat 50) (VFloat 100.00796150226624)).
  - exact I.
  - exact I.
  - vm_compute. reflexivity.
Defined.

(** * Evaluation around a call of [pow] *)

Lemma bind_eval {A B : Type} (c : result A) (a : A) (k : A -> result B) :
  c = Ok a -> bind c k = k a.
Proof. intros ->. reflexivity. Qed.

Lemma py_pow_float (M : libm) (x y : float) (n : positive) :
  float_pow M x n = Ok y -> py_pow M (VFloat x) n = Ok (VFloat y).
Proof. intros E. cbn [py_pow]. rewrite E. reflexivity. Qed.

Section Cochran.

Variable M : libm.

Lemma cochran1979_float (h a : float) :
  cochran1979_gf M (VFloat h) (VFloat a) =
  Ok (VNp (cochran1979_formula M h a)).
Proof. vm_compute. reflexivity. Qed.

Lemma np_log_scalar (a : value) (af : float) :
  np_double a = Ok af -> np_log M (ret_value a) = Ok (VNp (c_log M af)).
Proof.
  intros Ha. unfold np_log, ret_value. cbn [bind].
  destruct a; try discriminate; unfold ufunc; rewrite Ha; reflexivity.
Qed.

(** On any two scalars that convert to doubles. *)
Lemma cochran1979_scalar (h a : value) (hf af : float) :
  to_double h = Ok hf -> np_double a = Ok af ->
  cochran1979_gf M h a = Ok (VNp (cochran1979_formula M hf af)).
Proof.
  intros Hh Ha. unfold cochran1979_gf.
  rewrite !(np_log_scalar a af Ha).
  rewrite (bind_eval _ (VNp (cochran_x1 M (c_log M af))) _)
    by (vm_compute; reflexivity).
  rewrite (bind_eval _ (VNp (cochran_x2 M (c_log M af))) _)
    by (vm_compute; reflexivity).
  rewrite (lift2_sub_float h hf 4.5 Hh).
  destruct (is_np h); vm_compute; reflexivity.
Qed.

(** C7. [cochran1979_gf] computes the two polynomials in [ln(bh_age)]
    with the published coefficients (exponents up to 24, the smallest
    coefficient 1.187e-18) and returns
    [(height - 4.5) * e^x1 - e^x1 * e^x2 + 89.43], in binary64: on
    [numpy.float64] scalars, on Python floats and on any two scalars that
    convert to doubles, with [pow] for every power of the logarithm; and
    element by element on arrays, where numpy computes the square of the
    logarithm as a product and the other powers in its power loop. *)
Theorem cochran1979_formula_exact :
  (forall h a,
     cochran1979_gf M (VNp h) (VNp a) =
     Ok (VNp (cochran1979_formula M h a))) /\
  (forall h a,
     cochran1979_gf M (VFloat h) (VFloat a) =
     Ok (VNp (cochran1979_formula M h a))) /\
  (forall h a hf af, to_double h = Ok hf -> np_double a = Ok af ->
     cochran1979_gf M h a = Ok (VNp (cochran1979_formula M hf af))) /\
  (forall hs ages, length hs = length ages ->
     cochran1979_gf M (VArr hs) (VArr ages) =
     Ok (VArr (zip_with (cochran1979_array_formula M) hs ages))) /\
  (forall h a,
     cochran1979_formula M h a =
     let l := c_log M a in
     let x1 := 3.8886 - 1.8017 * l + 0.2105 * c_pow M l 2 -
               0.0000002885 * c_pow M l 9 +
               0.000000000000000001187 * c_pow M l 24 in
     let x2 := (-0.30935) + 1.2383 * l + 0.001762 * c_pow M l 4 -
               0.0000054 * c_pow M l 9 + 0.0000002046 * c_pow M l 11 -
               0.000000000000404 * c_pow M l 18 in
     (h - 4.5) * c_exp M x1 - c_exp M x1 * c_exp M x2 + 89.43)%float /\
  (forall h a,
     cochran1979_array_formula M h a =
     let l := c_log M a in
     let x1 := 3.8886 - 1.8017 * l + 0.2105 * (l * l) -
               0.0000002885 * v_pow M l 9 +
               0.000000000000000001187 * v_pow M l 24 in
     let x2 := (-0.30935) + 1.2383 * l + 0.001762 * v_pow M l 4 -
               0.0000054 * v_pow M l 9 + 0.0000002046 * v_pow M l 11 -
               0.000000000000404 * v_pow M l 18 in
     (h - 4.5) * c_exp M x1 - c_exp M x1 * c_exp M x2 + 89.43)%float.
Proof.
  split; [exact (cochran1979_np M) |].
  split; [exact cochran1979_float |].
  split; [exact cochran1979_scalar |].
  split; [exact (cochran1979_array M) |].
  split; intros h a; reflexivity.
Qed.

End Cochran.

Lemma cochran1979_formula_exact_witness :
  cochran1979_gf sample_libm (VInt 100) (VInt 50) =
  Ok (VNp (cochran1979_formula sample_libm 100 50)).
Proof.
  apply (proj1 (proj2 (proj2 (cochran1979_formula_exact sample_libm)))
           (VInt 100) (VInt 50) 100%float 50%float);
    vm_compute; reflexivity.
Defined.

(** * Harrington and Curtis 1986 *)

Section Harrington.

Variable M : libm.

Lemma harrington1986_float (h a : float) (v : value) :
  harrington1986_ra M (VFloat h) (VFloat a) = Ok v ->
  exists sq cu icu,
    float_pow M (a + 1) 2 = Ok sq /\ float_pow M (a + 1) 3 = Ok cu /\
    float_pow M (1 / (a + 1)) 3 = Ok icu /\
    v = VFloat (harrington_a (a + 1) sq cu +
                harrington_b (a + 1) icu * h).
Proof.
  intros H.
  cbv beta iota zeta delta
    [harrington1986_ra lift2 bind ret_value py_add py_sub py_mul
     py_truediv py_pow elementwise is_np orb] in H.
  rewrite ?to_double_1 in H.
  cbv beta iota zeta delta [to_double] in H.
  repeat destruct_scrutinee H.
  injection H as <-. do 3 eexists.
  repeat split; eassumption || reflexivity.
Qed.

Lemma harrington1986_int (h a : Z) (v : value) :
  harrington1986_ra M (VInt h) (VInt a) = Ok v ->
  exists q icu,
    long_true_divide 1 (a + 1) = Ok q /\ float_pow M q 3 = Ok icu /\
    v = VFloat (harrington_a (float_of_Z (a + 1))
                  (float_of_Z ((a + 1) ^ 2)) (float_of_Z ((a + 1) ^ 3)) +
                harrington_b (float_of_Z (a + 1)) icu * float_of_Z h).
Proof.
  intros H.
  cbv beta iota zeta delta
    [harrington1986_ra lift2 bind ret_value py_add py_sub py_mul
     py_truediv py_pow elementwise is_np orb] in H.
  rewrite ?to_double_1 in H.
  cbv beta iota zeta delta [to_double] in H.
  repeat destruct_scrutinee H.
  injection H as <-. do 2 eexists.
  repeat split; eassumption || reflexivity.
Qed.

(** The scenario of the specification: height 60, age 20, as Python
    integers.  The total age is 21, its square and cube are exact, and
    [pow] cubes the float [1 / 21]. *)
Lemma harrington1986_60_20 :
  is_infinity (c_pow M (1 / 21) 3) = false ->
  harrington1986_ra M (VInt 60) (VInt 20) =
  Ok (VFloat (harrington_a 21 441 9261 +
              harrington_b 21 (c_pow M (1 / 21) 3) * 60)).
Proof.
  intros H.
  assert (Hp : float_pow M 0.047619047619047616 3 =
               Ok (c_pow M 0.047619047619047616 3)).
  { vm_compute. vm_compute in H. rewrite H. reflexivity. }
  unfold harrington1986_ra.
  rewrite (bind_eval _ (VInt 21) _) by (vm_compute; reflexivity).
  rewrite (bind_eval _ (VFloat (harrington_a 21 441 9261)) _)
    by (vm_compute; reflexivity).
  rewrite (bind_eval (lift2 py_truediv _ _) (VFloat 0.047619047619047616) _)
    by (vm_compute; reflexivity).
  rewrite (py_pow_float M _ _ _ Hp).
  vm_compute. reflexivity.
Qed.

(** C8. [harrington1986_ra] first adds one year to the age, computes [a]
    as a cubic in that age and [b] with the cube of its inverse, and
    returns [a + b * height]: on [numpy.float64] scalars with [pow] for
    the square and the cubes; element by element on arrays, where numpy
    computes the square as a product and the cubes in its power loop; and,
    whenever it returns, on Python floats and integers.  For height 60 and
    age 20 it evaluates [a] and [b] at 21 and returns
    [a(21) + b(21) * 60]. *)
Theorem harrington1986_formula_exact :
  (forall h a,
     harrington1986_ra M (VNp h) (VNp a) =
     Ok (VNp (let age := a + 1 in
              harrington_a age (c_pow M age 2) (c_pow M age 3) +
              harrington_b age (c_pow M (1 / age) 3) * h)%float)) /\
  (forall hs ages, length hs = length ages ->
     harrington1986_ra M (VArr hs) (VArr ages) =
     Ok (VArr (zip_with
                 (fun h a =>
                    let age := a + 1 in
                    harrington_a age (age * age) (v_pow M age 3) +
                    harrington_b age (v_pow M (1 / age) 3) * h)%float
                 hs ages))) /\
  (forall h a v, harrington1986_ra M (VFloat h) (VFloat a) = Ok v ->
     exists sq cu icu,
       float_pow M (a + 1) 2 = Ok sq /\ float_pow M (a + 1) 3 = Ok cu /\
       float_pow M (1 / (a + 1)) 3 = Ok icu /\
       v = VFloat (harrington_a (a + 1) sq cu +
                   harrington_b (a + 1) icu * h)) /\
  (forall h a v, harrington1986_ra M (VInt h) (VInt a) = Ok v ->
     exists q icu,
       long_true_divide 1 (a + 1) = Ok q /\ float_pow M q 3 = Ok icu /\
       v = VFloat (harrington_a (float_of_Z (a + 1))
                     (float_of_Z ((a + 1) ^ 2))
                     (float_of_Z ((a + 1) ^ 3)) +
                   harrington_b (float_of_Z (a + 1)) icu * float_of_Z h)) /\
  (is_infinity (c_pow M (1 / 21) 3) = false ->
   harrington1986_ra M (VInt 60) (VInt 20) =
   Ok (VFloat (harrington_a 21 441 9261 +
               harrington_b 21 (c_pow M (1 / 21) 3) * 60))) /\
  (forall age sq cu icu,
     harrington_a age sq cu =
       54.1850 - 4.61694 * age + 0.11065 * sq - 0.0007633 * cu /\
     harrington_b age icu = 1.25934 - 0.012989 * age + 3.5220 * icu)%float.
Proof.
  split; [exact (harrington1986_np M) |].
  split; [exact (harrington1986_array M) |].
  split; [exact harrington1986_float |].
  split; [exact harrington1986_int |].
  split; [exact harrington1986_60_20 |].
  intros age sq cu icu. split; reflexivity.
Qed.

End Harrington.

Lemma harrington1986_formula_exact_witness :
  harrington1986_ra sample_libm (VInt 60) (VInt 20) =
  Ok (VFloat (harrington_a 21 441 9261 +
              harrington_b 21 (c_pow sample_libm (1 / 21) 3) * 60)).
Proof.
  apply (proj1 (proj2 (proj2 (proj2 (proj2
           (harrington1986_formula_exact sample_libm)))))).
  vm_compute. reflexivity.
Defined.

(** * Curtis, Herman and DeMars 1974 *)

Lemma SFcompare_swap (x y : spec_float) :
  SFcompare x y = Some Lt -> SFcompare y x = Some Gt.
Proof.
  destruct x as [s | s | | s m e], y as [t | t | | t n f];
    unfold SFcompare; try discriminate;
    try (destruct s, t; intros H; (discriminate H || reflexivity));
    try (destruct s; intros H; (discriminate H || reflexivity));
    try (destruct t; intros H; (discriminate H || reflexivity)).
  change (Pos.compare_cont Eq m n) with (m ?= n)%positive.
  change (Pos.compare_cont Eq n m) with (n ?= m)%positive.
  rewrite (Z.compare_antisym e f), (Pos.compare_antisym m n).
  destruct s, t; try discriminate; try reflexivity;
    destruct (e ?= f)%Z; cbn [CompOpp]; try discriminate; try reflexivity;
    destruct (m ?= n)%positive; cbn [CompOpp]; try discriminate; reflexivity.
Qed.

(** [x < y] excludes [y <= x]. *)
Lemma ltb_not_leb (x y : float) :
  (x <? y)%float = true -> (y <=? x)%float = false.
Proof.
  rewrite ltb_spec, leb_spec. unfold SFltb, SFleb.
  destruct (SFcompare (Prim2SF x) (Prim2SF y)) as [[| |] |] eqn:E;
    try discriminate.
  intros _. rewrite (SFcompare_swap _ _ E). reflexivity.
Qed.

Section Curtis.

Variable M : libm.

Local Open Scope float_scope.

(** At age 100 as a [numpy.float64], with [pow] taking a zero to a zero. *)
Lemma curtis1974_np_100 (h : float) :
  c_pow M 0 2 = 0 -> c_pow M 0 7 = 0 ->
  curtis_a_young M 100 = 0 /\ curtis_b_young M 100 = 1 /\
  curtis1974_df M (VNp h) (VNp 100) = Ok (VNp (0 + 1 * (h - 4.5) + 4.5)).
Proof.
  intros H2 H7.
  assert (Ha : curtis_a_young M 100 = 0).
  { unfold curtis_a_young. change (100 - 100) with 0.
    rewrite H2. reflexivity. }
  assert (Hb : curtis_b_young M 100 = 1).
  { unfold curtis_b_young. change (100 - 100) with 0.
    rewrite H7. reflexivity. }
  split; [exact Ha | split; [exact Hb |]].
  rewrite curtis1974_np. unfold curtis1974_formula.
  change (100 <=? 100) with true. cbv iota. rewrite Ha, Hb. reflexivity.
Qed.

(** At age 100 as a Python number the powers of the first branch are
    computed by the interpreter; the second branch is evaluated too, and
    squares -99 with [pow]. *)
Lemma curtis1974_int_100 (h : float) :
  is_infinity (c_pow M 99 2) = false ->
  curtis1974_df M (VFloat h) (VInt 100) =
  Ok (VNp (0 + 1 * (h - 4.5) + 4.5)).
Proof.
  intros H.
  assert (Hp : float_pow M (-99) 2 = Ok (c_pow M 99 2)).
  { vm_compute. vm_compute in H. rewrite H. reflexivity. }
  unfold curtis1974_df.
  rewrite (bind_eval (lift2 py_sub (lift2 py_truediv _ _) _)
             (VFloat (-99)) _) by (vm_compute; reflexivity).
  rewrite (py_pow_float M _ _ _ Hp).
  vm_compute. reflexivity.
Qed.

Lemma curtis1974_float_100 (h : float) :
  is_infinity (c_pow M 99 2) = false ->
  curtis1974_df M (VFloat h) (VFloat 100) =
  Ok (VNp (0 + 1 * (h - 4.5) + 4.5)).
Proof.
  intros H.
  assert (Hp : float_pow M (-99) 2 = Ok (c_pow M 99 2)).
  { vm_compute. vm_compute in H. rewrite H. reflexivity. }
  unfold curtis1974_df.
  rewrite (bind_eval (lift2 py_sub (lift2 py_truediv _ _) _)
             (VFloat (-99)) _) by (vm_compute; reflexivity).
  rewrite (py_pow_float M _ _ _ Hp).
  vm_compute. reflexivity.
Qed.

(** With a Python [float] as age: the sequence of calls and tests of
    [curtis1974_python], whatever scalar the height is. *)
Lemma curtis1974_python_floats (h : value) (hf a : float) :
  to_double h = Ok hf ->
  curtis1974_df M h (VFloat a) = curtis1974_python M hf a.
Proof.
  intros Hh. unfold curtis1974_df.
  rewrite (lift2_sub_float h hf 4.5 Hh).
  destruct (is_np h);
    cbv beta iota zeta delta
      [curtis1974_python lift2 bind ret_value py_add py_sub
       py_mul py_truediv py_pow elementwise is_np orb np_where np_exp
       np_log10 np_power ufunc py_le_int where_values np_double select
       curtis_python_young curtis_python_old to_double];
    change (float_le_Z a 100) with (a <=? 100);
    change (float_of_Z 100) with 100;
    change (is_infinity 100) with false; cbv iota;
    repeat goal_scrutinee; reflexivity.
Qed.

(** With a Python [int] as age. *)
Lemma curtis1974_python_ints (h : value) (hf : float) (z : Z) :
  to_double h = Ok hf ->
  curtis1974_df M h (VInt z) = curtis1974_python_int M hf z.
Proof.
  intros Hh. unfold curtis1974_df.
  rewrite (lift2_sub_float h hf 4.5 Hh).
  destruct (is_np h);
    cbv beta iota zeta delta
      [curtis1974_python_int lift2 bind ret_value py_add py_sub
       py_mul py_truediv py_pow elementwise is_np orb np_where np_exp
       np_log10 np_power ufunc py_le_int where_values np_double select
       curtis_python_young curtis_python_old to_double];
    change (float_of_Z 100) with 100;
    change (is_infinity 100) with false; cbv iota;
    repeat goal_scrutinee; reflexivity.
Qed.

(** What a call with a Python [float] age returns: the branch the
    comparison of the age with 100 selects. *)
Lemma curtis1974_float_branch (h : value) (hf a : float) (v : value) :
  to_double h = Ok hf -> curtis1974_df M h (VFloat a) = Ok v ->
  exists sq p7 sq',
    float_pow M (100 - a) 2 = Ok sq /\ float_pow M (100 - a) 7 = Ok p7 /\
    float_pow M (100 / a - 100) 2 = Ok sq' /\
    v = VNp (if a <=? 100
             then 0.010006 * sq +
                  (1 + 0.00549779 * (100 - a) + 1.46842e-14 * p7) *
                  (hf - 4.5) + 4.5
             else 7.66772 * c_exp M (0.95 * sq') +
                  (1 - 0.730948 * c_pow M (c_log10 M a - 2) 0.80) *
                  (hf - 4.5) + 4.5).
Proof.
  intros Hh H. rewrite (curtis1974_python_floats h hf a Hh) in H.
  unfold curtis1974_python in H.
  destruct (float_pow M (100 - a) 2) as [sq |]; [| discriminate H].
  cbn [bind] in H. destruct (a =? 0); [discriminate H |].
  destruct (float_pow M (100 / a - 100) 2) as [sq' |]; [| discriminate H].
  cbn [bind] in H.
  destruct (float_pow M (100 - a) 7) as [p7 |]; [| discriminate H].
  cbn [bind] in H. injection H as <-.
  exists sq, p7, sq'. repeat split; reflexivity.
Qed.

(** The same for a Python [int] age: the comparison is one of integers,
    and the powers of [100 - bh_age] are exact. *)
Lemma curtis1974_int_branch (h : value) (hf : float) (z : Z) (v : value) :
  to_double h = Ok hf -> curtis1974_df M h (VInt z) = Ok v ->
  exists q sq',
    long_true_divide 100 z = Ok q /\ float_pow M (q - 100) 2 = Ok sq' /\
    v = VNp (if (z <=? 100)%Z
             then 0.010006 * float_of_Z ((100 - z) ^ 2) +
                  (1 + 0.00549779 * float_of_Z (100 - z) +
                   1.46842e-14 * float_of_Z ((100 - z) ^ 7)) *
                  (hf - 4.5) + 4.5
             else 7.66772 * c_exp M (0.95 * sq') +
                  (1 - 0.730948 *
                       c_pow M (c_log10 M (float_of_Z z) - 2) 0.80) *
                  (hf - 4.5) + 4.5).
Proof.
  intros Hh H. rewrite (curtis1974_python_ints h hf z Hh) in H.
  unfold curtis1974_python_int in H.
  cbv beta iota zeta delta [to_double np_double] in H.
  destruct (is_infinity (float_of_Z ((100 - z) ^ 2))); [discriminate H |].
  cbn [bind] in H.
  destruct (long_true_divide 100 z) as [q |]; [| discriminate H].
  cbn [bind] in H.
  destruct (float_pow M (q - 100) 2) as [sq' |] eqn:Esq;
    [| discriminate H].
  cbn [bind] in H.
  destruct (is_infinity (float_of_Z (100 - z))); [discriminate H |].
  cbn [bind] in H.
  destruct (is_infinity (float_of_Z ((100 - z) ^ 7))); [discriminate H |].
  cbn [bind] in H.
  destruct ((- 2 ^ 63 <=? z) && (z <? 2 ^ 64))%Z; [| discriminate H].
  cbn [bind] in H. injection H as <-.
  exists q, sq'. split; [reflexivity | split; [exact Esq | reflexivity]].
Qed.

(** C6. [curtis1974_df] is piecewise on the age: up to 100, 100
    included, [a = 0.010006 * (100 - bh_age)^2] and
    [b = 1 + 0.00549779 * (100 - bh_age) + 1.46842e-14 * (100 - bh_age)^7];
    above 100, [a = 7.66772 * exp(0.95 * (100 / bh_age - 100)^2)] and
    [b = 1 - 0.730948 * (log10(bh_age) - 2)^0.80]; the result is
    [a + b * (height - 4.5) + 4.5] in both branches.  On [numpy.float64]
    scalars the powers are calls of [pow]; on arrays the branch is taken
    element by element, numpy computes the two squares as products and
    the two other powers in its power loop;
    with a Python [float] or [int] as age the comparison with 100 selects
    the branch after both have been evaluated, so the call goes through the
    powers and the division of both and can raise in either.  At age 100
    exactly, [a] is 0 and [b] is 1. *)
Theorem curtis1974_piecewise :
  (forall h a,
     curtis1974_df M (VNp h) (VNp a) =
     Ok (VNp (curtis1974_formula M h a))) /\
  (forall hs ages, length hs = length ages ->
     curtis1974_df M (VArr hs) (VArr ages) =
     Ok (VArr (zip_with (curtis1974_array_formula M) hs ages))) /\
  (forall h a, (a <=? 100) = true ->
     curtis1974_formula M h a =
       0.010006 * c_pow M (100 - a) 2 +
       (1 + 0.00549779 * (100 - a) + 1.46842e-14 * c_pow M (100 - a) 7) *
       (h - 4.5) + 4.5 /\
     curtis1974_array_formula M h a =
       0.010006 * ((100 - a) * (100 - a)) +
       (1 + 0.00549779 * (100 - a) + 1.46842e-14 * v_pow M (100 - a) 7) *
       (h - 4.5) + 4.5) /\
  (forall h a, (100 <? a) = true ->
     curtis1974_formula M h a =
       7.66772 * c_exp M (0.95 * c_pow M (100 / a - 100) 2) +
       (1 - 0.730948 * c_pow M (c_log10 M a - 2) 0.80) * (h - 4.5) + 4.5 /\
     curtis1974_array_formula M h a =
       7.66772 * c_exp M (0.95 * ((100 / a - 100) * (100 / a - 100))) +
       (1 - 0.730948 * v_pow M (c_log10 M a - 2) 0.80) * (h - 4.5) + 4.5) /\
  (forall h hf a, to_double h = Ok hf ->
     curtis1974_df M h (VFloat a) = curtis1974_python M hf a) /\
  (forall h hf z, to_double h = Ok hf ->
     curtis1974_df M h (VInt z) = curtis1974_python_int M hf z) /\
  (forall h hf a v,
     to_double h = Ok hf -> curtis1974_df M h (VFloat a) = Ok v ->
     exists sq p7 sq',
       float_pow M (100 - a) 2 = Ok sq /\
       float_pow M (100 - a) 7 = Ok p7 /\
       float_pow M (100 / a - 100) 2 = Ok sq' /\
       v = VNp (if a <=? 100
                then 0.010006 * sq +
                     (1 + 0.00549779 * (100 - a) + 1.46842e-14 * p7) *
                     (hf - 4.5) + 4.5
                else 7.66772 * c_exp M (0.95 * sq') +
                     (1 - 0.730948 * c_pow M (c_log10 M a - 2) 0.80) *
                     (hf - 4.5) + 4.5)) /\
  (forall h hf z v,
     to_double h = Ok hf -> curtis1974_df M h (VInt z) = Ok v ->
     exists q sq',
       long_true_divide 100 z = Ok q /\
       float_pow M (q - 100) 2 = Ok sq' /\
       v = VNp (if (z <=? 100)%Z
                then 0.010006 * float_of_Z ((100 - z) ^ 2) +
                     (1 + 0.00549779 * float_of_Z (100 - z) +
                      1.46842e-14 * float_of_Z ((100 - z) ^ 7)) *
                     (hf - 4.5) + 4.5
                else 7.66772 * c_exp M (0.95 * sq') +
                     (1 - 0.730948 *
                          c_pow M (c_log10 M (float_of_Z z) - 2) 0.80) *
                     (hf - 4.5) + 4.5)) /\
  (forall h, c_pow M 0 2 = 0 -> c_pow M 0 7 = 0 ->
     curtis_a_young M 100 = 0 /\ curtis_b_young M 100 = 1 /\
     curtis1974_df M (VNp h) (VNp 100) =
     Ok (VNp (0 + 1 * (h - 4.5) + 4.5))) /\
  (forall h, is_infinity (c_pow M 99 2) = false ->
     curtis1974_df M (VFloat h) (VInt 100) =
       Ok (VNp (0 + 1 * (h - 4.5) + 4.5)) /\
     curtis1974_df M (VFloat h) (VFloat 100) =
       Ok (VNp (0 + 1 * (h - 4.5) + 4.5))).
Proof.
  split; [exact (curtis1974_np M) |].
  split; [exact (curtis1974_array M) |].
  split; [| split].
  - intros h a Ha. unfold curtis1974_formula, curtis1974_array_formula.
    rewrite Ha. split; reflexivity.
  - intros h a Ha. unfold curtis1974_formula, curtis1974_array_formula.
    rewrite (ltb_not_leb 100 a Ha). split; reflexivity.
  - split; [exact curtis1974_python_floats |].
    split; [exact curtis1974_python_ints |].
    split; [exact curtis1974_float_branch |].
    split; [exact curtis1974_int_branch |].
    split; [exact curtis1974_np_100 |].
    intros h H. split;
      [apply curtis1974_int_100 | apply curtis1974_float_100]; exact H.
Qed.

End Curtis.

Lemma curtis1974_piecewise_witness :
  curtis1974_df sample_libm (VFloat 100) (VInt 100) =
    Ok (VNp (0 + 1 * (100 - 4.5) + 4.5)%float) /\
  curtis1974_df sample_libm (VFloat 100) (VFloat 100) =
    Ok (VNp (0 + 1 * (100 - 4.5) + 4.5)%float).
Proof.
  apply (proj2 (proj2 (proj2 (proj2 (proj2 (proj2 (proj2 (proj2 (proj2
           (curtis1974_piecewise sample_libm)))))))))).
  vm_compute. reflexivity.
Defined.

(** * Operands of different shapes *)

Lemma zip_with_repeat_r {A B C : Type} (f : A -> B -> C) (xs : list A)
  (c : B) :
  zip_with f xs (repeat c (length xs)) = map (fun x => f x c) xs.
Proof. induction xs as [| x xs IH]; simpl; [| rewrite IH]; reflexivity. Qed.

Lemma zip_with_repeat_l {A B C : Type} (f : A -> B -> C) (c : A)
  (ys : list B) :
  zip_with f (repeat c (length ys)) ys = map (f c) ys.
Proof. induction ys as [| y ys IH]; simpl; [| rewrite IH]; reflexivity. Qed.

Lemma broadcast_one_r (f : float -> float -> float) (xs : list float)
  (c : float) :
  broadcast f xs [c] = Ok (VArr (map (fun x => f x c) xs)).
Proof.
  unfold broadcast, bshape. cbn [length].
  destruct (Nat.eqb_spec (length xs) 1) as [E | E].
  - destruct xs as [| x [| y xs]]; try discriminate. reflexivity.
  - cbn [Nat.eqb]. rewrite stretch_same. unfold stretch. cbn [length].
    destruct (Nat.eqb_spec 1 (length xs)) as [E' | _];
      [exfalso; apply E; symmetry; exact E' |].
    rewrite zip_with_repeat_r. reflexivity.
Qed.

Lemma broadcast_one_l (f : float -> float -> float) (c : float)
  (ys : list float) :
  broadcast f [c] ys = Ok (VArr (map (f c) ys)).
Proof.
  unfold broadcast, bshape. cbn [length].
  destruct (Nat.eqb_spec 1 (length ys)) as [E | E].
  - destruct ys as [| y [| z ys]]; try discriminate. reflexivity.
  - cbn [Nat.eqb]. rewrite stretch_same. unfold stretch. cbn [length].
    destruct (Nat.eqb_spec 1 (length ys)) as [E' | _];
      [exfalso; apply E; exact E' |].
    rewrite zip_with_repeat_l. reflexivity.
Qed.

Lemma numpy_op_add : numpy_op py_add PrimFloat.add.
Proof. intros [] [] H; try discriminate H; reflexivity. Qed.

Lemma numpy_op_sub : numpy_op py_sub PrimFloat.sub.
Proof. intros [] [] H; try discriminate H; reflexivity. Qed.

Lemma numpy_op_mul : numpy_op py_mul PrimFloat.mul.
Proof. intros [] [] H; try discriminate H; reflexivity. Qed.

Lemma numpy_op_div : numpy_op py_truediv PrimFloat.div.
Proof. intros [] [] H; try discriminate H; reflexivity. Qed.

Lemma python_op_add : python_op py_add PrimFloat.add.
Proof. intros a b. reflexivity. Qed.

Lemma python_op_sub : python_op py_sub PrimFloat.sub.
Proof. intros a b. reflexivity. Qed.

Lemma python_op_mul : python_op py_mul PrimFloat.mul.
Proof. intros a b. reflexivity. Qed.

(** The cases of a shape that is not a Python float. *)
Ltac by_shape s Hv Hs :=
  destruct s; try (exfalso; apply Hs; reflexivity);
  cbn [shaped] in Hv; [subst | destruct Hv as [? [-> ?]] ..].

Ltac const_result :=
  eexists; split; [reflexivity |]; cbn [shaped cshaped];
  first
    [ rewrite map_map; reflexivity
    | eexists; split; [reflexivity |];
      let p := fresh "p" in
      let Hp := fresh "Hp" in
      intros p Hp;
      repeat match goal with
             | H : const_on _ _ _ |- _ => rewrite (H p Hp); clear H
             end;
      reflexivity ].

Section Broadcasting.

Variable ps : list (float * float).

Lemma map_const_r (f : float -> float -> float)
  (g1 g2 : float * float -> float) (c : float) :
  const_on ps g2 c ->
  map (fun x => f x c) (map g1 ps) = map (fun p => f (g1 p) (g2 p)) ps.
Proof.
  intros Hc. rewrite map_map. apply map_ext_in. intros p Hp.
  rewrite (Hc p Hp). reflexivity.
Qed.

Lemma map_const_l (f : float -> float -> float)
  (g1 g2 : float * float -> float) (c : float) :
  const_on ps g1 c ->
  map (f c) (map g2 ps) = map (fun p => f (g1 p) (g2 p)) ps.
Proof.
  intros Hc. rewrite map_map. apply map_ext_in. intros p Hp.
  rewrite (Hc p Hp). reflexivity.
Qed.

Lemma const_on_op (f : float -> float -> float)
  (g1 g2 : float * float -> float) (c1 c2 : float) :
  const_on ps g1 c1 -> const_on ps g2 c2 ->
  const_on ps (fun p => f (g1 p) (g2 p)) (f c1 c2).
Proof. intros H1 H2 p Hp. rewrite (H1 p Hp), (H2 p Hp). reflexivity. Qed.

(** Broadcasting two operands of which one is a numpy value. *)
Lemma shaped_elementwise (f : float -> float -> float) (s1 s2 : shape)
  (v1 v2 : value) (g1 g2 : float * float -> float) :
  shaped ps s1 v1 g1 -> shaped ps s2 v2 g2 -> join s1 s2 <> Py ->
  exists v, elementwise f v1 v2 = Ok v /\
            shaped ps (join s1 s2) v (fun p => f (g1 p) (g2 p)).
Proof.
  intros H1 H2 Hj.
  destruct s1, s2; cbn [shaped join] in *;
    try (exfalso; apply Hj; reflexivity);
    repeat match goal with
           | H : exists c, _ /\ _ |- _ => destruct H as [? [? ?]]
           end; subst; cbn [elementwise to_double bind is_np orb];
    rewrite ?broadcast_one_r, ?broadcast_one_l;
    rewrite ?broadcast_same by (rewrite !length_map; reflexivity);
    rewrite ?zip_with_map; cbn [map];
    (eexists; split; [reflexivity |]);
    first [ reflexivity
          | f_equal; apply map_const_r; assumption
          | f_equal; apply map_const_l; assumption
          | eexists; split; [reflexivity | apply const_on_op; assumption] ].
Qed.

Lemma shaped_is_py (s : shape) (v : value) (g : float * float -> float) :
  shaped ps s v g -> s <> Py -> is_py v = false.
Proof.
  destruct s; cbn [shaped]; intros H Hs;
    try (exfalso; apply Hs; reflexivity).
  - subst v. reflexivity.
  - destruct H as [c [-> _]]. reflexivity.
  - destruct H as [c [-> _]]. reflexivity.
Qed.

Lemma join_not_py (s1 s2 : shape) :
  join s1 s2 <> Py -> s1 <> Py \/ s2 <> Py.
Proof.
  destruct s1, s2; cbn [join]; intros H;
    try (left; discriminate); try (right; discriminate).
  exfalso. apply H. reflexivity.
Qed.

Lemma yields_ret (s : shape) (v : value) (g : float * float -> float) :
  shaped ps s v g -> yields ps s (ret_value v) g.
Proof. intros H. exists v. split; [reflexivity | exact H]. Qed.

Lemma yields_lit (c : float) :
  yields ps Py (ret_value (VFloat c)) (fun _ => c).
Proof.
  apply yields_ret. exists c. split; [reflexivity |]. intros p _. reflexivity.
Qed.

Lemma yields_bind (s s' : shape) (e : result value)
  (k : value -> result value) (g G : float * float -> float) :
  yields ps s e g ->
  (forall v, shaped ps s v g -> yields ps s' (k v) G) ->
  yields ps s' (bind e k) G.
Proof. intros [v [-> Hv]] Hk. cbn [bind]. apply Hk, Hv. Qed.

Lemma yields_lift2 (op : value -> value -> result value)
  (f : float -> float -> float) (s1 s2 : shape) (a b : result value)
  (g1 g2 : float * float -> float) :
  numpy_op op f ->
  yields ps s1 a g1 -> yields ps s2 b g2 ->
  python_op op f \/ join s1 s2 <> Py ->
  yields ps (join s1 s2) (lift2 op a b) (fun p => f (g1 p) (g2 p)).
Proof.
  intros Hop [v1 [-> H1]] [v2 [-> H2]] Hside. unfold lift2. cbn [bind].
  destruct s1, s2;
    try (rewrite Hop;
         [apply (shaped_elementwise f _ _ v1 v2 g1 g2 H1 H2); discriminate |];
         first [ rewrite (shaped_is_py _ v1 g1 H1) by discriminate;
                 reflexivity
               | rewrite (shaped_is_py _ v2 g2 H2) by discriminate;
                 apply andb_false_r ]).
  destruct Hside as [Hpy | Hj]; [| exfalso; apply Hj; reflexivity].
  destruct H1 as [c1 [-> Hc1]], H2 as [c2 [-> Hc2]]. rewrite Hpy.
  eexists; split; [reflexivity |]. eexists; split; [reflexivity |].
  apply const_on_op; assumption.
Qed.

(** An integer literal with a numpy value. *)
Lemma yields_int_l (op : value -> value -> result value)
  (f : float -> float -> float) (k : Z) (c : float) (s : shape)
  (b : result value) (g : float * float -> float) :
  numpy_op op f -> to_double (VInt k) = Ok c ->
  yields ps s b g -> s <> Py ->
  yields ps s (lift2 op (ret_value (VInt k)) b) (fun p => f c (g p)).
Proof.
  intros Hop Hk [v [-> Hv]] Hs. unfold lift2, ret_value. cbn [bind].
  rewrite Hop by (rewrite (shaped_is_py _ v g Hv Hs); apply andb_false_r).
  by_shape s Hv Hs; cbn [elementwise]; rewrite Hk; cbn [bind is_np orb];
    const_result.
Qed.

Lemma yields_int_r (op : value -> value -> result value)
  (f : float -> float -> float) (k : Z) (c : float) (s : shape)
  (a : result value) (g : float * float -> float) :
  numpy_op op f -> to_double (VInt k) = Ok c ->
  yields ps s a g -> s <> Py ->
  yields ps s (lift2 op a (ret_value (VInt k))) (fun p => f (g p) c).
Proof.
  intros Hop Hk [v [-> Hv]] Hs. unfold lift2, ret_value. cbn [bind].
  rewrite Hop by (rewrite (shaped_is_py _ v g Hv Hs); reflexivity).
  by_shape s Hv Hs; cbn [elementwise]; rewrite Hk; cbn [bind is_np orb map];
    const_result.
Qed.

Lemma yields_pow (M : libm) (s : shape) (v : value)
  (g : float * float -> float) (n : positive) :
  shaped ps s v g -> s <> Py ->
  yields ps s (py_pow M v n) (fun p => shape_pow M s (g p) n).
Proof.
  intros Hv Hs.
  by_shape s Hv Hs; unfold shape_pow; cbn [py_pow map is_array];
    const_result.
Qed.

(** A numpy function makes a numpy value of a Python float. *)
Lemma yields_ufunc (f : float -> float) (s : shape) (v : value)
  (g : float * float -> float) :
  shaped ps s v g -> yields ps (join s Np) (ufunc f v) (fun p => f (g p)).
Proof.
  intros Hv.
  destruct s; cbn [shaped] in Hv;
    [subst v | destruct Hv as [y [-> Hy]] ..];
    cbn [ufunc np_double bind map join]; const_result.
Qed.

(** A power with a float exponent: [pow] on a scalar, the power loop on
    an array. *)
Lemma yields_np_power (M : libm) (s : shape) (a : result value)
  (g : float * float -> float) (y : float) :
  yields ps s a g ->
  yields ps (join s Np) (np_power M a y)
         (fun p => if is_array s then v_pow M (g p) y
                   else c_pow M (g p) y).
Proof.
  intros [v [-> Hv]]. unfold np_power. cbn [bind].
  destruct s; cbn [shaped] in Hv;
    [subst v | destruct Hv as [c [-> Hc]] ..];
    cbn [ufunc np_double bind map join is_array]; const_result.
Qed.

Lemma cyields_le (s : shape) (a : result value)
  (g : float * float -> float) (k : Z) (y : float) :
  yields ps s a g -> s <> Py -> to_double (VInt k) = Ok y ->
  cyields ps s (v <- a ;; py_le_int v k) (fun p => (g p <=? y)%float).
Proof.
  intros [v [-> Hv]] Hs Hk. cbn [bind].
  by_shape s Hv Hs; cbn [py_le_int]; rewrite Hk; cbn [bind map];
    const_result.
Qed.

Lemma yields_where (s sx sy : shape) (c : result cond) (x y : result value)
  (b : float * float -> bool) (gx gy : float * float -> float) :
  cyields ps s c b -> yields ps sx x gx -> yields ps sy y gy ->
  sx = s -> sy = s -> s <> Py ->
  yields ps s (np_where c x y) (fun p => select (b p) (gx p) (gy p)).
Proof.
  intros [cv [-> Hc]] [xv [-> Hx]] [yv [-> Hy]] -> -> Hs.
  destruct s; try (exfalso; apply Hs; reflexivity);
    cbn [shaped cshaped] in Hc, Hx, Hy.
  - subst. exists (VArr (map (fun p => select (b p) (gx p) (gy p)) ps)).
    split; [| reflexivity]. apply (den_where ps); reflexivity.
  - destruct Hc as [b0 [-> Hb]], Hx as [x0 [-> Hx]], Hy as [y0 [-> Hy]].
    unfold np_where. cbn [bind where_values]. const_result.
  - destruct Hc as [b0 [-> Hb]], Hx as [x0 [-> Hx]], Hy as [y0 [-> Hy]].
    unfold np_where. cbn [bind where_values np_double]. const_result.
Qed.

Lemma yields_conv (s s' : shape) (r : result value)
  (g g' : float * float -> float) :
  yields ps s r g -> s = s' -> (forall p, g p = g' p) ->
  yields ps s' r g'.
Proof.
  intros H <- Hg.
  assert (E : g = g') by (apply functional_extensionality; exact Hg).
  rewrite <- E. exact H.
Qed.

End Broadcasting.

Create HintDb numpy_ops.
#[export] Hint Resolve numpy_op_add numpy_op_sub numpy_op_mul numpy_op_div
  python_op_add python_op_sub python_op_mul : numpy_ops.

(** Walks an expression whose operands have known shapes. *)
Ltac not_py := cbn [join]; discriminate.

Ltac side :=
  first [ left; solve [auto with numpy_ops] | right; not_py ].

Ltac shapes :=
  lazymatch goal with
  | |- yields _ _ (ret_value (VFloat _)) _ => apply yields_lit
  | |- yields _ _ (ret_value _) _ => eapply yields_ret; eassumption
  | |- yields _ _ (lift2 _ (ret_value (VInt _)) _) _ =>
      eapply yields_int_l;
      [auto with numpy_ops | literal | shapes | not_py]
  | |- yields _ _ (lift2 _ _ (ret_value (VInt _))) _ =>
      eapply yields_int_r;
      [auto with numpy_ops | literal | shapes | not_py]
  | |- yields _ _ (lift2 _ _ _) _ =>
      eapply yields_lift2; [auto with numpy_ops | shapes | shapes | side]
  | |- yields _ _ (py_pow _ _ _) _ =>
      eapply yields_pow; [eassumption | not_py]
  | |- yields _ _ (ufunc _ _) _ => eapply yields_ufunc; eassumption
  | |- yields _ _ (np_log _ _) _ => unfold np_log; shapes
  | |- yields _ _ (np_exp _ _) _ => unfold np_exp; shapes
  | |- yields _ _ (np_log10 _ _) _ => unfold np_log10; shapes
  | |- yields _ _ (np_power _ _ _) _ => eapply yields_np_power; shapes
  | |- yields _ _ (np_where _ _ _) _ =>
      eapply yields_where;
      [ eapply cyields_le; [shapes | not_py | literal]
      | shapes | shapes | reflexivity | reflexivity | not_py ]
  | |- yields _ _ (bind _ _) _ =>
      eapply yields_bind;
      [shapes | let v := fresh "v" in let Hv := fresh "Hv" in
                intros v Hv; cbv beta; shapes]
  end.

Ltac broadcasting :=
  let ps := fresh "ps" in let sh := fresh "sh" in let sa := fresh "sa" in
  let height := fresh "height" in let age := fresh "age" in
  let Hh := fresh "Hh" in let Ha := fresh "Ha" in let Hs := fresh "Hs" in
  intros ps sh sa height age Hh Ha Hs;
  destruct sh, sa; try (exfalso; apply Hs; reflexivity);
  (eapply yields_conv; [shapes | reflexivity |]).

Lemma heights_shaped (hs : list float) (a : float) :
  shaped (map (fun h => (h, a)) hs) Full (VArr hs) fst.
Proof.
  cbn [shaped]. rewrite map_map. cbn [fst]. rewrite map_id. reflexivity.
Qed.

Lemma ages_shaped (h : float) (ages : list float) :
  shaped (map (pair h) ages) Full (VArr ages) snd.
Proof.
  cbn [shaped]. rewrite map_map. cbn [snd]. rewrite map_id. reflexivity.
Qed.

Lemma age_const (hs : list float) (a : float) :
  const_on (map (fun h => (h, a)) hs) snd a.
Proof.
  intros p Hp. apply in_map_iff in Hp. destruct Hp as [h [<- _]].
  reflexivity.
Qed.

Lemma height_const (h : float) (ages : list float) :
  const_on (map (pair h) ages) fst h.
Proof.
  intros p Hp. apply in_map_iff in Hp. destruct Hp as [a [<- _]].
  reflexivity.
Qed.

Lemma yields_full (ps : list (float * float)) (r : result value)
  (G : float * float -> float) :
  yields ps Full r G -> r = Ok (VArr (map G ps)).
Proof. intros [v [-> ->]]. reflexivity. Qed.

Lemma yields_np (h a : float) (r : result value)
  (G : float * float -> float) :
  yields [(h, a)] Np r G -> r = Ok (VNp (G (h, a))).
Proof.
  intros [v [-> [c [-> Hc]]]]. rewrite (Hc (h, a)) by (left; reflexivity).
  reflexivity.
Qed.

Lemma broadcasts_cases (f : value -> value -> result value)
  (F G : float -> float -> float) :
  broadcasts f F G -> broadcast_cases f F G.
Proof.
  intros Hf. unfold broadcast_cases.
  split; [| split; [| split; [| split; [| split]]]].
  - intros hs a.
    rewrite (yields_full _ _ _
               (Hf _ Full Np _ _ (heights_shaped hs a)
                   (ex_intro _ a (conj eq_refl (age_const hs a)))
                   ltac:(discriminate))).
    rewrite map_map. reflexivity.
  - intros h ages.
    rewrite (yields_full _ _ _
               (Hf _ Np Full _ _
                   (ex_intro _ h (conj eq_refl (height_const h ages)))
                   (ages_shaped h ages) ltac:(discriminate))).
    rewrite map_map. reflexivity.
  - intros h ages.
    rewrite (yields_full _ _ _
               (Hf _ Py Full _ _
                   (ex_intro _ h (conj eq_refl (height_const h ages)))
                   (ages_shaped h ages) ltac:(discriminate))).
    rewrite map_map. reflexivity.
  - intros h ages.
    rewrite (yields_full _ _ _
               (Hf _ One Full _ _
                   (ex_intro _ h (conj eq_refl (height_const h ages)))
                   (ages_shaped h ages) ltac:(discriminate))).
    rewrite map_map. reflexivity.
  - intros hs a.
    rewrite (yields_full _ _ _
               (Hf _ Full One _ _ (heights_shaped hs a)
                   (ex_intro _ a (conj eq_refl (age_const hs a)))
                   ltac:(discriminate))).
    rewrite map_map. reflexivity.
  - intros h a.
    assert (Hc : forall (A : Type) (g : float * float -> A),
               const_on [(h, a)] g (g (h, a))).
    { intros A g p [<- | []]. reflexivity. }
    exact (yields_np h a _ _
             (Hf [(h, a)] Py Np _ _
                 (ex_intro _ h (conj eq_refl (Hc _ fst)))
                 (ex_intro _ a (conj eq_refl (Hc _ snd)))
                 ltac:(discriminate))).
Qed.

Section Broadcasts.

Variable M : libm.

Lemma king1966_shaped :
  broadcasts (king1966_df M) (king1966_formula M) king1966_array_formula.
Proof.
  unfold king1966_df. broadcasting; intros p; reflexivity.
Qed.

Lemma wiley1978_shaped :
  broadcasts (wiley1978_wh M) (wiley1978_formula M) wiley1978_array_formula.
Proof.
  unfold wiley1978_wh. broadcasting; intros p; reflexivity.
Qed.

Lemma harrington1986_shaped :
  broadcasts (harrington1986_ra M) (harrington1986_formula M)
    (harrington1986_array_formula M).
Proof.
  unfold harrington1986_ra. broadcasting; intros p; reflexivity.
Qed.

Lemma curtis1974_shaped :
  broadcasts (curtis1974_df M) (curtis1974_formula M)
    (curtis1974_array_formula M).
Proof.
  unfold curtis1974_df. broadcasting; intros p;
    unfold curtis1974_formula, curtis1974_array_formula, select;
    cbn [is_array]; destruct (snd p <=? 100)%float; reflexivity.
Qed.

(** Cochran 1979 takes the logarithm of the age first, which makes a numpy
    value of a Python float. *)
Lemma cochran1979_shaped (ps : list (float * float)) (sh sa : shape)
  (height age : value) :
  shaped ps sh height fst -> shaped ps sa age snd ->
  yields ps (join sh (join sa Np)) (cochran1979_gf M height age)
         (fun p => if is_array sa
                   then cochran1979_array_formula M (fst p) (snd p)
                   else cochran1979_formula M (fst p) (snd p)).
Proof.
  intros Hh Ha. unfold cochran1979_gf.
  destruct sh, sa;
    (eapply yields_conv; [shapes | reflexivity | intros p; reflexivity]).
Qed.

End Broadcasts.

(** * Arrays whose lengths do not broadcast *)

Lemma bshape_none_sym (n m : nat) : bshape n m = None -> bshape m n = None.
Proof.
  unfold bshape. rewrite (Nat.eqb_sym m n).
  destruct (Nat.eqb n m), (Nat.eqb n 1), (Nat.eqb m 1);
    intros H; try discriminate H; reflexivity.
Qed.

Lemma al_var (n : nat) (xs : list float) :
  length xs = n -> arr_len n (ret_value (VArr xs)).
Proof. intros H. exists xs. split; [reflexivity | exact H]. Qed.

Lemma al_lit_l (op : value -> value -> result value)
  (f : float -> float -> float) (v : value) (c : float) (n : nat)
  (b : result value) :
  float_op op f -> to_double v = Ok c -> arr_len n b ->
  arr_len n (lift2 op (ret_value v) b).
Proof.
  intros [_ Hop] Hv [ys [-> Hl]]. unfold lift2, ret_value. cbn [bind].
  rewrite Hop. exists (map (f c) ys). rewrite length_map. split; [| exact Hl].
  destruct v; try discriminate Hv; cbn [elementwise]; rewrite Hv;
    reflexivity.
Qed.

Lemma al_lit_r (op : value -> value -> result value)
  (f : float -> float -> float) (w : value) (c : float) (n : nat)
  (a : result value) :
  float_op op f -> arr_len n a -> to_double w = Ok c ->
  arr_len n (lift2 op a (ret_value w)).
Proof.
  intros [Hop _] [xs [-> Hl]] Hw. unfold lift2, ret_value. cbn [bind].
  rewrite Hop. exists (map (fun x => f x c) xs). rewrite length_map.
  split; [| exact Hl].
  destruct w; try discriminate Hw; cbn [elementwise]; rewrite Hw;
    reflexivity.
Qed.

Lemma al_op (op : value -> value -> result value)
  (f : float -> float -> float) (n : nat) (a b : result value) :
  float_op op f -> arr_len n a -> arr_len n b -> arr_len n (lift2 op a b).
Proof.
  intros [Hop _] [xs [-> Hx]] [ys [-> Hy]]. unfold lift2. cbn [bind].
  rewrite Hop. cbn [elementwise].
  rewrite broadcast_same by (rewrite Hx, Hy; reflexivity).
  eexists. split; [reflexivity |].
  rewrite length_zip_with by (rewrite Hx, Hy; reflexivity). exact Hx.
Qed.

Lemma al_pow (M : libm) (n : nat) (a : result value) (k : positive) :
  arr_len n a -> arr_len n (v <- a ;; py_pow M v k).
Proof.
  intros [xs [-> Hx]]. cbn [bind py_pow]. eexists. split; [reflexivity |].
  rewrite length_map. exact Hx.
Qed.

Lemma al_ufunc (f : float -> float) (n : nat) (a : result value) :
  arr_len n a -> arr_len n (v <- a ;; ufunc f v).
Proof.
  intros [xs [-> Hx]]. cbn [bind ufunc]. eexists. split; [reflexivity |].
  rewrite length_map. exact Hx.
Qed.

Lemma al_np_power (M : libm) (n : nat) (a : result value) (y : float) :
  arr_len n a -> arr_len n (np_power M a y).
Proof.
  intros [xs [-> Hx]]. unfold np_power. cbn [bind ufunc].
  eexists. split; [reflexivity |]. rewrite length_map. exact Hx.
Qed.

Lemma length_zip_with3 {A B C D : Type} (f : A -> B -> C -> D)
  (xs : list A) (ys : list B) (zs : list C) :
  length xs = length ys -> length ys = length zs ->
  length (zip_with3 f xs ys zs) = length xs.
Proof.
  revert ys zs. induction xs as [| x xs IH]; intros [| y ys] [| z zs];
    simpl; intros H1 H2; try discriminate; [reflexivity |].
  rewrite IH; [reflexivity | lia | lia].
Qed.

Lemma where3_same (bs : list bool) (xs ys : list float) :
  length bs = length xs -> length xs = length ys ->
  where3 bs xs ys = Ok (VArr (zip_with3 select bs xs ys)).
Proof.
  intros H1 H2. unfold where3, bshape.
  rewrite H1, Nat.eqb_refl, H2, Nat.eqb_refl.
  rewrite stretch_same. rewrite <- H2. rewrite stretch_same.
  rewrite <- H1. rewrite stretch_same. reflexivity.
Qed.

Lemma al_where (n : nat) (a x y : result value) (k : Z) (c : float) :
  arr_len n a -> to_double (VInt k) = Ok c ->
  arr_len n x -> arr_len n y ->
  arr_len n (np_where (v <- a ;; py_le_int v k) x y).
Proof.
  intros [zs [-> Hz]] Hk [xs [-> Hx]] [ys [-> Hy]].
  unfold np_where. cbn [bind py_le_int]. rewrite Hk.
  cbn [bind where_values].
  rewrite where3_same by (rewrite ?length_map; congruence).
  eexists. split; [reflexivity |].
  rewrite length_zip_with3; rewrite ?length_map; congruence.
Qed.

Lemma al_bind (n : nat) (e : result value) (k : value -> result value)
  (r : result value) :
  arr_len n e -> (forall xs, length xs = n -> k (VArr xs) = r) ->
  bind e k = r.
Proof. intros [xs [-> Hx]] Hk. cbn [bind]. apply Hk, Hx. Qed.

(** The operation that meets the two lengths. *)
Lemma mismatch_here (op : value -> value -> result value)
  (f : float -> float -> float) (n m : nat) (a b : result value) :
  float_op op f -> arr_len n a -> arr_len m b -> bshape n m = None ->
  lift2 op a b = Raise ValueError.
Proof.
  intros [Hop _] [xs [-> Hx]] [ys [-> Hy]] Hn. unfold lift2. cbn [bind].
  rewrite Hop. cbn [elementwise]. unfold broadcast. rewrite Hx, Hy, Hn.
  reflexivity.
Qed.

Lemma raise_l (op : value -> value -> result value) (a b : result value)
  (e : exn) :
  a = Raise e -> lift2 op a b = Raise e.
Proof. intros ->. reflexivity. Qed.

Lemma raise_r_lit (op : value -> value -> result value) (v : value)
  (b : result value) (e : exn) :
  b = Raise e -> lift2 op (ret_value v) b = Raise e.
Proof. intros ->. reflexivity. Qed.

Lemma raise_r_arr (op : value -> value -> result value) (n : nat)
  (a b : result value) (e : exn) :
  arr_len n a -> b = Raise e -> lift2 op a b = Raise e.
Proof. intros [xs [-> _]] ->. reflexivity. Qed.

(** The length of an expression over arrays of one length. *)
Ltac lens :=
  lazymatch goal with
  | |- arr_len _ (ret_value (VArr _)) =>
      apply al_var; first [eassumption | reflexivity]
  | |- arr_len _ (lift2 _ (ret_value (VFloat _)) _) =>
      eapply al_lit_l; [auto with float_ops | literal | lens]
  | |- arr_len _ (lift2 _ (ret_value (VInt _)) _) =>
      eapply al_lit_l; [auto with float_ops | literal | lens]
  | |- arr_len _ (lift2 _ _ (ret_value (VFloat _))) =>
      eapply al_lit_r; [auto with float_ops | lens | literal]
  | |- arr_len _ (lift2 _ _ (ret_value (VInt _))) =>
      eapply al_lit_r; [auto with float_ops | lens | literal]
  | |- arr_len _ (lift2 _ _ _) =>
      eapply al_op; [auto with float_ops | lens | lens]
  | |- arr_len _ (np_log _ _) => unfold np_log; lens
  | |- arr_len _ (np_exp _ _) => unfold np_exp; lens
  | |- arr_len _ (np_log10 _ _) => unfold np_log10; lens
  | |- arr_len _ (np_power _ _ _) => apply al_np_power; lens
  | |- arr_len _ (np_where _ _ _) =>
      eapply al_where; [lens | literal | lens | lens]
  | |- arr_len _ (bind _ (fun v => py_pow _ v _)) => apply al_pow; lens
  | |- arr_len _ (bind _ (fun v => ufunc _ v)) => apply al_ufunc; lens
  end.

(** Finds the operation that meets the two lengths and follows the
    exception out of the expression. *)
Ltac mismatch Hn :=
  lazymatch goal with
  | |- lift2 _ (ret_value (VFloat _)) _ = Raise _ =>
      apply raise_r_lit; mismatch Hn
  | |- lift2 _ (ret_value (VInt _)) _ = Raise _ =>
      apply raise_r_lit; mismatch Hn
  | |- lift2 _ _ _ = Raise _ =>
      first
        [ eapply mismatch_here;
          [ auto with float_ops | lens | lens
          | first [exact Hn | exact (bshape_none_sym _ _ Hn)] ]
        | eapply raise_r_arr; [lens | mismatch Hn]
        | apply raise_l; mismatch Hn ]
  | |- bind _ _ = Raise _ =>
      eapply al_bind;
      [ lens
      | let xs := fresh "xs" in
        let Hxs := fresh "Hxs" in
        intros xs Hxs; cbv beta; mismatch Hn ]
  end.

Section Mismatch.

Variable M : libm.

Lemma king1966_refuses : refuses_shapes (king1966_df M).
Proof. intros hs ages Hn. unfold king1966_df. mismatch Hn. Qed.

Lemma cochran1979_refuses : refuses_shapes (cochran1979_gf M).
Proof. intros hs ages Hn. unfold cochran1979_gf. mismatch Hn. Qed.

Lemma wiley1978_refuses : refuses_shapes (wiley1978_wh M).
Proof. intros hs ages Hn. unfold wiley1978_wh. mismatch Hn. Qed.

Lemma harrington1986_refuses : refuses_shapes (harrington1986_ra M).
Proof. intros hs ages Hn. unfold harrington1986_ra. mismatch Hn. Qed.

Lemma curtis1974_refuses : refuses_shapes (curtis1974_df M).
Proof. intros hs ages Hn. unfold curtis1974_df. mismatch Hn. Qed.

End Mismatch.

(** * A NaN operand *)

Lemma Prim2SF_nan : Prim2SF nan = S754_nan.
Proof. reflexivity. Qed.

Lemma add_nan_l (x : float) : (nan + x)%float = nan.
Proof. apply Prim2SF_inj. rewrite add_spec, Prim2SF_nan. reflexivity. Qed.

Lemma add_nan_r (x : float) : (x + nan)%float = nan.
Proof.
  apply Prim2SF_inj. rewrite add_spec, Prim2SF_nan.
  destruct (Prim2SF x); reflexivity.
Qed.

Lemma sub_nan_l (x : float) : (nan - x)%float = nan.
Proof. apply Prim2SF_inj. rewrite sub_spec, Prim2SF_nan. reflexivity. Qed.

Lemma sub_nan_r (x : float) : (x - nan)%float = nan.
Proof.
  apply Prim2SF_inj. rewrite sub_spec, Prim2SF_nan.
  destruct (Prim2SF x); reflexivity.
Qed.

Lemma mul_nan_l (x : float) : (nan * x)%float = nan.
Proof. apply Prim2SF_inj. rewrite mul_spec, Prim2SF_nan. reflexivity. Qed.

Lemma mul_nan_r (x : float) : (x * nan)%float = nan.
Proof.
  apply Prim2SF_inj. rewrite mul_spec, Prim2SF_nan.
  destruct (Prim2SF x); reflexivity.
Qed.

Lemma div_nan_l (x : float) : (nan / x)%float = nan.
Proof. apply Prim2SF_inj. rewrite div_spec, Prim2SF_nan. reflexivity. Qed.

Lemma div_nan_r (x : float) : (x / nan)%float = nan.
Proof.
  apply Prim2SF_inj. rewrite div_spec, Prim2SF_nan.
  destruct (Prim2SF x); reflexivity.
Qed.

(** A NaN operand makes a NaN. *)
Ltac nan_rules :=
  repeat first
    [ rewrite add_nan_l | rewrite add_nan_r | rewrite sub_nan_l
    | rewrite sub_nan_r | rewrite mul_nan_l | rewrite mul_nan_r
    | rewrite div_nan_l | rewrite div_nan_r ].

Lemma nth_error_zip_with {A B C : Type} (f : A -> B -> C) (xs : list A)
  (ys : list B) (i : nat) (x : A) (y : B) :
  nth_error xs i = Some x -> nth_error ys i = Some y ->
  nth_error (zip_with f xs ys) i = Some (f x y).
Proof.
  revert ys i. induction xs as [| x0 xs IH]; intros [| y0 ys] [| i];
    simpl; intros Hx Hy; try discriminate.
  - injection Hx as ->. injection Hy as ->. reflexivity.
  - apply IH; assumption.
Qed.

Lemma nth_error_same_length {A B : Type} (xs : list A) (ys : list B)
  (i : nat) (x : A) :
  length xs = length ys -> nth_error xs i = Some x ->
  exists y, nth_error ys i = Some y.
Proof.
  intros Hl Hx.
  destruct (nth_error ys i) as [y |] eqn:E; [exists y; reflexivity |].
  apply nth_error_None in E.
  assert (Hi : (i < length xs)%nat)
    by (apply nth_error_Some; rewrite Hx; discriminate).
  lia.
Qed.

(** From the formulas of a function, on scalars and on arrays, to its
    behaviour on a NaN. *)
Lemma nan_height_from_formula (f : value -> value -> result value)
  (F G : float -> float -> float) :
  (forall h a, f (VNp h) (VNp a) = Ok (VNp (F h a))) ->
  (forall hs ages, length hs = length ages ->
     f (VArr hs) (VArr ages) = Ok (VArr (zip_with G hs ages))) ->
  (forall a, F nan a = nan) -> (forall a, G nan a = nan) ->
  nan_height_to_nan f.
Proof.
  intros Hnp Harr HF HG. split.
  - intros a. rewrite Hnp, HF. reflexivity.
  - intros hs ages i Hl Hi.
    destruct (nth_error_same_length hs ages i nan Hl Hi) as [a Ha].
    exists (zip_with G hs ages). split; [apply Harr, Hl |].
    split; [apply length_zip_with, Hl |].
    rewrite (nth_error_zip_with G hs ages i nan a Hi Ha), HG. reflexivity.
Qed.

Lemma nan_age_from_formula (f : value -> value -> result value)
  (F G : float -> float -> float) :
  (forall h a, f (VNp h) (VNp a) = Ok (VNp (F h a))) ->
  (forall hs ages, length hs = length ages ->
     f (VArr hs) (VArr ages) = Ok (VArr (zip_with G hs ages))) ->
  (forall h, F h nan = nan) -> (forall h, G h nan = nan) ->
  nan_age_to_nan f.
Proof.
  intros Hnp Harr HF HG. split.
  - intros h. rewrite Hnp, HF. reflexivity.
  - intros hs ages i Hl Hi.
    destruct (nth_error_same_length ages hs i nan (eq_sym Hl) Hi) as [h Hh].
    exists (zip_with G hs ages). split; [apply Harr, Hl |].
    split; [apply length_zip_with, Hl |].
    rewrite (nth_error_zip_with G hs ages i h nan Hh Hi), HG. reflexivity.
Qed.

Section NanHeight.

Variable M : libm.

Local Open Scope float_scope.

Lemma king1966_formula_nan_height (a : float) :
  king1966_formula M nan a = nan.
Proof.
  unfold king1966_formula, king1966_expr.
  nan_rules. reflexivity.
Qed.

Lemma cochran1979_formula_nan_height (a : float) :
  cochran1979_formula M nan a = nan.
Proof.
  unfold cochran1979_formula. cbv zeta.
  nan_rules. reflexivity.
Qed.

Lemma wiley1978_formula_nan_height (a : float) :
  wiley1978_formula M nan a = nan.
Proof.
  unfold wiley1978_formula, wiley1978_expr.
  nan_rules. reflexivity.
Qed.

Lemma harrington1986_formula_nan_height (a : float) :
  harrington1986_formula M nan a = nan.
Proof.
  unfold harrington1986_formula. cbv zeta.
  nan_rules. reflexivity.
Qed.

Lemma curtis1974_formula_nan_height (a : float) :
  curtis1974_formula M nan a = nan.
Proof.
  unfold curtis1974_formula.
  destruct (a <=? 100); nan_rules; reflexivity.
Qed.

Lemma king1966_array_formula_nan_height (a : float) :
  king1966_array_formula nan a = nan.
Proof.
  unfold king1966_array_formula, king1966_expr.
  nan_rules. reflexivity.
Qed.

Lemma cochran1979_array_formula_nan_height (a : float) :
  cochran1979_array_formula M nan a = nan.
Proof.
  unfold cochran1979_array_formula. cbv zeta.
  nan_rules. reflexivity.
Qed.

Lemma wiley1978_array_formula_nan_height (a : float) :
  wiley1978_array_formula nan a = nan.
Proof.
  unfold wiley1978_array_formula, wiley1978_expr.
  nan_rules. reflexivity.
Qed.

Lemma harrington1986_array_formula_nan_height (a : float) :
  harrington1986_array_formula M nan a = nan.
Proof.
  unfold harrington1986_array_formula. cbv zeta.
  nan_rules. reflexivity.
Qed.

Lemma curtis1974_array_formula_nan_height (a : float) :
  curtis1974_array_formula M nan a = nan.
Proof.
  unfold curtis1974_array_formula.
  destruct (a <=? 100); nan_rules; reflexivity.
Qed.

Lemma farr_nan_height (h key : value) :
  to_double h = Ok nan -> age_in_table key ->
  farr1984_ss h key = Ok (VNp nan).
Proof.
  intros Hh [z [Ek Hz]]. destruct (entries_in_range z Hz) as [a2 [b2 He]].
  rewrite (farr_scalar h key z a2 b2 nan Ek He Hh).
  nan_rules. reflexivity.
Qed.

End NanHeight.

Section NanAge.

Variable M : libm.

Local Open Scope float_scope.

Lemma king1966_formula_nan_age (h : float) :
  king1966_formula M h nan = nan.
Proof. unfold king1966_formula, king1966_expr. nan_rules. reflexivity. Qed.

Lemma wiley1978_formula_nan_age (h : float) :
  wiley1978_formula M h nan = nan.
Proof. unfold wiley1978_formula, wiley1978_expr. nan_rules. reflexivity. Qed.

Lemma harrington1986_formula_nan_age (h : float) :
  harrington1986_formula M h nan = nan.
Proof.
  unfold harrington1986_formula, harrington_a, harrington_b. cbv zeta.
  nan_rules. reflexivity.
Qed.

Lemma king1966_array_formula_nan_age (h : float) :
  king1966_array_formula h nan = nan.
Proof.
  unfold king1966_array_formula, king1966_expr. nan_rules. reflexivity.
Qed.

Lemma wiley1978_array_formula_nan_age (h : float) :
  wiley1978_array_formula h nan = nan.
Proof.
  unfold wiley1978_array_formula, wiley1978_expr. nan_rules. reflexivity.
Qed.

Lemma harrington1986_array_formula_nan_age (h : float) :
  harrington1986_array_formula M h nan = nan.
Proof.
  unfold harrington1986_array_formula, harrington_a, harrington_b.
  cbv zeta. nan_rules. reflexivity.
Qed.

Hypothesis HM : quiet_nan M.

Lemma pow_nan (y : float) : (y =? 0) = false -> c_pow M nan y = nan.
Proof. apply (proj1 HM). Qed.

Lemma exp_nan : c_exp M nan = nan.
Proof. apply (proj1 (proj2 HM)). Qed.

Lemma log_nan : c_log M nan = nan.
Proof. apply (proj1 (proj2 (proj2 HM))). Qed.

Lemma log10_nan : c_log10 M nan = nan.
Proof. apply (proj2 (proj2 (proj2 HM))). Qed.

Lemma cochran1979_formula_nan_age (h : float) :
  cochran1979_formula M h nan = nan.
Proof.
  unfold cochran1979_formula, cochran_x1, cochran_x2. cbv zeta.
  rewrite log_nan. nan_rules. rewrite exp_nan. nan_rules. reflexivity.
Qed.

Lemma curtis1974_formula_nan_age (h : float) :
  curtis1974_formula M h nan = nan.
Proof.
  unfold curtis1974_formula.
  change (nan <=? 100) with false. cbv iota.
  unfold curtis_a_old. nan_rules. rewrite pow_nan by reflexivity.
  nan_rules. rewrite exp_nan. nan_rules. reflexivity.
Qed.

Lemma cochran1979_array_formula_nan_age (h : float) :
  cochran1979_array_formula M h nan = nan.
Proof.
  unfold cochran1979_array_formula, cochran_x1_array, cochran_x2_array.
  cbv zeta.
  rewrite log_nan. nan_rules. rewrite exp_nan. nan_rules. reflexivity.
Qed.

Lemma curtis1974_array_formula_nan_age (h : float) :
  curtis1974_array_formula M h nan = nan.
Proof.
  unfold curtis1974_array_formula.
  change (nan <=? 100) with false. cbv iota.
  unfold curtis_a_old_array. nan_rules. rewrite exp_nan. nan_rules.
  reflexivity.
Qed.

End NanAge.

Lemma sample_pow_nan (y : float) : sample_pow nan y = nan.
Proof.
  unfold sample_pow. destruct (Z_of_float y) as [[| n | n] |];
    try reflexivity.
  induction n as [| n IH] using Pos.peano_ind.
  - reflexivity.
  - rewrite Pos.iter_succ, IH. reflexivity.
Qed.

Lemma sample_libm_quiet_nan : quiet_nan sample_libm.
Proof.
  split; [| repeat split].
  intros y _. apply sample_pow_nan.
Qed.

(** * Evaluation on Python floats *)

Lemma lift2_add_float (a b : float) :
  lift2 py_add (Ok (VFloat a)) (Ok (VFloat b)) = Ok (VFloat (a + b)).
Proof. reflexivity. Qed.

Lemma lift2_sub_floats (a b : float) :
  lift2 py_sub (Ok (VFloat a)) (Ok (VFloat b)) = Ok (VFloat (a - b)).
Proof. reflexivity. Qed.

Lemma lift2_mul_float (a b : float) :
  lift2 py_mul (Ok (VFloat a)) (Ok (VFloat b)) = Ok (VFloat (a * b)).
Proof. reflexivity. Qed.

Lemma lift2_div_float (a b : float) :
  lift2 py_truediv (Ok (VFloat a)) (Ok (VFloat b)) =
  if (b =? 0)%float then Raise ZeroDivisionError else Ok (VFloat (a / b)).
Proof. reflexivity. Qed.

Lemma lift2_div_int_float (k : Z) (c b : float) :
  to_double (VInt k) = Ok c ->
  lift2 py_truediv (Ok (VInt k)) (Ok (VFloat b)) =
  if (b =? 0)%float then Raise ZeroDivisionError else Ok (VFloat (c / b)).
Proof.
  intros Hk. unfold lift2. cbn [bind py_truediv]. rewrite Hk. reflexivity.
Qed.

Lemma lift2_mul_int_float (k : Z) (c b : float) :
  to_double (VInt k) = Ok c ->
  lift2 py_mul (Ok (VInt k)) (Ok (VFloat b)) = Ok (VFloat (c * b)).
Proof.
  intros Hk. unfold lift2. cbn [bind py_mul elementwise]. rewrite Hk.
  reflexivity.
Qed.

Lemma lift2_mul_float_int (a c : float) (k : Z) :
  to_double (VInt k) = Ok c ->
  lift2 py_mul (Ok (VFloat a)) (Ok (VInt k)) = Ok (VFloat (a * c)).
Proof.
  intros Hk. unfold lift2. cbn [bind py_mul elementwise to_double].
  cbn [to_double] in Hk. rewrite Hk. reflexivity.
Qed.

Lemma py_pow_float_raise (M : libm) (a : float) (n : positive) (e : exn) :
  float_pow M a n = Raise e -> py_pow M (VFloat a) n = Raise e.
Proof. intros E. cbn [py_pow]. rewrite E. reflexivity. Qed.

Ltac py_floats :=
  repeat first
    [ rewrite lift2_add_float | rewrite lift2_sub_floats
    | rewrite lift2_mul_float ].

Section PythonEval.

Variable M : libm.

Lemma king1966_python_floats (h a : float) :
  king1966_df M (VFloat h) (VFloat a) = king1966_python M h a.
Proof.
  unfold king1966_df, king1966_python, ret_value.
  destruct (float_pow M a 2) as [sq | e] eqn:E; cbn [bind].
  - rewrite !(py_pow_float M a sq 2 E). py_floats.
    rewrite lift2_div_float.
    destruct (_ =? 0)%float; [reflexivity |].
    rewrite lift2_div_float.
    destruct (_ =? 0)%float; [reflexivity |].
    rewrite (lift2_div_int_float 2500 2500 _ to_double_2500).
    unfold king1966_expr.
    destruct (_ =? 0)%float; [reflexivity |].
    py_floats. reflexivity.
  - rewrite (py_pow_float_raise M a 2 e E). reflexivity.
Qed.

Lemma wiley1978_python_floats (h a : float) :
  wiley1978_wh M (VFloat h) (VFloat a) = wiley1978_python M h a.
Proof.
  unfold wiley1978_wh, wiley1978_python, ret_value.
  destruct (float_pow M a 2) as [sq | e] eqn:E; cbn [bind].
  - rewrite !(py_pow_float M a sq 2 E). py_floats.
    rewrite lift2_div_float.
    destruct (_ =? 0)%float; [reflexivity |].
    rewrite (lift2_mul_int_float 2500 2500 _ to_double_2500).
    reflexivity.
  - rewrite (py_pow_float_raise M a 2 e E). reflexivity.
Qed.

End PythonEval.

(** * Harrington and Curtis on Python numbers: the zero divisors *)

Lemma lift2_add_float_int (a c : float) (k : Z) :
  to_double (VInt k) = Ok c ->
  lift2 py_add (Ok (VFloat a)) (Ok (VInt k)) = Ok (VFloat (a + c)).
Proof.
  intros Hk. unfold lift2. cbn [bind py_add elementwise to_double].
  cbn [to_double] in Hk. rewrite Hk. reflexivity.
Qed.

Lemma float_pow_raises (M : libm) (x : float) (n : positive) (e : exn) :
  float_pow M x n = Raise e -> e = OverflowError.
Proof.
  unfold float_pow. cbv zeta. intros H.
  repeat destruct_scrutinee H. injection H as <-. reflexivity.
Qed.

(** The end of a case analysis on an evaluation that raised
    [ZeroDivisionError]: the test of a division is the only source. *)
Ltac zero_divisor H :=
  first
    [ match goal with
      | E : (_ =? 0)%Z = true |- _ => apply Z.eqb_eq in E; lia
      end
    | match goal with
      | E : float_pow _ _ _ = Raise ?e |- _ =>
          apply float_pow_raises in E; subst e; discriminate H
      end ].

Section PythonEval2.

Variable M : libm.

Lemma harrington1986_python_floats (h a : float) :
  harrington1986_ra M (VFloat h) (VFloat a) = harrington1986_python M h a.
Proof.
  unfold harrington1986_ra, harrington1986_python, ret_value.
  rewrite (lift2_add_float_int a 1 1 to_double_1). cbv zeta. cbn [bind].
  destruct (float_pow M (a + 1) 2) as [sq | e] eqn:E2; cbn [bind].
  - rewrite (py_pow_float M _ sq 2 E2). py_floats.
    destruct (float_pow M (a + 1) 3) as [cu | e] eqn:E3; cbn [bind].
    + rewrite (py_pow_float M _ cu 3 E3). py_floats. cbn [bind].
      rewrite (lift2_div_int_float 1 1 _ to_double_1).
      destruct (a + 1 =? 0)%float; [reflexivity |]. cbn [bind].
      destruct (float_pow M (1 / (a + 1)) 3) as [icu | e] eqn:E4.
      * rewrite (py_pow_float M _ icu 3 E4). py_floats. reflexivity.
      * rewrite (py_pow_float_raise M _ 3 e E4). reflexivity.
    + rewrite (py_pow_float_raise M _ 3 e E3). reflexivity.
  - rewrite (py_pow_float_raise M _ 2 e E2). reflexivity.
Qed.

Lemma harrington1986_int_age (h : value) (a : Z) :
  harrington1986_ra M h (VInt a) = Raise ZeroDivisionError <->
  a = (-1)%Z.
Proof.
  split.
  - intros H.
    destruct h as [h | h | h | hs];
    cbv beta iota zeta delta
      [harrington1986_ra lift2 bind ret_value py_add py_sub py_mul
       py_truediv py_pow elementwise is_np orb long_true_divide] in H;
    rewrite ?to_double_1 in H;
    cbv beta iota zeta delta [to_double] in H;
    repeat destruct_scrutinee H;
    zero_divisor H.
  - intros ->. vm_compute. reflexivity.
Qed.

Lemma curtis1974_int_age (h : value) (a : Z) :
  curtis1974_df M h (VInt a) = Raise ZeroDivisionError <-> a = 0%Z.
Proof.
  split.
  - intros H.
    destruct h as [h | h | h | hs];
    cbv beta iota zeta delta
      [curtis1974_df lift2 bind ret_value py_add py_sub py_mul
       py_truediv py_pow elementwise is_np orb long_true_divide
       np_where np_exp np_log10 np_power ufunc py_le_int where_values
       np_double] in H;
    cbv beta iota zeta delta [to_double] in H;
    repeat destruct_scrutinee H;
    zero_divisor H.
  - intros ->. vm_compute. reflexivity.
Qed.

End PythonEval2.

(** * Rounding never makes a NaN *)

Lemma shr_1_nonneg (mrs : shr_record) :
  (0 <= shr_m mrs)%Z -> (0 <= shr_m (shr_1 mrs))%Z.
Proof.
  destruct mrs as [m r s]. cbn [shr_m]. intros Hm.
  destruct m as [| p | p]; [| | lia]; cbn [shr_1 shr_m]; [lia |].
  destruct p; cbn [shr_m]; lia.
Qed.

Lemma iter_pos_shr_1_nonneg (p : positive) (mrs : shr_record) :
  (0 <= shr_m mrs)%Z -> (0 <= shr_m (iter_pos shr_1 p mrs))%Z.
Proof.
  revert mrs. induction p as [p IH | p IH |]; intros mrs Hm; cbn [iter_pos].
  - apply IH, IH, shr_1_nonneg, Hm.
  - apply IH, IH, Hm.
  - apply shr_1_nonneg, Hm.
Qed.

Lemma shr_fexp_nonneg (m e : Z) (l : location) :
  (0 <= m)%Z -> (0 <= shr_m (fst (shr_fexp prec emax m e l)))%Z.
Proof.
  intros Hm. unfold shr_fexp, shr.
  assert (H0 : (0 <= shr_m (shr_record_of_loc m l))%Z)
    by (destruct l as [| []]; exact Hm).
  destruct (fexp prec emax (Zdigits2 m + e) - e)%Z; cbn [fst];
    [exact H0 | apply iter_pos_shr_1_nonneg, H0 | exact H0].
Qed.

Lemma round_nearest_even_nonneg (m : Z) (l : location) :
  (0 <= m)%Z -> (0 <= round_nearest_even m l)%Z.
Proof.
  intros Hm. destruct l as [| []]; cbn [round_nearest_even];
    try destruct (Z.even m); lia.
Qed.

Lemma binary_round_aux_not_nan (sx : bool) (mx ex : Z) (lx : location) :
  (0 <= mx)%Z -> binary_round_aux prec emax sx mx ex lx <> S754_nan.
Proof.
  intros Hm. unfold binary_round_aux.
  pose proof (shr_fexp_nonneg mx ex lx Hm) as H1.
  destruct (shr_fexp prec emax mx ex lx) as [mrs' e']. cbn [fst] in H1.
  pose proof (shr_fexp_nonneg _ e' loc_Exact
                (round_nearest_even_nonneg _ (loc_of_shr_record mrs') H1))
    as H2.
  destruct (shr_fexp prec emax _ e' loc_Exact) as [mrs'' e''].
  cbn [fst] in H2.
  destruct (shr_m mrs'') as [| p | p]; [discriminate | | lia].
  destruct (e'' <=? emax - prec)%Z; discriminate.
Qed.

Lemma binary_normalize_not_nan (m e : Z) (s : bool) :
  binary_normalize prec emax m e s <> S754_nan.
Proof.
  unfold binary_normalize, binary_round.
  destruct m as [| p | p]; [discriminate | |];
    destruct (shl_align _ _ _) as [mz ez];
    apply binary_round_aux_not_nan; lia.
Qed.

(** * The tests of [PrimFloat], on the specification of floats *)

Lemma SFcompare_refl (x : spec_float) :
  x <> S754_nan -> SFcompare x x = Some Eq.
Proof.
  destruct x as [s | s | | s m e]; intros H; cbn [SFcompare];
    [reflexivity | destruct s; reflexivity | contradiction H; reflexivity |].
  rewrite Z.compare_refl.
  change (Pos.compare_cont Eq m m) with (m ?= m)%positive.
  rewrite Pos.compare_refl. destruct s; reflexivity.
Qed.

Lemma is_nan_sf (x : float) : is_nan x = sf_is_nan (Prim2SF x).
Proof.
  unfold is_nan. rewrite eqb_spec. unfold SFeqb.
  destruct (Prim2SF x) as [s | s | | s m e] eqn:E;
    try (rewrite SFcompare_refl by discriminate); reflexivity.
Qed.

Lemma eqb_zero_sf (x : float) : (x =? 0)%float = sf_is_zero (Prim2SF x).
Proof.
  rewrite eqb_spec. change (Prim2SF 0) with (S754_zero false).
  unfold SFeqb. destruct (Prim2SF x) as [s | s | | s m e];
    cbn [SFcompare sf_is_zero]; try reflexivity; destruct s; reflexivity.
Qed.

Lemma is_finite_sf (x : float) : is_finite x = sf_is_finite (Prim2SF x).
Proof.
  unfold is_finite, is_infinity. rewrite is_nan_sf, eqb_spec, abs_spec.
  change (Prim2SF infinity) with (S754_infinity false). unfold SFeqb.
  destruct (Prim2SF x) as [s | s | | s m e]; reflexivity.
Qed.

(** Adding or subtracting a finite number keeps a number a number. *)
Lemma add_not_nan (x y : float) :
  is_nan x = false -> is_finite y = true -> is_nan (x + y) = false.
Proof.
  rewrite !is_nan_sf, is_finite_sf, add_spec. unfold SF64add.
  destruct (Prim2SF x) as [s | s | | s m e]; try discriminate;
    destruct (Prim2SF y) as [t | t | | t n f]; try discriminate;
    intros _ _; cbn [SFadd]; try reflexivity;
    try (destruct s, t; reflexivity).
  destruct (binary_normalize prec emax _ _ _) eqn:E; try reflexivity.
  exfalso. exact (binary_normalize_not_nan _ _ _ E).
Qed.

Lemma sub_not_nan (x y : float) :
  is_nan x = false -> is_finite y = true -> is_nan (x - y) = false.
Proof.
  rewrite !is_nan_sf, is_finite_sf, sub_spec. unfold SF64sub.
  destruct (Prim2SF x) as [s | s | | s m e]; try discriminate;
    destruct (Prim2SF y) as [t | t | | t n f]; try discriminate;
    intros _ _; cbn [SFsub]; try reflexivity;
    try (destruct s, t; reflexivity).
  destruct (binary_normalize prec emax _ _ _) eqn:E; try reflexivity.
  exfalso. exact (binary_normalize_not_nan _ _ _ E).
Qed.

(** A zero divided by a number other than zero is a zero. *)
Lemma zero_div (z d : float) :
  (z =? 0)%float = true -> is_nan d = false -> (d =? 0)%float = false ->
  (z / d =? 0)%float = true.
Proof.
  rewrite !eqb_zero_sf, is_nan_sf, div_spec. unfold SF64div.
  destruct (Prim2SF z) as [s | s | | s m e]; try discriminate;
    destruct (Prim2SF d) as [t | t | | t n f]; try discriminate;
    reflexivity.
Qed.

(** * King 1966 with the Python number zero as age *)

Section KingZeroAge.

Variable M : libm.

Local Open Scope float_scope.

Lemma king1966_zero_divisor (h : float) :
  is_nan h = false ->
  let d1 := h - 4.5 + 0.954038 - 0 + 0 in
  (d1 =? 0) = false -> (0 / d1 / 0.109757 =? 0) = true.
Proof.
  intros Hh d1 Hd.
  assert (Hn : is_nan d1 = false).
  { unfold d1. apply add_not_nan; [| reflexivity].
    apply sub_not_nan; [| reflexivity].
    apply add_not_nan; [| reflexivity].
    apply sub_not_nan; [exact Hh | reflexivity]. }
  apply zero_div; [| reflexivity | reflexivity].
  apply zero_div; [reflexivity | exact Hn | exact Hd].
Qed.

Lemma king1966_float_zero_age (h : float) :
  is_nan h = false ->
  king1966_df M (VFloat h) (VFloat 0) = Raise ZeroDivisionError.
Proof.
  intros Hh. rewrite king1966_python_floats. unfold king1966_python.
  change (float_pow M 0 2) with (@Ok float 0). cbn [bind]. cbv zeta.
  change (0.0558178 * 0) with 0. change (0.000733819 * 0) with 0.
  change (0.109757 + 0.00792236 * 0 + 0.000197693 * 0) with 0.109757.
  destruct (h - 4.5 + 0.954038 - 0 + 0 =? 0) eqn:Ed; [reflexivity |].
  change (0.109757 =? 0) with false. cbv iota.
  rewrite (king1966_zero_divisor h Hh Ed). reflexivity.
Qed.

Lemma king1966_int_zero_age (h : float) :
  is_nan h = false ->
  king1966_df M (VFloat h) (VInt 0) = Raise ZeroDivisionError.
Proof.
  intros Hh. unfold king1966_df, ret_value. cbn [bind py_pow].
  change (0 ^ 2)%Z with 0%Z.
  rewrite !(lift2_mul_float_int _ 0 0 eq_refl). py_floats.
  change (0.0558178 * 0) with 0. change (0.000733819 * 0) with 0.
  change (0.109757 + 0.00792236 * 0 + 0.000197693 * 0) with 0.109757.
  rewrite (lift2_div_int_float 0 0 _ eq_refl).
  destruct (h - 4.5 + 0.954038 - 0 + 0 =? 0) eqn:Ed; [reflexivity |].
  rewrite lift2_div_float. change (0.109757 =? 0) with false. cbv iota.
  rewrite (lift2_div_int_float 2500 2500 _ to_double_2500).
  rewrite (king1966_zero_divisor h Hh Ed). reflexivity.
Qed.

End KingZeroAge.

(** * Arrays of any two lengths *)

Lemma array_shapes_from (f : value -> value -> result value)
  (F G : float -> float -> float) :
  (forall hs ages, length hs = length ages ->
     f (VArr hs) (VArr ages) = Ok (VArr (zip_with G hs ages))) ->
  broadcast_cases f F G -> refuses_shapes f -> array_shapes f.
Proof.
  intros Hsame [_ [_ [_ [Hone_l [Hone_r _]]]]] Hno hs ages.
  destruct (bshape (length hs) (length ages)) as [n |] eqn:E;
    [| apply Hno, E].
  unfold bshape in E.
  destruct (Nat.eqb_spec (length hs) (length ages)) as [El | _].
  - injection E as <-. eexists. split; [apply Hsame, El |].
    apply length_zip_with, El.
  - destruct (Nat.eqb_spec (length hs) 1) as [E1 | _].
    + injection E as <-. destruct hs as [| h [| h' hs]]; try discriminate.
      rewrite Hone_l. eexists. split; [reflexivity | apply length_map].
    + destruct (Nat.eqb_spec (length ages) 1) as [E1 | _];
        [| discriminate].
      injection E as <-. destruct ages as [| a [| a' ages]];
        try discriminate.
      rewrite Hone_r. eexists. split; [reflexivity | apply length_map].
Qed.

Lemma zip_with_app {A B C : Type} (f : A -> B -> C) (xs1 xs2 : list A)
  (ys1 ys2 : list B) :
  length xs1 = length ys1 ->
  zip_with f (xs1 ++ xs2) (ys1 ++ ys2) =
  zip_with f xs1 ys1 ++ zip_with f xs2 ys2.
Proof.
  revert ys1. induction xs1 as [| x xs1 IH]; intros [| y ys1] H;
    simpl in *; try discriminate; [reflexivity |].
  rewrite IH by lia. reflexivity.
Qed.

Lemma chunkwise_from (f : value -> value -> result value)
  (F : float -> float -> float) :
  (forall hs ages, length hs = length ages ->
     f (VArr hs) (VArr ages) = Ok (VArr (zip_with F hs ages))) ->
  chunkwise f.
Proof.
  intros Hsame hs1 hs2 ages1 ages2 vs1 vs2 H1 H2 E1 E2.
  rewrite Hsame in E1 by exact H1. rewrite Hsame in E2 by exact H2.
  injection E1 as <-. injection E2 as <-.
  rewrite Hsame by (rewrite !length_app; congruence).
  rewrite zip_with_app by exact H1. reflexivity.
Qed.

(** * Positive floats *)

Lemma pos_sf (a : float) :
  (0 <? a)%float = true ->
  Prim2SF a = S754_infinity false \/
  exists m e, Prim2SF a = S754_finite false m e.
Proof.
  rewrite ltb_spec. change (Prim2SF 0) with (S754_zero false).
  unfold SFltb. destruct (Prim2SF a) as [s | s | | s m e];
    cbn [SFcompare]; try discriminate; destruct s; try discriminate;
    intros _; [left; reflexivity | right; eauto].
Qed.

Lemma pos_abs (a : float) : (0 <? a)%float = true -> abs a = a.
Proof.
  intros H. apply Prim2SF_inj. rewrite abs_spec.
  destruct (pos_sf a H) as [-> | [m [e ->]]]; reflexivity.
Qed.

Lemma pos_not_nan (a : float) : (0 <? a)%float = true -> is_nan a = false.
Proof.
  intros H. rewrite is_nan_sf.
  destruct (pos_sf a H) as [-> | [m [e ->]]]; reflexivity.
Qed.

Lemma pos_not_zero (a : float) :
  (0 <? a)%float = true -> (a =? 0)%float = false.
Proof.
  intros H. rewrite eqb_zero_sf.
  destruct (pos_sf a H) as [-> | [m [e ->]]]; reflexivity.
Qed.

Lemma float_pow_pos (M : libm) (a : float) :
  (0 <? a)%float = true -> is_infinity a = false ->
  (a =? 1)%float = false ->
  float_pow M a 2 =
  if is_infinity (c_pow M a 2) then Raise OverflowError
  else Ok (c_pow M a 2).
Proof.
  intros Hp Hi H1. unfold float_pow. cbv zeta.
  rewrite (pos_not_nan a Hp), Hi, (pos_not_zero a Hp), (pos_abs a Hp), H1.
  change (Z.odd 2) with false. rewrite andb_false_r.
  change (float_of_Z 2) with 2%float. reflexivity.
Qed.

Section Agreement.

Variable M : libm.

Lemma king1966_agrees : agrees_with_numpy (king1966_df M).
Proof.
  intros h a x Hp Hi H1 H. rewrite king1966_python_floats in H.
  unfold king1966_python in H. rewrite (float_pow_pos M a Hp Hi H1) in H.
  cbv zeta in H.
  destruct (is_infinity (c_pow M a 2)); [discriminate H |].
  cbn [bind] in H. repeat destruct_scrutinee H. injection H as <-.
  reflexivity.
Qed.

Lemma wiley1978_agrees : agrees_with_numpy (wiley1978_wh M).
Proof.
  intros h a x Hp Hi H1 H. rewrite wiley1978_python_floats in H.
  unfold wiley1978_python in H. rewrite (float_pow_pos M a Hp Hi H1) in H.
  cbv zeta in H.
  destruct (is_infinity (c_pow M a 2)); [discriminate H |].
  cbn [bind] in H. repeat destruct_scrutinee H. injection H as <-.
  reflexivity.
Qed.

End Agreement.

(** * The exponential of Curtis 1974 *)

Lemma add_inf_or_nan_l (x y : float) :
  sf_inf_or_nan (Prim2SF x) -> sf_inf_or_nan (Prim2SF (x + y)).
Proof.
  rewrite add_spec. unfold SF64add.
  destruct (Prim2SF x) as [s | s | | s m e]; cbn [sf_inf_or_nan];
    intros H; try contradiction;
    destruct (Prim2SF y) as [t | t | | t n f]; try exact I;
    destruct s, t; exact I.
Qed.

Lemma old_ages_overflow : all_from old_age_overflows 101 1900 = true.
Proof. vm_compute. reflexivity. Qed.

Section CurtisOld.

Variable M : libm.

Local Open Scope float_scope.

Lemma curtis1974_overflow (h a : float) :
  exp_overflows M -> (a <=? 100) = false ->
  (710 <=? 0.95 * c_pow M (100 / a - 100) 2) = true ->
  is_finite (curtis1974_formula M h a) = false.
Proof.
  intros He Ha Hx. unfold curtis1974_formula. rewrite Ha.
  unfold curtis_a_old. rewrite (He _ Hx).
  change (7.66772 * infinity) with infinity.
  apply inf_or_nan_not_finite, add_inf_or_nan_l, add_inf_or_nan_l.
  exact I.
Qed.

End CurtisOld.

(** * Positions in the lists of Farr 1984 *)

Lemma aligned_spec (df : frame) (a2s b2s : list float) (z : Z) :
  aligned df a2s b2s z = true ->
  entries df z =
  [(z, (nth (farr_position z) a2s nan, nth (farr_position z) b2s nan))].
Proof.
  unfold aligned. intros H.
  destruct (entries df z) as [| [z' [a2 b2]] [| r rest]];
    try discriminate H.
  apply andb_prop in H. destruct H as [H Hb].
  apply andb_prop in H. destruct H as [H Ha].
  apply Z.eqb_eq in H.
  apply FloatAxioms.Leibniz.eqb_spec in Ha, Hb. subst. reflexivity.
Qed.

Lemma farr_all_aligned :
  all_from (aligned coefs A2_LOOKUP B2_LOOKUP) 10 141 = true.
Proof. vm_compute. reflexivity. Qed.

Lemma aligned_all (df : frame) (a2s b2s : list float) (lo : Z) (n : N)
  (z : Z) :
  all_from (aligned df a2s b2s) lo n = true ->
  (lo <= z < lo + Z.of_N n)%Z ->
  entries df z =
  [(z, (nth (farr_position z) a2s nan, nth (farr_position z) b2s nan))].
Proof.
  intros Hall Hz. apply aligned_spec.
  exact (all_from_spec _ lo n Hall z Hz).
Qed.

Lemma farr_entry_position (z : Z) :
  (10 <= z <= 150)%Z ->
  entries coefs z =
  [(z, (nth (farr_position z) A2_LOOKUP nan,
        nth (farr_position z) B2_LOOKUP nan))].
Proof.
  intros Hz.
  apply (aligned_all coefs A2_LOOKUP B2_LOOKUP 10 141 z farr_all_aligned).
  lia.
Qed.

(** * A zero as age *)

Lemma is_infinity_sf (x : float) :
  is_infinity x = match Prim2SF x with S754_infinity _ => true | _ => false end.
Proof.
  unfold is_infinity. rewrite eqb_spec, abs_spec.
  change (Prim2SF infinity) with (S754_infinity false). unfold SFeqb.
  destruct (Prim2SF x) as [s | s | | s m e]; reflexivity.
Qed.

Lemma zero_not_nan (x : float) : (x =? 0)%float = true -> is_nan x = false.
Proof.
  rewrite eqb_zero_sf, is_nan_sf. destruct (Prim2SF x); try discriminate.
  reflexivity.
Qed.

Lemma zero_not_infinity (x : float) :
  (x =? 0)%float = true -> is_infinity x = false.
Proof.
  rewrite eqb_zero_sf, is_infinity_sf.
  destruct (Prim2SF x); try discriminate. reflexivity.
Qed.

Lemma float_pow_zero (M : libm) (x : float) (n : positive) :
  (x =? 0)%float = true -> exists y, float_pow M x n = Ok y.
Proof.
  intros H. unfold float_pow. cbv zeta.
  rewrite (zero_not_nan x H), (zero_not_infinity x H), H. eexists.
  reflexivity.
Qed.

Lemma sub_zero_100 (a : float) :
  (a =? 0)%float = true -> (100 - a)%float = 100%float.
Proof.
  rewrite eqb_zero_sf. intros H. apply Prim2SF_inj. rewrite sub_spec.
  destruct (Prim2SF a) as [s | s | | s m e]; try discriminate H.
  reflexivity.
Qed.

Lemma lift2_sub_int_float (k : Z) (c b : float) :
  to_double (VInt k) = Ok c ->
  lift2 py_sub (Ok (VInt k)) (Ok (VFloat b)) = Ok (VFloat (c - b)).
Proof.
  intros Hk. unfold lift2. cbn [bind py_sub elementwise]. rewrite Hk.
  reflexivity.
Qed.

Section PythonZero.

Variable M : libm.

Local Open Scope float_scope.

Lemma harrington1986_float_zero_age (h a : float) :
  (a + 1 =? 0) = true ->
  harrington1986_ra M (VFloat h) (VFloat a) = Raise ZeroDivisionError.
Proof.
  intros H. rewrite harrington1986_python_floats.
  unfold harrington1986_python. cbv zeta.
  destruct (float_pow_zero M (a + 1) 2 H) as [sq ->].
  destruct (float_pow_zero M (a + 1) 3 H) as [cu ->].
  cbn [bind]. rewrite H. reflexivity.
Qed.

Lemma curtis1974_float_age (h : value) (a : float) :
  curtis1974_df M h (VFloat a) = Raise ZeroDivisionError ->
  (a =? 0) = true.
Proof.
  intros H.
  destruct h as [h | h | h | hs];
    cbv beta iota zeta delta
      [curtis1974_df lift2 bind ret_value py_add py_sub py_mul
       py_truediv py_pow elementwise is_np orb
       np_where np_exp np_log10 np_power ufunc py_le_int where_values
       np_double] in H;
    cbv beta iota zeta delta [to_double] in H;
    repeat destruct_scrutinee H;
    first
      [ reflexivity
      | match goal with
        | E : float_pow _ _ _ = Raise ?e |- _ =>
            apply float_pow_raises in E; subst e; discriminate H
        end ].
Qed.

Lemma curtis1974_float_zero_age (h : value) (a : float) :
  (a =? 0) = true -> is_infinity (c_pow M 100 2) = false ->
  curtis1974_df M h (VFloat a) = Raise ZeroDivisionError.
Proof.
  intros Ha Hp.
  assert (E : float_pow M 100 2 = Ok (c_pow M 100 2)).
  { unfold float_pow. cbv zeta. change (is_nan 100) with false.
    change (is_infinity 100) with false. change (100 =? 0) with false.
    change (abs 100) with 100. change (abs 100 =? 1) with false.
    change (100 <? 0) with false. change (float_of_Z 2) with 2.
    cbv iota. cbn [andb]. rewrite Hp. reflexivity. }
  unfold curtis1974_df, np_where, ret_value. cbn [bind py_le_int].
  rewrite (lift2_sub_int_float 100 100 a eq_refl), (sub_zero_100 a Ha).
  cbn [bind]. rewrite (py_pow_float M 100 _ 2 E). py_floats. cbn [bind].
  rewrite (lift2_div_int_float 100 100 a eq_refl), Ha. reflexivity.
Qed.

(** On two Python floats Curtis 1974 raises on a zero divisor or an
    overflow of [pow] only, and returns a numpy scalar. *)
Lemma curtis1974_float_raises (h a : float) (e : exn) :
  curtis1974_df M (VFloat h) (VFloat a) = Raise e ->
  e = ZeroDivisionError \/ e = OverflowError.
Proof.
  intros H.
  cbv beta iota zeta delta
    [curtis1974_df lift2 bind ret_value py_add py_sub py_mul
     py_truediv py_pow elementwise is_np orb
     np_where np_exp np_log10 np_power ufunc py_le_int where_values
     np_double] in H;
    cbv beta iota zeta delta [to_double] in H;
    repeat destruct_scrutinee H;
    injection H as <-;
    first
      [ left; reflexivity
      | right; reflexivity
      | match goal with
        | E : float_pow _ _ _ = Raise ?e |- _ =>
            right; exact (float_pow_raises _ _ _ _ E)
        end ].
Qed.

Lemma curtis1974_float_returns (h a : float) (v : value) :
  curtis1974_df M (VFloat h) (VFloat a) = Ok v -> exists x, v = VNp x.
Proof.
  intros H.
  cbv beta iota zeta delta
    [curtis1974_df lift2 bind ret_value py_add py_sub py_mul
     py_truediv py_pow elementwise is_np orb
     np_where np_exp np_log10 np_power ufunc py_le_int where_values
     np_double] in H;
    cbv beta iota zeta delta [to_double] in H;
    repeat destruct_scrutinee H;
    injection H as <-; eexists; reflexivity.
Qed.

Lemma harrington1986_float_raises (h a : float) (e : exn) :
  harrington1986_ra M (VFloat h) (VFloat a) = Raise e ->
  e = ZeroDivisionError \/ e = OverflowError.
Proof.
  rewrite harrington1986_python_floats. unfold harrington1986_python.
  cbv zeta. intros H.
  destruct (float_pow M (a + 1) 2) as [sq | e2] eqn:E2; cbn [bind] in H;
    [| injection H as <-; right; exact (float_pow_raises _ _ _ _ E2)].
  destruct (float_pow M (a + 1) 3) as [cu | e3] eqn:E3; cbn [bind] in H;
    [| injection H as <-; right; exact (float_pow_raises _ _ _ _ E3)].
  destruct (a + 1 =? 0); [injection H as <-; left; reflexivity |].
  destruct (float_pow M (1 / (a + 1)) 3) as [icu | e4] eqn:E4;
    cbn [bind] in H; [discriminate H |].
  injection H as <-. right. exact (float_pow_raises _ _ _ _ E4).
Qed.

End PythonZero.

(** * Harrington and Curtis 1986 with a zero total age *)

Lemma mul_inf_or_nan_r (x y : float) :
  sf_inf_or_nan (Prim2SF y) -> sf_inf_or_nan (Prim2SF (x * y)).
Proof.
  rewrite mul_spec. unfold SF64mul.
  destruct (Prim2SF y) as [t | t | | t n f]; cbn [sf_inf_or_nan];
    intros H; try contradiction;
    destruct (Prim2SF x) as [s | s | | s m e]; exact I.
Qed.

Lemma mul_inf_or_nan_l (x y : float) :
  sf_inf_or_nan (Prim2SF x) -> sf_inf_or_nan (Prim2SF (x * y)).
Proof.
  rewrite mul_spec. unfold SF64mul.
  destruct (Prim2SF x) as [s | s | | s m e]; cbn [sf_inf_or_nan];
    intros H; try contradiction;
    destruct (Prim2SF y) as [t | t | | t n f]; exact I.
Qed.

Section HarringtonNumpy.

Variable M : libm.

Local Open Scope float_scope.

(** With the numpy age -1 the total age is a zero, its inverse an
    infinity, and the result is not finite when the cube of an infinity
    is not. *)
Lemma harrington1986_numpy_zero_age (h : float) :
  sf_inf_or_nan (Prim2SF (c_pow M infinity 3)) ->
  is_finite (harrington1986_formula M h (-1)) = false.
Proof.
  intros H. unfold harrington1986_formula. cbv zeta.
  change (-1 + 1) with 0. change (1 / 0) with infinity.
  apply inf_or_nan_not_finite, add_inf_or_nan_r, mul_inf_or_nan_l.
  unfold harrington_b. apply add_inf_or_nan_r, mul_inf_or_nan_r. exact H.
Qed.

End HarringtonNumpy.

(** * Cochran 1979 when the logarithm is a NaN *)

Section CochranLog.

Variable M : libm.
Hypothesis HM : quiet_nan M.

Local Open Scope float_scope.

Lemma cochran1979_formula_log_nan (h a : float) :
  c_log M a = nan -> cochran1979_formula M h a = nan.
Proof.
  intros Hl. unfold cochran1979_formula, cochran_x1, cochran_x2. cbv zeta.
  rewrite Hl. nan_rules. rewrite (exp_nan M HM). nan_rules. reflexivity.
Qed.

End CochranLog.

(** * Broadcasting a scalar against an array *)

Lemma cochran1979_broadcasts_numpy (M : libm) :
  broadcasts (cochran1979_gf M) (cochran1979_formula M)
    (cochran1979_array_formula M).
Proof.
  intros ps sh sa height age Hh Ha Hs.
  replace (join sh sa) with (join sh (join sa Np))
    by (destruct sa; try reflexivity; exfalso; apply Hs; reflexivity).
  apply cochran1979_shaped; assumption.
Qed.

(** X1. [king1966_df] on arrays.  It broadcasts as numpy does: an array of
    heights with one numpy age (a scalar or an array of one element), or one
    height (a numpy scalar, a Python float or an array of one element) with
    an array of ages, gives the array of the values of the formula on each
    tree, and a Python float height with a numpy age gives a numpy scalar.
    The square of the age is a call of [pow] when the age is a numpy scalar
    and the product [bh_age * bh_age] when it is an array.  On two arrays
    it returns an array of the length the two lengths broadcast to, and
    raises [ValueError] when they do not broadcast.  The results on two
    chunks of the arrays, put end to end, are the result on the whole
    arrays. *)
Theorem king1966_on_arrays (M : libm) :
  broadcast_cases (king1966_df M) (king1966_formula M)
    king1966_array_formula /\
  array_shapes (king1966_df M) /\
  chunkwise (king1966_df M).
Proof.
  split; [apply broadcasts_cases, king1966_shaped | split].
  - apply (array_shapes_from _ (king1966_formula M)
             king1966_array_formula);
      [ apply king1966_array | apply broadcasts_cases, king1966_shaped
      | apply king1966_refuses ].
  - apply (chunkwise_from _ king1966_array_formula), king1966_array.
Qed.

Lemma king1966_on_arrays_witness :
  king1966_df sample_libm (VArr ([100] ++ [120])%float)
    (VArr ([50] ++ [60])%float) =
  Ok (VArr ([100.00796150226624] ++ [108.73581978665177])%float).
Proof.
  apply (proj2 (proj2 (king1966_on_arrays sample_libm)));
    vm_compute; reflexivity.
Defined.

(** X2. [cochran1979_gf] on arrays: it broadcasts a scalar against an array
    as numpy does, and, as it takes the logarithm of the age with numpy
    first, a Python float age broadcasts against an array of heights as
    well.  The square of the logarithm is a call of [pow] when the age is a
    scalar and a product when the age is an array.  Two arrays give an
    array of the broadcast length or [ValueError]; the results on chunks
    concatenate. *)
Theorem cochran1979_on_arrays (M : libm) :
  broadcast_cases (cochran1979_gf M) (cochran1979_formula M)
    (cochran1979_array_formula M) /\
  (forall hs a,
     cochran1979_gf M (VArr hs) (VFloat a) =
     Ok (VArr (map (fun h => cochran1979_formula M h a) hs))) /\
  array_shapes (cochran1979_gf M) /\
  chunkwise (cochran1979_gf M).
Proof.
  split; [apply broadcasts_cases, cochran1979_broadcasts_numpy |].
  split; [| split].
  - intros hs a.
    rewrite (yields_full _ _ _
               (cochran1979_shaped M _ Full Py _ _ (heights_shaped hs a)
                  (ex_intro _ a (conj eq_refl (age_const hs a))))).
    rewrite map_map. reflexivity.
  - apply (array_shapes_from _ (cochran1979_formula M)
             (cochran1979_array_formula M));
      [ apply cochran1979_array
      | apply broadcasts_cases, cochran1979_broadcasts_numpy
      | apply cochran1979_refuses ].
  - apply (chunkwise_from _ (cochran1979_array_formula M)),
      cochran1979_array.
Qed.

Lemma cochran1979_on_arrays_witness :
  cochran1979_gf sample_libm (VArr ([100] ++ [120])%float)
    (VArr ([50] ++ [60])%float) =
  Ok (VArr (zip_with (cochran1979_array_formula sample_libm) [100]%float
              [50]%float ++
            zip_with (cochran1979_array_formula sample_libm) [120]%float
              [60]%float)).
Proof.
  apply (proj2 (proj2 (proj2 (cochran1979_on_arrays sample_libm))));
    vm_compute; reflexivity.
Defined.

(** X3. [wiley1978_wh] on numpy inputs: it computes the formula of Wiley
    1978 on numpy scalars, with [pow] for the square of the age, and
    element by element on two arrays of one length, with the product
    [bh_age * bh_age] for it; it broadcasts a scalar against an array as
    numpy does, gives on two arrays an array of the broadcast length or
    [ValueError], and its results on chunks concatenate. *)
Theorem wiley1978_on_arrays (M : libm) :
  (forall h a,
     wiley1978_wh M (VNp h) (VNp a) = Ok (VNp (wiley1978_formula M h a))) /\
  (forall hs ages, length hs = length ages ->
     wiley1978_wh M (VArr hs) (VArr ages) =
     Ok (VArr (zip_with wiley1978_array_formula hs ages))) /\
  (forall h a,
     wiley1978_formula M h a =
     2500 * ((h - 4.5) * (0.1394 + 0.0137 * a + 0.00007 * c_pow M a 2) /
             (c_pow M a 2 -
              (h - 4.5) * ((-1.7307) - 0.0616 * a +
                           0.00192 * c_pow M a 2))))%float /\
  (forall h a,
     wiley1978_array_formula h a =
     2500 * ((h - 4.5) * (0.1394 + 0.0137 * a + 0.00007 * (a * a)) /
             (a * a -
              (h - 4.5) * ((-1.7307) - 0.0616 * a +
                           0.00192 * (a * a)))))%float /\
  broadcast_cases (wiley1978_wh M) (wiley1978_formula M)
    wiley1978_array_formula /\
  array_shapes (wiley1978_wh M) /\
  chunkwise (wiley1978_wh M).
Proof.
  split; [exact (wiley1978_np M) |].
  split; [exact (wiley1978_array M) |].
  split; [intros h a; reflexivity |].
  split; [intros h a; reflexivity |].
  split; [apply broadcasts_cases, wiley1978_shaped | split].
  - apply (array_shapes_from _ (wiley1978_formula M)
             wiley1978_array_formula);
      [ apply wiley1978_array | apply broadcasts_cases, wiley1978_shaped
      | apply wiley1978_refuses ].
  - apply (chunkwise_from _ wiley1978_array_formula), wiley1978_array.
Qed.

Lemma wiley1978_on_arrays_witness :
  wiley1978_wh sample_libm (VArr [100; 120]%float) (VArr [50; 60]%float) =
  Ok (VArr (zip_with wiley1978_array_formula [100; 120]%float
              [50; 60]%float)).
Proof.
  apply (proj1 (proj2 (wiley1978_on_arrays sample_libm))). reflexivity.
Defined.

(** X4. [harrington1986_ra] on arrays: it broadcasts a scalar against an
    array as numpy does, with [pow] for the square of the total age when
    the age is a numpy scalar and a product when it is an array; it gives
    on two arrays an array of the broadcast length or [ValueError], and its
    results on chunks concatenate. *)
Theorem harrington1986_on_arrays (M : libm) :
  broadcast_cases (harrington1986_ra M) (harrington1986_formula M)
    (harrington1986_array_formula M) /\
  array_shapes (harrington1986_ra M) /\
  chunkwise (harrington1986_ra M).
Proof.
  split; [apply broadcasts_cases, harrington1986_shaped | split].
  - apply (array_shapes_from _ (harrington1986_formula M)
             (harrington1986_array_formula M));
      [ apply harrington1986_array
      | apply broadcasts_cases, harrington1986_shaped
      | apply harrington1986_refuses ].
  - apply (chunkwise_from _ (harrington1986_array_formula M)),
      harrington1986_array.
Qed.

Lemma harrington1986_on_arrays_witness :
  harrington1986_ra sample_libm (VArr ([60] ++ [70])%float)
    (VArr ([20] ++ [30])%float) =
  Ok (VArr (zip_with (harrington1986_array_formula sample_libm) [60]%float
              [20]%float ++
            zip_with (harrington1986_array_formula sample_libm) [70]%float
              [30]%float)).
Proof.
  apply (proj2 (proj2 (harrington1986_on_arrays sample_libm)));
    vm_compute; reflexivity.
Defined.

(** X5. [curtis1974_df] on arrays: it broadcasts a scalar against an array
    as numpy does, choosing the branch for each age of an array of ages;
    the two squares are calls of [pow] when the age is a numpy scalar and
    products when it is an array.  Two arrays give an array of the
    broadcast length or [ValueError]; the results on chunks concatenate. *)
Theorem curtis1974_on_arrays (M : libm) :
  broadcast_cases (curtis1974_df M) (curtis1974_formula M)
    (curtis1974_array_formula M) /\
  array_shapes (curtis1974_df M) /\
  chunkwise (curtis1974_df M).
Proof.
  split; [apply broadcasts_cases, curtis1974_shaped | split].
  - apply (array_shapes_from _ (curtis1974_formula M)
             (curtis1974_array_formula M));
      [ apply curtis1974_array | apply broadcasts_cases, curtis1974_shaped
      | apply curtis1974_refuses ].
  - apply (chunkwise_from _ (curtis1974_array_formula M)),
      curtis1974_array.
Qed.

Lemma curtis1974_on_arrays_witness :
  curtis1974_df sample_libm (VArr ([100] ++ [120])%float)
    (VArr ([50] ++ [60])%float) =
  Ok (VArr (zip_with (curtis1974_array_formula sample_libm) [100]%float
              [50]%float ++
            zip_with (curtis1974_array_formula sample_libm) [120]%float
              [60]%float)).
Proof.
  apply (proj2 (proj2 (curtis1974_on_arrays sample_libm)));
    vm_compute; reflexivity.
Defined.

(** * A NaN among the inputs *)

(** X6. In [king1966_df], [wiley1978_wh] and [harrington1986_ra] a NaN
    among the inputs gives a NaN, whatever the mathematical library does:
    a NaN height or a NaN age on numpy scalars, and in two arrays of one
    length at the position of the NaN. *)
Theorem nan_in_king_wiley_harrington (M : libm) :
  (nan_height_to_nan (king1966_df M) /\ nan_age_to_nan (king1966_df M)) /\
  (nan_height_to_nan (wiley1978_wh M) /\ nan_age_to_nan (wiley1978_wh M)) /\
  (nan_height_to_nan (harrington1986_ra M) /\
   nan_age_to_nan (harrington1986_ra M)).
Proof.
  split; [| split]; split.
  - apply (nan_height_from_formula _ (king1966_formula M)
             (king1966_array_formula));
      [ apply king1966_np | apply king1966_array
      | apply king1966_formula_nan_height
      | apply king1966_array_formula_nan_height ].
  - apply (nan_age_from_formula _ (king1966_formula M)
             (king1966_array_formula));
      [ apply king1966_np | apply king1966_array
      | apply king1966_formula_nan_age
      | apply king1966_array_formula_nan_age ].
  - apply (nan_height_from_formula _ (wiley1978_formula M)
             (wiley1978_array_formula));
      [ apply wiley1978_np | apply wiley1978_array
      | apply wiley1978_formula_nan_height
      | apply wiley1978_array_formula_nan_height ].
  - apply (nan_age_from_formula _ (wiley1978_formula M)
             (wiley1978_array_formula));
      [ apply wiley1978_np | apply wiley1978_array
      | apply wiley1978_formula_nan_age
      | apply wiley1978_array_formula_nan_age ].
  - apply (nan_height_from_formula _ (harrington1986_formula M)
             (harrington1986_array_formula M));
      [ apply harrington1986_np | apply harrington1986_array
      | apply harrington1986_formula_nan_height
      | apply harrington1986_array_formula_nan_height ].
  - apply (nan_age_from_formula _ (harrington1986_formula M)
             (harrington1986_array_formula M));
      [ apply harrington1986_np | apply harrington1986_array
      | apply harrington1986_formula_nan_age
      | apply harrington1986_array_formula_nan_age ].
Qed.

Lemma nan_in_king_wiley_harrington_witness :
  exists vs,
    king1966_df sample_libm (VArr [100; nan; 120]%float)
      (VArr [50; 60; 70]%float) = Ok (VArr vs) /\
    length vs = 3%nat /\ nth_error vs 1 = Some nan.
Proof.
  apply (proj2 (proj1 (proj1 (nan_in_king_wiley_harrington sample_libm)))
           [100; nan; 120]%float [50; 60; 70]%float 1%nat);
    reflexivity.
Defined.

(** X7. In [cochran1979_gf] and [curtis1974_df] a NaN height gives a NaN,
    on numpy scalars and at its position in two arrays of one length.  A
    NaN age gives a NaN when [pow], [exp] and the logarithms give a NaN on
    a NaN, and [cochran1979_gf] then gives a NaN for every age whose
    logarithm is a NaN. *)
Theorem nan_in_cochran_curtis (M : libm) :
  nan_height_to_nan (cochran1979_gf M) /\
  nan_height_to_nan (curtis1974_df M) /\
  (quiet_nan M ->
   nan_age_to_nan (cochran1979_gf M) /\
   nan_age_to_nan (curtis1974_df M) /\
   (forall h a, c_log M a = nan ->
      cochran1979_gf M (VNp h) (VNp a) = Ok (VNp nan))).
Proof.
  split; [| split].
  - apply (nan_height_from_formula _ (cochran1979_formula M)
             (cochran1979_array_formula M));
      [ apply cochran1979_np | apply cochran1979_array
      | apply cochran1979_formula_nan_height
      | apply cochran1979_array_formula_nan_height ].
  - apply (nan_height_from_formula _ (curtis1974_formula M)
             (curtis1974_array_formula M));
      [ apply curtis1974_np | apply curtis1974_array
      | apply curtis1974_formula_nan_height
      | apply curtis1974_array_formula_nan_height ].
  - intros HM. split; [| split].
    + apply (nan_age_from_formula _ (cochran1979_formula M)
               (cochran1979_array_formula M));
        [ apply cochran1979_np | apply cochran1979_array
        | apply cochran1979_formula_nan_age, HM
        | apply cochran1979_array_formula_nan_age, HM ].
    + apply (nan_age_from_formula _ (curtis1974_formula M)
               (curtis1974_array_formula M));
        [ apply curtis1974_np | apply curtis1974_array
        | apply curtis1974_formula_nan_age, HM
        | apply curtis1974_array_formula_nan_age, HM ].
    + intros h a Hl. rewrite cochran1979_np.
      rewrite (cochran1979_formula_log_nan M HM h a Hl). reflexivity.
Qed.

Lemma nan_in_cochran_curtis_witness :
  cochran1979_gf sample_libm (VNp 100) (VNp nan) = Ok (VNp nan).
Proof.
  apply (proj2 (proj2 (proj2 (proj2 (nan_in_cochran_curtis sample_libm))
                         sample_libm_quiet_nan))).
  reflexivity.
Defined.

(** X8. [farr1984_ss] with a NaN: a height that is a NaN, a Python float or
    a numpy scalar, gives a NaN at every age of the table; an age that is
    a NaN is not in the table and raises [KeyError]. *)
Theorem nan_in_farr :
  (forall h key, to_double h = Ok nan -> age_in_table key ->
     farr1984_ss h key = Ok (VNp nan)) /\
  (forall h, farr1984_ss h (VNp nan) = Raise (KeyError (VNp nan))) /\
  (forall h, farr1984_ss h (VFloat nan) = Raise (KeyError (VFloat nan))).
Proof.
  split; [apply farr_nan_height | split]; intros h;
    (apply farr_unknown_age; [exact I |]);
    intros [z [E _]]; discriminate E.
Qed.

Lemma nan_in_farr_witness :
  farr1984_ss (VFloat nan) (VInt 60) = Ok (VNp nan).
Proof.
  apply (proj1 nan_in_farr).
  - reflexivity.
  - exists 60%Z. split; [reflexivity | lia].
Defined.

(** * Python floats: which exceptions, and when *)

Lemma raise_only_zero_or_overflow (M : libm) (x : float) (n : positive)
  (k : float -> result value) (e : exn) :
  (forall y e', k y = Raise e' -> e' = ZeroDivisionError) ->
  (y <- float_pow M x n ;; k y) = Raise e ->
  e = ZeroDivisionError \/ e = OverflowError.
Proof.
  intros Hk H. destruct (float_pow M x n) as [y | e0] eqn:E; cbn [bind] in H.
  - left. exact (Hk y e H).
  - injection H as <-. right. exact (float_pow_raises M x n e0 E).
Qed.

(** X9. On two Python floats [king1966_df] squares the age first, which
    raises [OverflowError] when [pow] overflows; it then raises
    [ZeroDivisionError] exactly when one of its three divisors is a zero,
    and otherwise returns the formula as a Python float.  It raises no
    other exception. *)
Theorem king1966_python_errors (M : libm) (h a : float) :
  king1966_df M (VFloat h) (VFloat a) = king1966_python M h a /\
  (forall e, king1966_df M (VFloat h) (VFloat a) = Raise e ->
     e = ZeroDivisionError \/ e = OverflowError) /\
  (forall v, king1966_df M (VFloat h) (VFloat a) = Ok v ->
     exists sq, float_pow M a 2 = Ok sq /\
                v = VFloat (king1966_expr sq h a)).
Proof.
  split; [apply king1966_python_floats |].
  rewrite king1966_python_floats. unfold king1966_python. split.
  - intros e. apply raise_only_zero_or_overflow. intros sq e' H.
    cbv zeta in H. repeat destruct_scrutinee H; injection H as <-;
      reflexivity.
  - intros v H. destruct (float_pow M a 2) as [sq | e0]; [| discriminate H].
    cbn [bind] in H. cbv zeta in H. repeat destruct_scrutinee H.
    injection H as <-. exists sq. split; reflexivity.
Qed.

Lemma king1966_python_errors_witness :
  exists sq, float_pow sample_libm 50 2 = Ok sq /\
             VFloat 100.00796150226624 = VFloat (king1966_expr sq 100 50).
Proof.
  apply (proj2 (proj2 (king1966_python_errors sample_libm 100 50))).
  vm_compute. reflexivity.
Defined.

(** X10. With the Python number zero as age, an [int] or a [float],
    [king1966_df] raises [ZeroDivisionError] for every Python float height
    that is not a NaN; for a NaN height it returns a NaN. *)
Theorem king1966_zero_age_raises (M : libm) :
  (forall h, is_nan h = false ->
     king1966_df M (VFloat h) (VFloat 0) = Raise ZeroDivisionError /\
     king1966_df M (VFloat h) (VInt 0) = Raise ZeroDivisionError) /\
  king1966_df M (VFloat nan) (VFloat 0) = Ok (VFloat nan) /\
  king1966_df M (VFloat nan) (VInt 0) = Ok (VFloat nan).
Proof.
  split; [| split; reflexivity].
  intros h Hh. split;
    [apply king1966_float_zero_age | apply king1966_int_zero_age];
    exact Hh.
Qed.

Lemma king1966_zero_age_raises_witness :
  king1966_df sample_libm (VFloat 100) (VFloat 0) = Raise ZeroDivisionError.
Proof.
  apply (proj1 (proj1 (king1966_zero_age_raises sample_libm) 100%float
                  eq_refl)).
Defined.

(** X11. On two Python floats [wiley1978_wh] squares the age first, which
    raises [OverflowError] when [pow] overflows; it then raises
    [ZeroDivisionError] exactly when its divisor is a zero, and otherwise
    returns the formula as a Python float.  It raises no other
    exception. *)
Theorem wiley1978_python_errors (M : libm) (h a : float) :
  wiley1978_wh M (VFloat h) (VFloat a) = wiley1978_python M h a /\
  (forall e, wiley1978_wh M (VFloat h) (VFloat a) = Raise e ->
     e = ZeroDivisionError \/ e = OverflowError) /\
  (forall v, wiley1978_wh M (VFloat h) (VFloat a) = Ok v ->
     exists sq, float_pow M a 2 = Ok sq /\
                v = VFloat (wiley1978_expr sq h a)).
Proof.
  split; [apply wiley1978_python_floats |].
  rewrite wiley1978_python_floats. unfold wiley1978_python. split.
  - intros e. apply raise_only_zero_or_overflow. intros sq e' H.
    cbv zeta in H. repeat destruct_scrutinee H; injection H as <-;
      reflexivity.
  - intros v H. destruct (float_pow M a 2) as [sq | e0]; [| discriminate H].
    cbn [bind] in H. cbv zeta in H. repeat destruct_scrutinee H.
    injection H as <-. exists sq. split; reflexivity.
Qed.

Lemma wiley1978_python_errors_witness :
  ZeroDivisionError = ZeroDivisionError \/ ZeroDivisionError = OverflowError.
Proof.
  apply (proj1 (proj2 (wiley1978_python_errors sample_libm 4.5 0))).
  vm_compute. reflexivity.
Defined.

(** X12. [harrington1986_ra] divides by the total age, the age plus one.
    On a Python [int] age it raises [ZeroDivisionError] exactly at age -1,
    whatever the height; on Python floats it raises it when the age plus
    one is a zero, and otherwise goes through the three calls of [pow] in
    the order of the source, raising no exception but
    [ZeroDivisionError] and [OverflowError].  With the numpy age -1 it
    returns a value, which is not finite when the cube of an infinity is
    not. *)
Theorem harrington1986_python_errors (M : libm) :
  (forall h a,
     harrington1986_ra M (VFloat h) (VFloat a) =
     harrington1986_python M h a) /\
  (forall h a e, harrington1986_ra M (VFloat h) (VFloat a) = Raise e ->
     e = ZeroDivisionError \/ e = OverflowError) /\
  (forall h a, (a + 1 =? 0)%float = true ->
     harrington1986_ra M (VFloat h) (VFloat a) = Raise ZeroDivisionError) /\
  (forall h a,
     harrington1986_ra M h (VInt a) = Raise ZeroDivisionError <->
     a = (-1)%Z) /\
  (forall h, sf_inf_or_nan (Prim2SF (c_pow M infinity 3)) ->
     exists v, harrington1986_ra M (VNp h) (VNp (-1)) = Ok (VNp v) /\
               is_finite v = false).
Proof.
  split; [exact (harrington1986_python_floats M) |].
  split; [exact (harrington1986_float_raises M) |].
  split; [exact (harrington1986_float_zero_age M) |].
  split; [exact (harrington1986_int_age M) |].
  intros h H. eexists. split; [apply harrington1986_np |].
  apply harrington1986_numpy_zero_age, H.
Qed.

Lemma harrington1986_python_errors_witness :
  harrington1986_ra sample_libm (VFloat 60) (VFloat (-1)) =
  Raise ZeroDivisionError.
Proof.
  apply (proj1 (proj2 (proj2 (harrington1986_python_errors sample_libm)))).
  reflexivity.
Defined.

(** X13. [curtis1974_df] computes [100 / bh_age] for the branch of ages
    above 100 whichever branch it selects.  On a Python [int] age it raises
    [ZeroDivisionError] exactly at age 0, whatever the height; on a Python
    float age only at a zero, and there whenever [pow] squares 100 without
    overflow.  On two Python floats it raises no exception but
    [ZeroDivisionError] and [OverflowError], and what it returns is a numpy
    scalar.  A numpy zero age returns a value. *)
Theorem curtis1974_python_errors (M : libm) :
  (forall h a,
     curtis1974_df M h (VInt a) = Raise ZeroDivisionError <-> a = 0%Z) /\
  (forall h a, curtis1974_df M h (VFloat a) = Raise ZeroDivisionError ->
     (a =? 0)%float = true) /\
  (forall h a, (a =? 0)%float = true ->
     is_infinity (c_pow M 100 2) = false ->
     curtis1974_df M h (VFloat a) = Raise ZeroDivisionError) /\
  (forall h a e, curtis1974_df M (VFloat h) (VFloat a) = Raise e ->
     e = ZeroDivisionError \/ e = OverflowError) /\
  (forall h a v, curtis1974_df M (VFloat h) (VFloat a) = Ok v ->
     exists x, v = VNp x) /\
  (forall h,
     curtis1974_df M (VNp h) (VNp 0) =
     Ok (VNp (curtis1974_formula M h 0))).
Proof.
  split; [exact (curtis1974_int_age M) |].
  split; [exact (curtis1974_float_age M) |].
  split; [exact (curtis1974_float_zero_age M) |].
  split; [exact (curtis1974_float_raises M) |].
  split; [exact (curtis1974_float_returns M) |].
  intros h. apply curtis1974_np.
Qed.

Lemma curtis1974_python_errors_witness :
  curtis1974_df sample_libm (VFloat 100) (VFloat 0) =
  Raise ZeroDivisionError.
Proof.
  apply (proj1 (proj2 (proj2 (curtis1974_python_errors sample_libm))));
    reflexivity.
Defined.

(** * Curtis 1974 above age 100 *)

Lemma sample_pow_square (x : float) : sample_pow x 2 = (x * x)%float.
Proof.
  unfold sample_pow. change (Z_of_float 2) with (Some 2%Z).
  cbn [Pos.iter]. rewrite float_mul_1_l. reflexivity.
Qed.

Lemma old_age_overflows_spec (z : Z) :
  old_age_overflows z = true ->
  (float_of_Z z <=? 100)%float = false /\
  (710 <=? curtis_old_exponent (float_of_Z z))%float = true.
Proof.
  unfold old_age_overflows. cbv zeta. intros H.
  apply andb_prop in H. destruct H as [H1 H2].
  apply negb_true_iff in H1. split; assumption.
Qed.

(** The interpreter's square, with a [pow] that multiplies. *)
Lemma float_pow_square (M : libm) (x : float) :
  pow_squares M -> squares_finitely x = true ->
  float_pow M x 2 = Ok (abs x * abs x)%float.
Proof.
  intros Hp Hx. unfold squares_finitely in Hx.
  repeat (apply andb_prop in Hx; destruct Hx as [Hx ?]).
  repeat match goal with
         | H : negb _ = true |- _ => apply negb_true_iff in H
         end.
  unfold float_pow. cbv zeta.
  change (Z.odd 2) with false. rewrite andb_false_r.
  change (float_of_Z 2) with 2%float. rewrite Hp.
  repeat match goal with
         | H : ?t = false |- context [?t] => rewrite H
         end.
  reflexivity.
Qed.

(** The interpreter's square and seventh power return. *)
Lemma float_pow_returns (M : libm) (x : float) :
  pow_squares M -> seventh_power_finite M -> power_returns x = true ->
  (exists y, float_pow M x 2 = Ok y) /\ (exists y, float_pow M x 7 = Ok y).
Proof.
  intros Hp H7. unfold float_pow, power_returns. cbv zeta.
  change (float_of_Z 2) with 2%float. change (float_of_Z 7) with 7%float.
  destruct (is_nan x); [split; eexists; reflexivity |].
  destruct (is_infinity x); [split; eexists; reflexivity |].
  destruct (x =? 0)%float; [split; eexists; reflexivity |].
  destruct (abs x =? 1)%float; [split; eexists; reflexivity |].
  cbn [orb]. intros Hx. apply andb_prop in Hx. destruct Hx as [Hle Hfin].
  apply negb_true_iff in Hfin.
  rewrite Hp, Hfin, (H7 _ Hle). split; eexists; reflexivity.
Qed.

Section CurtisOldPython.

Variable M : libm.
Hypothesis He : exp_overflows M.

Local Open Scope float_scope.

Lemma curtis_python_old_overflow (sq l h : float) :
  (710 <=? 0.95 * sq) = true ->
  is_finite (curtis_python_old M sq l h) = false.
Proof.
  intros Hx. unfold curtis_python_old. rewrite (He _ Hx).
  change (7.66772 * infinity) with infinity.
  apply inf_or_nan_not_finite, add_inf_or_nan_l, add_inf_or_nan_l.
  exact I.
Qed.

Hypothesis Hp : pow_squares M.

(** A Python [int] age above 100. *)
Lemma curtis1974_int_age_overflows (h : value) (hf : float) (z : Z) :
  to_double h = Ok hf -> int_age_overflows z = true ->
  exists v, curtis1974_df M h (VInt z) = Ok (VNp v) /\ is_finite v = false.
Proof.
  intros Hh. rewrite (curtis1974_python_ints M h hf z Hh).
  unfold curtis1974_python_int, int_age_overflows.
  destruct (to_double (VInt ((100 - z) ^ 2))) as [sq |];
    [| discriminate].
  destruct (long_true_divide 100 z) as [q |]; [| discriminate].
  destruct (to_double (VInt (100 - z))) as [d |]; [| discriminate].
  destruct (to_double (VInt ((100 - z) ^ 7))) as [p7 |]; [| discriminate].
  destruct (np_double (VInt z)) as [l |]; [| discriminate].
  intros Hz. apply andb_prop in Hz. destruct Hz as [Hz Hx].
  apply andb_prop in Hz. destruct Hz as [Hz Hs].
  apply negb_true_iff in Hz.
  cbn [bind]. rewrite (float_pow_square M _ Hp Hs). cbn [bind].
  rewrite Hz. eexists. split; [reflexivity |].
  apply curtis_python_old_overflow, Hx.
Qed.

(** A Python [float] age above 100. *)
Lemma curtis1974_float_age_overflows (h : value) (hf : float) (z : Z) :
  seventh_power_finite M ->
  to_double h = Ok hf -> float_age_overflows z = true ->
  exists v, curtis1974_df M h (VFloat (float_of_Z z)) = Ok (VNp v) /\
            is_finite v = false.
Proof.
  intros H7 Hh. rewrite (curtis1974_python_floats M h hf _ Hh).
  unfold curtis1974_python, float_age_overflows. cbv zeta.
  set (a := float_of_Z z). intros Hz.
  repeat (apply andb_prop in Hz; destruct Hz as [Hz ?]).
  repeat match goal with
         | H : negb _ = true |- _ => apply negb_true_iff in H
         end.
  match goal with
  | H : power_returns _ = true |- _ =>
      destruct (float_pow_returns M _ Hp H7 H) as [[sq ->] [p7 ->]]
  end.
  match goal with
  | H : squares_finitely _ = true |- _ =>
      rewrite (float_pow_square M _ Hp H)
  end.
  cbn [bind].
  repeat match goal with
         | H : ?t = false |- context [?t] => rewrite H
         end.
  cbn [bind]. eexists. split; [reflexivity |].
  apply curtis_python_old_overflow. assumption.
Qed.

(** An age above 100 in an array: the square is a product. *)
Lemma curtis1974_array_formula_overflow (h a : float) :
  (a <=? 100) = false -> (710 <=? curtis_old_exponent a) = true ->
  is_finite (curtis1974_array_formula M h a) = false.
Proof.
  intros Ha Hx. unfold curtis1974_array_formula. rewrite Ha.
  unfold curtis_a_old_array. unfold curtis_old_exponent in Hx.
  rewrite (He _ Hx). change (7.66772 * infinity) with infinity.
  apply inf_or_nan_not_finite, add_inf_or_nan_l, add_inf_or_nan_l.
  exact I.
Qed.

End CurtisOldPython.

Lemma int_ages_overflow : all_from int_age_overflows 101 1900 = true.
Proof. vm_compute. reflexivity. Qed.

Lemma float_ages_overflow : all_from float_age_overflows 101 1900 = true.
Proof. vm_compute. reflexivity. Qed.

Lemma saturating_libm_overflows : exp_overflows saturating_libm.
Proof. intros y Hy. cbn [c_exp saturating_libm]. rewrite Hy. reflexivity. Qed.


(** * The lists of Farr 1984 *)

Lemma ages_at_positions : all_from age_at_position 10 141 = true.
Proof. vm_compute. reflexivity. Qed.



(** * Python floats and numpy scalars *)

(** X16. For a positive finite age other than one, when [king1966_df] or
    [wiley1978_wh] returns a number on two Python floats, it returns the
    same number on the two numpy scalars. *)
Theorem python_agrees_with_numpy (M : libm) :
  agrees_with_numpy (king1966_df M) /\ agrees_with_numpy (wiley1978_wh M).
Proof. split; [apply king1966_agrees | apply wiley1978_agrees]. Qed.

Lemma python_agrees_with_numpy_witness :
  king1966_df sample_libm (VNp 100) (VNp 50) =
  Ok (VNp 100.00796150226624).
Proof.
  apply (proj1 (python_agrees_with_numpy sample_libm));
    vm_compute; reflexivity.
Defined.

(** * Python integers as heights *)

Lemma sub_int_height (z : Z) (c : float) :
  is_infinity (float_of_Z z) = false ->
  lift2 py_sub (ret_value (VInt z)) (ret_value (VFloat c)) =
  lift2 py_sub (ret_value (VFloat (float_of_Z z))) (ret_value (VFloat c)).
Proof.
  intros H. unfold lift2, ret_value.
  cbn [bind py_sub elementwise to_double is_np orb]. rewrite H. reflexivity.
Qed.

Lemma broadcast_not_int (f : float -> float -> float) (xs ys : list float)
  (v : value) :
  broadcast f xs ys = Ok v -> not_int v.
Proof.
  unfold broadcast. destruct (bshape _ _); intros H; [| discriminate H].
  injection H as <-. exact I.
Qed.

Lemma elementwise_not_int (f : float -> float -> float) (x y v : value) :
  elementwise f x y = Ok v -> not_int v.
Proof.
  destruct x as [a | a | a | xs], y as [b | b | b | ys];
    cbn [elementwise];
    try apply broadcast_not_int;
    intros H;
    repeat match type of H with
           | bind ?c _ = _ =>
               destruct c; cbn [bind] in H; [| discriminate H]
           end;
    injection H as <-; exact I.
Qed.

Lemma py_add_not_int (x y v : value) :
  not_int x -> py_add x y = Ok v -> not_int v.
Proof.
  intros Hx. destruct x as [a | a | a | xs]; [contradiction Hx | | |];
    apply elementwise_not_int.
Qed.

Lemma py_sub_not_int (x y v : value) :
  not_int x -> py_sub x y = Ok v -> not_int v.
Proof.
  intros Hx. destruct x as [a | a | a | xs]; [contradiction Hx | | |];
    apply elementwise_not_int.
Qed.

Lemma lift2_not_int (op : value -> value -> result value)
  (a b : result value) (v : value) :
  (forall x y w, not_int x -> op x y = Ok w -> not_int w) ->
  (forall x, a = Ok x -> not_int x) ->
  lift2 op a b = Ok v -> not_int v.
Proof.
  intros Hop Ha H. unfold lift2 in H.
  destruct a as [x |]; [| discriminate H]. cbn [bind] in H.
  destruct b as [y |]; [| discriminate H]. cbn [bind] in H.
  exact (Hop x y v (Ha x eq_refl) H).
Qed.

Lemma mul_int_height (b : value) (z : Z) :
  not_int b -> is_infinity (float_of_Z z) = false ->
  py_mul b (VInt z) = py_mul b (VFloat (float_of_Z z)).
Proof.
  intros Hb H. destruct b as [a | a | a | xs]; [contradiction Hb | | |];
    cbn [py_mul elementwise to_double bind is_np orb]; rewrite H;
    reflexivity.
Qed.

Section IntHeights.

Variable M : libm.

Lemma king1966_int_height : int_height_as_float (king1966_df M).
Proof.
  intros z age H. unfold king1966_df. rewrite (sub_int_height z _ H).
  reflexivity.
Qed.

Lemma cochran1979_int_height : int_height_as_float (cochran1979_gf M).
Proof.
  intros z age H. unfold cochran1979_gf. rewrite (sub_int_height z _ H).
  reflexivity.
Qed.

Lemma wiley1978_int_height : int_height_as_float (wiley1978_wh M).
Proof.
  intros z age H. unfold wiley1978_wh. rewrite !(sub_int_height z _ H).
  reflexivity.
Qed.

Lemma curtis1974_int_height : int_height_as_float (curtis1974_df M).
Proof.
  intros z age H. unfold curtis1974_df. rewrite (sub_int_height z _ H).
  reflexivity.
Qed.

Lemma harrington1986_int_height :
  int_height_as_float (harrington1986_ra M).
Proof.
  intros z age H. unfold harrington1986_ra.
  destruct (lift2 py_add (ret_value age) (ret_value (VInt 1)))
    as [t | e]; [| reflexivity]. cbn [bind].
  match goal with
  | |- bind ?a _ = _ => destruct a as [av | e]; [| reflexivity]
  end.
  cbn [bind].
  match goal with
  | |- bind ?b _ = _ => destruct b as [bv | e] eqn:Eb; [| reflexivity]
  end.
  cbn [bind]. unfold lift2, ret_value. cbn [bind].
  rewrite (mul_int_height bv z); [reflexivity | | exact H].
  apply (lift2_not_int py_add _ _ bv py_add_not_int) in Eb; [exact Eb |].
  intros x Hx.
  apply (lift2_not_int py_sub _ _ x py_sub_not_int) in Hx; [exact Hx |].
  intros y Hy. injection Hy as <-. exact I.
Qed.

End IntHeights.

Lemma farr_int_height : int_height_as_float farr1984_ss.
Proof.
  intros z age H. unfold farr1984_ss. rewrite (sub_int_height z _ H).
  reflexivity.
Qed.

(** X17. King 1966, Cochran 1979, Wiley 1978 and Curtis 1974 take a height
    given as a Python [int] as the float it converts to, whatever the age
    is: the result, or the exception, is the same. *)
Theorem int_height_is_float_height (M : libm) :
  int_height_as_float (king1966_df M) /\
  int_height_as_float (cochran1979_gf M) /\
  int_height_as_float (wiley1978_wh M) /\
  int_height_as_float (curtis1974_df M).
Proof.
  split; [apply king1966_int_height |].
  split; [apply cochran1979_int_height |].
  split; [apply wiley1978_int_height | apply curtis1974_int_height].
Qed.

Lemma int_height_is_float_height_witness :
  king1966_df sample_libm (VInt 100) (VInt 50) =
  king1966_df sample_libm (VFloat (float_of_Z 100)) (VInt 50).
Proof.
  apply (proj1 (int_height_is_float_height sample_libm)). reflexivity.
Defined.

(** X18. [harrington1986_ra] and [farr1984_ss] take a height given as a
    Python [int] as the float it converts to, whatever the age is; at an
    age of its table [farr1984_ss] raises [OverflowError] on an [int]
    height too large for a float. *)
Theorem int_height_in_harrington_and_farr (M : libm) :
  int_height_as_float (harrington1986_ra M) /\
  int_height_as_float farr1984_ss /\
  (forall z key, is_infinity (float_of_Z z) = true -> age_in_table key ->
     farr1984_ss (VInt z) key = Raise OverflowError).
Proof.
  split; [apply harrington1986_int_height |].
  split; [apply farr_int_height |].
  intros z key Hz [l [Hk Hl]].
  destruct (entries_in_range l Hl) as [a2 [b2 He]].
  rewrite farr_unfold. unfold farr_body.
  rewrite (loc_hit coefs key l a2 b2 Hk He). cbn [bind].
  unfold lift2, ret_value.
  cbn [bind py_add py_sub elementwise to_double is_np orb].
  rewrite Hz. reflexivity.
Qed.

Lemma int_height_in_harrington_and_farr_witness :
  farr1984_ss (VInt 100) (VInt 60) =
  farr1984_ss (VFloat (float_of_Z 100)) (VInt 60).
Proof.
  apply (proj1 (proj2 (int_height_in_harrington_and_farr sample_libm))).
  reflexivity.
Defined.

(** * The reference age *)

Lemma float_between_spec (lo hi : float) (r : result value) :
  float_between lo hi r = true ->
  exists x, r = Ok (VFloat x) /\
            (lo <=? x)%float = true /\ (x <=? hi)%float = true.
Proof.
  unfold float_between. destruct r as [[z | x | x | xs] | e];
    try discriminate.
  intros H. apply andb_prop in H. exists x. split; [reflexivity | exact H].
Qed.

(** With a Python [int] age the powers are taken on integers: the library
    is not called. *)
Lemma king1966_int_age_any_libm (M M' : libm) (h : value) (a : Z) :
  king1966_df M h (VInt a) = king1966_df M' h (VInt a).
Proof. reflexivity. Qed.

Lemma wiley1978_int_age_any_libm (M M' : libm) (h : value) (a : Z) :
  wiley1978_wh M h (VInt a) = wiley1978_wh M' h (VInt a).
Proof. reflexivity. Qed.

Lemma king1966_all_near_height : all_from king1966_near_height 5 296 = true.
Proof. vm_compute. reflexivity. Qed.

Lemma wiley1978_all_below_height :
  all_from wiley1978_below_height 5 296 = true.
Proof. vm_compute. reflexivity. Qed.

Lemma curtis1974_all_exact : all_from curtis1974_exact 0 1001 = true.
Proof. vm_compute. reflexivity. Qed.

(** X19. At its reference age, 50 given as a Python [int], [king1966_df]
    returns for every integer height from 5 to 300 a Python float within
    0.05 of the height, whatever the mathematical library is. *)
Theorem king1966_reference_age (M : libm) (z : Z) :
  (5 <= z <= 300)%Z ->
  exists x,
    king1966_df M (VInt z) (VInt 50) = Ok (VFloat x) /\
    (float_of_Z z - 0.05 <=? x)%float = true /\
    (x <=? float_of_Z z + 0.05)%float = true.
Proof.
  intros Hz. rewrite (king1966_int_age_any_libm M sample_libm).
  apply float_between_spec.
  apply (all_from_spec king1966_near_height 5 296
           king1966_all_near_height). lia.
Qed.

Lemma king1966_reference_age_witness :
  exists x,
    king1966_df sample_libm (VInt 100) (VInt 50) = Ok (VFloat x) /\
    (float_of_Z 100 - 0.05 <=? x)%float = true /\
    (x <=? float_of_Z 100 + 0.05)%float = true.
Proof. apply (king1966_reference_age sample_libm 100). lia. Defined.

(** X20. At age 50 given as a Python [int], [wiley1978_wh] returns for
    every integer height from 5 to 300 a Python float that is at least 4.5
    and at most 5.1 below the height, whatever the mathematical library
    is: the function adds no 4.5 to its quotient. *)
Theorem wiley1978_reference_age (M : libm) (z : Z) :
  (5 <= z <= 300)%Z ->
  exists x,
    wiley1978_wh M (VInt z) (VInt 50) = Ok (VFloat x) /\
    (float_of_Z z - 5.1 <=? x)%float = true /\
    (x <=? float_of_Z z - 4.5)%float = true.
Proof.
  intros Hz. rewrite (wiley1978_int_age_any_libm M sample_libm).
  apply float_between_spec.
  apply (all_from_spec wiley1978_below_height 5 296
           wiley1978_all_below_height). lia.
Qed.

Lemma wiley1978_reference_age_witness :
  exists x,
    wiley1978_wh sample_libm (VInt 100) (VInt 50) = Ok (VFloat x) /\
    (float_of_Z 100 - 5.1 <=? x)%float = true /\
    (x <=? float_of_Z 100 - 4.5)%float = true.
Proof. apply (wiley1978_reference_age sample_libm 100). lia. Defined.

Lemma curtis1974_exact_spec (z : Z) :
  (0 <= z <= 1000)%Z ->
  (0 + 1 * (float_of_Z z - 4.5) + 4.5)%float = float_of_Z z.
Proof.
  intros Hz. apply FloatAxioms.Leibniz.eqb_spec.
  apply (all_from_spec curtis1974_exact 0 1001 curtis1974_all_exact). lia.
Qed.

Lemma heights_all_finite : all_from finite_height 0 1001 = true.
Proof. vm_compute. reflexivity. Qed.

Lemma float_of_Z_small (z : Z) :
  (0 <= z <= 1000)%Z -> is_infinity (float_of_Z z) = false.
Proof.
  intros Hz. apply negb_true_iff.
  apply (all_from_spec finite_height 0 1001 heights_all_finite). lia.
Qed.

(** X21. At its reference age, 100, [curtis1974_df] returns the height
    itself for every integer height from 0 to 1000: with the age as a
    Python [int] or [float] when [pow] squares 99 without overflow (the
    branch for ages above 100 is evaluated too), and with a numpy age when
    [pow] gives a zero for the powers of zero. *)
Theorem curtis1974_reference_age (M : libm) :
  (is_infinity (c_pow M 99 2) = false ->
   forall z, (0 <= z <= 1000)%Z ->
     curtis1974_df M (VInt z) (VInt 100) = Ok (VNp (float_of_Z z)) /\
     curtis1974_df M (VInt z) (VFloat 100) = Ok (VNp (float_of_Z z))) /\
  (c_pow M 0 2 = 0%float -> c_pow M 0 7 = 0%float ->
   forall z, (0 <= z <= 1000)%Z ->
     curtis1974_df M (VNp (float_of_Z z)) (VNp 100) =
     Ok (VNp (float_of_Z z))).
Proof.
  split.
  - intros Hp z Hz.
    rewrite !(curtis1974_int_height M z _ (float_of_Z_small z Hz)).
    rewrite (curtis1974_int_100 M (float_of_Z z) Hp).
    rewrite (curtis1974_float_100 M (float_of_Z z) Hp).
    rewrite (curtis1974_exact_spec z Hz). split; reflexivity.
  - intros H2 H7 z Hz.
    rewrite (proj2 (proj2 (curtis1974_np_100 M (float_of_Z z) H2 H7))).
    rewrite (curtis1974_exact_spec z Hz). reflexivity.
Qed.

Lemma curtis1974_reference_age_witness :
  curtis1974_df sample_libm (VInt 120) (VInt 100) = Ok (VNp (float_of_Z 120)).
Proof.
  apply (proj1 (curtis1974_reference_age sample_libm)); [reflexivity | lia].
Defined.
